(** * NanoBananaStudio: the client-side state and persistence core

    A shallow embedding of the request client ([services/geminiService.ts]),
    of the studio controller (the [TextGenerator] component) and of the
    pipeline evaluator (the [WorkflowEditor] component), followed by the
    properties of the specification proved about them. *)

From Stdlib Require Import List ZArith NArith Bool String Ascii Lia.
Import ListNotations.

(** ** JavaScript values *)

Module Js.

(** A JavaScript string is a sequence of UTF-16 code units. *)
Definition jsstring := list N.

(** String literals of the source (all of them ASCII). *)
Definition lit (s : string) : jsstring :=
  map N_of_ascii (list_ascii_of_string s).

Fixpoint eqb (a b : jsstring) : bool :=
  match a, b with
  | [], [] => true
  | x :: a', y :: b' => N.eqb x y && eqb a' b'
  | _, _ => false
  end.

(** [s.includes(c)] for a one-character [c]. *)
Definition includes_char (c : N) (s : jsstring) : bool := existsb (N.eqb c) s.

(** [s.startsWith(p)], returning what follows the prefix. *)
Fixpoint strip_prefix (p s : jsstring) : option jsstring :=
  match p, s with
  | [], _ => Some s
  | x :: p', y :: s' => if N.eqb x y then strip_prefix p' s' else None
  | _ :: _, [] => None
  end.

(** WhiteSpace and LineTerminator code units, the ones [trim] removes. *)
Definition is_whitespace (c : N) : bool :=
  ((9 <=? c) && (c <=? 13) || (c =? 32) || (c =? 160) || (c =? 5760)
   || (8192 <=? c) && (c <=? 8202) || (c =? 8232) || (c =? 8233)
   || (c =? 8239) || (c =? 8287) || (c =? 12288) || (c =? 65279))%N.

(** LineTerminator code units, the ones [.] of a regular expression
    refuses. *)
Definition is_line_terminator (c : N) : bool :=
  ((c =? 10) || (c =? 13) || (c =? 8232) || (c =? 8233))%N.

Definition no_line_terminator (s : jsstring) : bool :=
  forallb (fun c => negb (is_line_terminator c)) s.

(** Truthiness of [s.trim()]: some code unit is not white space. *)
Definition trim_truthy (s : jsstring) : bool :=
  existsb (fun c => negb (is_whitespace c)) s.

(** [s || d] on strings. *)
Definition str_or (s d : jsstring) : jsstring :=
  match s with [] => d | _ => s end.

(** The values a stored blob or a parsed JSON text is made of.  Numbers
    are the integers (time stamps are integral milliseconds). *)
#[warnings="-register-all"] Inductive value : Type :=
| Undefined
| Null
| Bool (b : bool)
| Num (z : Z)
| Str (s : jsstring)
| Arr (items : list value)
| Obj (fields : list (jsstring * value)).

Definition truthy (v : value) : bool :=
  match v with
  | Undefined | Null => false
  | Bool b => b
  | Num z => negb (Z.eqb z 0)
  | Str s => match s with [] => false | _ => true end
  | Arr _ | Obj _ => true
  end.

Fixpoint lookup (k : jsstring) (fields : list (jsstring * value)) : value :=
  match fields with
  | [] => Undefined
  | (k', v) :: rest => if eqb k k' then v else lookup k rest
  end.

(** [v.k] for the property names the source reads ([error], [message]):
    only an object has them. *)
Definition get (k : jsstring) (v : value) : value :=
  match v with
  | Obj fields => lookup k fields
  | _ => Undefined
  end.

(** The outcome of a call that may throw; an [Error] is its message. *)
Inductive completion (A : Type) : Type :=
| Return (a : A)
| Throw (message : jsstring).
Arguments Return {A} a.
Arguments Throw {A} message.

End Js.

Import Js.

(** ** The request client, [services/geminiService.ts] *)

Module GeminiService.

Inductive part : Type :=
| TextPart (text : jsstring)
| InlineData (mimeType data : jsstring).

Record imageConfig : Type := mkImageConfig {
  imageSize : jsstring;
  cfg_aspectRatio : jsstring
}.

(** The argument of [ai.models.generateContent]. *)
Record request : Type := mkRequest {
  model : jsstring;
  contents : list part;
  config : option imageConfig
}.

(** One entry of [response.candidates[0].content.parts]. *)
Record rpart : Type := mkRpart {
  r_inlineData : option (option jsstring * option jsstring);  (* mimeType, data *)
  r_text : option jsstring
}.

(** [response.candidates?.[0]?.content?.parts], [None] when the chain
    yields [undefined]. *)
Definition response := option (list rpart).

(** [getClient]: the key of the environment, or the error. *)
Definition getClient (apiKey : option jsstring) : completion jsstring :=
  match apiKey with
  | None | Some [] => Throw (lit "API Key not found in environment variables")
  | Some k => Return k
  end.

(** [/^data:(.+);base64,(.+)$/]: the first group is greedy, so the match
    tries the longest first group first and backtracks. *)
Definition match_tail (m s : jsstring) : option (jsstring * jsstring) :=
  match strip_prefix (lit ";base64,") s with
  | Some d =>
      match d with
      | [] => None
      | _ => if no_line_terminator d then Some (m, d) else None
      end
  | None => None
  end.

Fixpoint match_group1 (acc s : jsstring) : option (jsstring * jsstring) :=
  match s with
  | [] => None
  | c :: s' =>
      if is_line_terminator c then None
      else match match_group1 (acc ++ [c]) s' with
           | Some r => Some r
           | None => match_tail (acc ++ [c]) s'
           end
  end.

Definition match_data_url (s : jsstring) : option (jsstring * jsstring) :=
  match strip_prefix (lit "data:") s with
  | Some rest => match_group1 [] rest
  | None => None
  end.

Definition validRatios : list jsstring :=
  [lit "1:1"; lit "3:4"; lit "4:3"; lit "9:16"; lit "16:9"; lit "21:9"].

Definition finalAspectRatio (aspectRatio : jsstring) : jsstring :=
  if existsb (eqb aspectRatio) validRatios then aspectRatio else lit "1:1".

(** The parts pushed for the reference images: at most two are looked at,
    and one that is not a data URL is skipped. *)
Fixpoint image_parts (images : list jsstring) : list part :=
  match images with
  | [] => []
  | imgData :: rest =>
      match match_data_url imgData with
      | Some (mime, data) => InlineData mime data :: image_parts rest
      | None => image_parts rest
      end
  end.

(** [generateImage] up to the remote call: the request it dispatches, or
    what is thrown inside the [try] before any dispatch. *)
Definition generateImage_request (apiKey : option jsstring)
    (prompt : jsstring) (referenceImages : list jsstring)
    (resolution aspectRatio : jsstring) : completion request :=
  match getClient apiKey with
  | Throw e => Throw e
  | Return _ =>
      let imagesToProcess := firstn 2 referenceImages in
      let parts := TextPart prompt :: image_parts imagesToProcess in
      Return (mkRequest (lit "gemini-3-pro-image-preview") parts
                (Some (mkImageConfig resolution (finalAspectRatio aspectRatio))))
  end.

(** [editImage] up to the remote call. *)
Definition editImage_request (apiKey : option jsstring)
    (prompt : jsstring) (inputImageBase64 : jsstring) : completion request :=
  match getClient apiKey with
  | Throw e => Throw e
  | Return _ =>
      match match_data_url inputImageBase64 with
      | Some (mime, data) =>
          Return (mkRequest (lit "gemini-2.5-flash-image")
                    [TextPart prompt; InlineData mime data] None)
      | None => Throw (lit "Invalid image data format")
      end
  end.

(** The loop over the parts of the response: the first part that holds
    image data gives the data URL. *)
Fixpoint first_image (parts : list rpart) : option jsstring :=
  match parts with
  | [] => None
  | p :: rest =>
      match r_inlineData p with
      | Some (mime, Some ((_ :: _) as data)) =>
          let mimeType := str_or (match mime with Some m => m | None => [] end)
                            (lit "image/png") in
          Some (lit "data:" ++ mimeType ++ lit ";base64," ++ data)
      | _ => first_image rest
      end
  end.

(** [parts.find(p => p.text)]. *)
Fixpoint find_text (parts : list rpart) : option jsstring :=
  match parts with
  | [] => None
  | p :: rest =>
      match r_text p with
      | Some ((_ :: _) as t) => Some t
      | _ => find_text rest
      end
  end.

(** What follows the [await]: the image of the response, or the error
    thrown inside the [try]. *)
Definition read_response (fallback : jsstring) (r : response)
  : completion jsstring :=
  match match r with Some parts => first_image parts | None => None end with
  | Some base64Image => Return base64Image
  | None =>
      match match r with Some parts => find_text parts | None => None end with
      | Some text => Throw (str_or text fallback)
      | None => Throw (lit "No image data found in response")
      end
  end.

(** [/(\{[\s\S]*\})/]: from the first opening brace to the last closing
    brace after it. *)
Fixpoint upto_last_close (s : jsstring) : option jsstring :=
  match s with
  | [] => None
  | c :: s' =>
      match upto_last_close s' with
      | Some p => Some (c :: p)
      | None => if N.eqb c 125 then Some [c] else None
      end
  end.

Fixpoint extract_braces (s : jsstring) : option jsstring :=
  match s with
  | [] => None
  | c :: s' =>
      if N.eqb c 123
      then option_map (cons c) (upto_last_close s')
      else extract_braces s'
  end.

Section Catch.

(** [JSON.parse], [None] when it throws, and the conversion to a string
    that [new Error] applies to a message that is not one. *)
Variable JSON_parse : jsstring -> option value.
Variable ToString : value -> jsstring.

Definition message_of (v : value) : jsstring :=
  match v with Str s => s | _ => ToString v end.

(** The [catch] block: the message of the error that is thrown again. *)
Definition catch_message (message : jsstring) : jsstring :=
  let errorMessage := str_or message (lit "Unknown error occurred") in
  if includes_char 123 errorMessage || includes_char 91 errorMessage then
    let jsonStr := match extract_braces errorMessage with
                   | Some j => j
                   | None => errorMessage
                   end in
    match JSON_parse jsonStr with
    | None => errorMessage
    | Some Null | Some Undefined => errorMessage
    | Some parsed =>
        let inner := match get (lit "error") parsed with
                     | Undefined | Null => Undefined
                     | e => get (lit "message") e
                     end in
        if truthy inner then message_of inner
        else if truthy (get (lit "message") parsed)
             then message_of (get (lit "message") parsed)
             else errorMessage
    end
  else errorMessage.

Definition rethrow {A} (c : completion A) : completion A :=
  match c with
  | Return a => Return a
  | Throw m => Throw (catch_message m)
  end.

(** The whole call against a remote service [remote]: the outcome and the
    requests that were dispatched. *)
Definition run_call (fallback : jsstring) (req : completion request)
    (remote : request -> completion response)
  : completion jsstring * list request :=
  match req with
  | Throw m => (Throw (catch_message m), [])
  | Return r =>
      (rethrow match remote r with
               | Return resp => read_response fallback resp
               | Throw m => Throw m
               end, [r])
  end.

Definition generateImage (apiKey : option jsstring)
    (prompt : jsstring) (referenceImages : list jsstring)
    (resolution aspectRatio : jsstring)
    (remote : request -> completion response) :=
  run_call (lit "Generation failed")
    (generateImage_request apiKey prompt referenceImages resolution aspectRatio)
    remote.

Definition editImage (apiKey : option jsstring)
    (prompt inputImageBase64 : jsstring)
    (remote : request -> completion response) :=
  run_call (lit "Edit failed")
    (editImage_request apiKey prompt inputImageBase64) remote.

End Catch.

End GeminiService.

(** ** The history record, [types.ts] *)

Module Types.

Record GeneratedImage : Type := mkGeneratedImage {
  url : jsstring;
  prompt : jsstring;
  timestamp : Z
}.

End Types.

(** ** The durable history store (the IndexedDB helpers of the controller) *)

Module HistoryStore.

Import Types.

(** What [store.put(items, 'recent')] leaves in the store for one record. *)
Definition encode (g : GeneratedImage) : value :=
  Obj [(lit "url", Str (url g)); (lit "prompt", Str (prompt g));
       (lit "timestamp", Num (timestamp g))].

Definition encode_history (items : list GeneratedImage) : value :=
  Arr (map encode items).

(** [result.map(url => ({ url, prompt: 'Legacy Image', timestamp: Date.now() }))]:
    [now k] is what the [k]-th call of [Date.now()] returns. *)
Fixpoint migrate_from (now : nat -> Z) (k : nat) (items : list value)
  : list value :=
  match items with
  | [] => []
  | u :: rest =>
      Obj [(lit "url", u); (lit "prompt", Str (lit "Legacy Image"));
           (lit "timestamp", Num (now k))]
      :: migrate_from now (S k) rest
  end.

(** The [onsuccess] handler of [getHistoryFromDB] on [req.result]. *)
Definition onsuccess (now : nat -> Z) (req_result : value) : value :=
  let result := if truthy req_result then req_result else Arr [] in
  match result with
  | Arr ((Str _ :: _) as items) => Arr (migrate_from now 0 items)
  | _ => result
  end.

(** What the database does with one read of [getHistoryFromDB]. *)
Inductive read_attempt : Type :=
| OpenRejected                        (* [initDB] rejects *)
| ExecutorThrows (message : jsstring)
    (* [db.transaction], [tx.objectStore] or [store.get] throws *)
| RequestError                        (* [req.onerror] *)
| RequestSuccess (req_result : value). (* [req.onsuccess] *)

(** [getHistoryFromDB].  A rejection of [initDB] is thrown at the [await]
    inside the [try] and caught: the call resolves with the empty list, as
    it does when the request fails.  The promise around the request is
    returned without an [await], so an exception in its executor rejects
    the call and the [catch] does not see it. *)
Definition getHistoryFromDB (now : nat -> Z) (db : read_attempt)
  : completion value :=
  match db with
  | OpenRejected => Return (Arr [])
  | ExecutorThrows message => Throw message
  | RequestError => Return (Arr [])
  | RequestSuccess req_result => Return (onsuccess now req_result)
  end.

(** The object store: what it keeps under the key ['recent'], if anything. *)
Definition store := option value.

(** [store.get('recent')] *)
Definition read (st : store) : value :=
  match st with Some v => v | None => Undefined end.

(** [saveHistoryToDB]: [ok] tells whether [initDB] resolved and the
    transaction completed; otherwise the failure is logged or rejected and
    the store keeps what it had. *)
Definition saveHistoryToDB (ok : bool) (items : list GeneratedImage)
    (st : store) : store :=
  if ok then Some (encode_history items) else st.

(** The [clear()] of [confirmClearHistory], under the same [ok]. *)
Definition clear (ok : bool) (st : store) : store :=
  if ok then None else st.

(** What can go wrong with one read. *)
Inductive read_fault : Type :=
| OpenFails
| ExecutorFails (message : jsstring)
| RequestFails.

(** [getHistoryFromDB] against the store: without a fault the request
    succeeds with what the store holds under ['recent']. *)
Definition load (now : nat -> Z) (fault : option read_fault) (st : store)
  : completion value :=
  getHistoryFromDB now
    (match fault with
     | None => RequestSuccess (read st)
     | Some OpenFails => OpenRejected
     | Some (ExecutorFails message) => ExecutorThrows message
     | Some RequestFails => RequestError
     end).

End HistoryStore.

(** ** The studio controller, the [TextGenerator] component

    The [useState] cells of the component are the fields of [State], and
    [setX v] is the update of one cell.  A handler is a function from the
    state to the new state and the effects it issues, in order.  An [async]
    handler is cut at its [await]: the part that runs at once, and the
    continuation that runs when the promise settles, which takes the values
    it closed over as arguments.  The updates of one handler are rendered
    together, and the [useEffect] hooks run after that render ([commit]).
    Timers fire as events of their own. *)

Module TextGenerator.

Import Types.

Record UploadedImage : Type := mkUploadedImage {
  up_url : jsstring;
  size : jsstring
}.

Record State : Type := mkState {
  prompt : jsstring;
  image : option GeneratedImage;
  previewImage : option GeneratedImage;
  history : list GeneratedImage;
  history_ref : nat;   (* which array [history] holds, as the dependency
                          check of [useEffect] compares arrays by identity *)
  isHistoryLoaded : bool;
  uploadedImages : list UploadedImage;
  resolution : jsstring;
  aspectRatio : jsstring;
  loading : bool;
  error : option jsstring;
  isEditSidebarOpen : bool;
  editingImage : option GeneratedImage;
  editPrompt : jsstring;
  isEditing : bool;
  showClearDialog : bool;
  showDeleteDialog : bool;
  imageToDelete : option GeneratedImage;
  showToast : bool;
  showGenSuccessToast : bool;
  showEditSuccessToast : bool;
  showWarningToast : bool;
  warningMsg : jsstring;
  showErrorToast : bool
}.

Definition setPrompt (v : jsstring) (s : State) : State :=
  {| prompt := v; image := image s; previewImage := previewImage s;
     history := history s; history_ref := history_ref s;
     isHistoryLoaded := isHistoryLoaded s;
     uploadedImages := uploadedImages s; resolution := resolution s;
     aspectRatio := aspectRatio s; loading := loading s; error := error s;
     isEditSidebarOpen := isEditSidebarOpen s;
     editingImage := editingImage s; editPrompt := editPrompt s;
     isEditing := isEditing s; showClearDialog := showClearDialog s;
     showDeleteDialog := showDeleteDialog s;
     imageToDelete := imageToDelete s; showToast := showToast s;
     showGenSuccessToast := showGenSuccessToast s;
     showEditSuccessToast := showEditSuccessToast s;
     showWarningToast := showWarningToast s; warningMsg := warningMsg s;
     showErrorToast := showErrorToast s |}.

Definition setImage (v : option GeneratedImage) (s : State) : State :=
  {| prompt := prompt s; image := v; previewImage := previewImage s;
     history := history s; history_ref := history_ref s;
     isHistoryLoaded := isHistoryLoaded s;
     uploadedImages := uploadedImages s; resolution := resolution s;
     aspectRatio := aspectRatio s; loading := loading s; error := error s;
     isEditSidebarOpen := isEditSidebarOpen s;
     editingImage := editingImage s; editPrompt := editPrompt s;
     isEditing := isEditing s; showClearDialog := showClearDialog s;
     showDeleteDialog := showDeleteDialog s;
     imageToDelete := imageToDelete s; showToast := showToast s;
     showGenSuccessToast := showGenSuccessToast s;
     showEditSuccessToast := showEditSuccessToast s;
     showWarningToast := showWarningToast s; warningMsg := warningMsg s;
     showErrorToast := showErrorToast s |}.

Definition setPreviewImage (v : option GeneratedImage) (s : State) : State :=
  {| prompt := prompt s; image := image s; previewImage := v;
     history := history s; history_ref := history_ref s;
     isHistoryLoaded := isHistoryLoaded s;
     uploadedImages := uploadedImages s; resolution := resolution s;
     aspectRatio := aspectRatio s; loading := loading s; error := error s;
     isEditSidebarOpen := isEditSidebarOpen s;
     editingImage := editingImage s; editPrompt := editPrompt s;
     isEditing := isEditing s; showClearDialog := showClearDialog s;
     showDeleteDialog := showDeleteDialog s;
     imageToDelete := imageToDelete s; showToast := showToast s;
     showGenSuccessToast := showGenSuccessToast s;
     showEditSuccessToast := showEditSuccessToast s;
     showWarningToast := showWarningToast s; warningMsg := warningMsg s;
     showErrorToast := showErrorToast s |}.

(** Every [setHistory] of the source stores a freshly allocated array:
    the reference held by the state changes with it. *)
Definition setHistory (v : list GeneratedImage) (s : State) : State :=
  {| prompt := prompt s; image := image s; previewImage := previewImage s;
     history := v; history_ref := S (history_ref s);
     isHistoryLoaded := isHistoryLoaded s;
     uploadedImages := uploadedImages s; resolution := resolution s;
     aspectRatio := aspectRatio s; loading := loading s; error := error s;
     isEditSidebarOpen := isEditSidebarOpen s;
     editingImage := editingImage s; editPrompt := editPrompt s;
     isEditing := isEditing s; showClearDialog := showClearDialog s;
     showDeleteDialog := showDeleteDialog s;
     imageToDelete := imageToDelete s; showToast := showToast s;
     showGenSuccessToast := showGenSuccessToast s;
     showEditSuccessToast := showEditSuccessToast s;
     showWarningToast := showWarningToast s; warningMsg := warningMsg s;
     showErrorToast := showErrorToast s |}.

Definition setIsHistoryLoaded (v : bool) (s : State) : State :=
  {| prompt := prompt s; image := image s; previewImage := previewImage s;
     history := history s; history_ref := history_ref s;
     isHistoryLoaded := v; uploadedImages := uploadedImages s;
     resolution := resolution s; aspectRatio := aspectRatio s;
     loading := loading s; error := error s;
     isEditSidebarOpen := isEditSidebarOpen s;
     editingImage := editingImage s; editPrompt := editPrompt s;
     isEditing := isEditing s; showClearDialog := showClearDialog s;
     showDeleteDialog := showDeleteDialog s;
     imageToDelete := imageToDelete s; showToast := showToast s;
     showGenSuccessToast := showGenSuccessToast s;
     showEditSuccessToast := showEditSuccessToast s;
     showWarningToast := showWarningToast s; warningMsg := warningMsg s;
     showErrorToast := showErrorToast s |}.

Definition setUploadedImages (v : list UploadedImage) (s : State) : State :=
  {| prompt := prompt s; image := image s; previewImage := previewImage s;
     history := history s; history_ref := history_ref s;
     isHistoryLoaded := isHistoryLoaded s; uploadedImages := v;
     resolution := resolution s; aspectRatio := aspectRatio s;
     loading := loading s; error := error s;
     isEditSidebarOpen := isEditSidebarOpen s;
     editingImage := editingImage s; editPrompt := editPrompt s;
     isEditing := isEditing s; showClearDialog := showClearDialog s;
     showDeleteDialog := showDeleteDialog s;
     imageToDelete := imageToDelete s; showToast := showToast s;
     showGenSuccessToast := showGenSuccessToast s;
     showEditSuccessToast := showEditSuccessToast s;
     showWarningToast := showWarningToast s; warningMsg := warningMsg s;
     showErrorToast := showErrorToast s |}.

Definition setResolution (v : jsstring) (s : State) : State :=
  {| prompt := prompt s; image := image s; previewImage := previewImage s;
     history := history s; history_ref := history_ref s;
     isHistoryLoaded := isHistoryLoaded s;
     uploadedImages := uploadedImages s; resolution := v;
     aspectRatio := aspectRatio s; loading := loading s; error := error s;
     isEditSidebarOpen := isEditSidebarOpen s;
     editingImage := editingImage s; editPrompt := editPrompt s;
     isEditing := isEditing s; showClearDialog := showClearDialog s;
     showDeleteDialog := showDeleteDialog s;
     imageToDelete := imageToDelete s; showToast := showToast s;
     showGenSuccessToast := showGenSuccessToast s;
     showEditSuccessToast := showEditSuccessToast s;
     showWarningToast := showWarningToast s; warningMsg := warningMsg s;
     showErrorToast := showErrorToast s |}.

Definition setAspectRatio (v : jsstring) (s : State) : State :=
  {| prompt := prompt s; image := image s; previewImage := previewImage s;
     history := history s; history_ref := history_ref s;
     isHistoryLoaded := isHistoryLoaded s;
     uploadedImages := uploadedImages s; resolution := resolution s;
     aspectRatio := v; loading := loading s; error := error s;
     isEditSidebarOpen := isEditSidebarOpen s;
     editingImage := editingImage s; editPrompt := editPrompt s;
     isEditing := isEditing s; showClearDialog := showClearDialog s;
     showDeleteDialog := showDeleteDialog s;
     imageToDelete := imageToDelete s; showToast := showToast s;
     showGenSuccessToast := showGenSuccessToast s;
     showEditSuccessToast := showEditSuccessToast s;
     showWarningToast := showWarningToast s; warningMsg := warningMsg s;
     showErrorToast := showErrorToast s |}.

Definition setLoading (v : bool) (s : State) : State :=
  {| prompt := prompt s; image := image s; previewImage := previewImage s;
     history := history s; history_ref := history_ref s;
     isHistoryLoaded := isHistoryLoaded s;
     uploadedImages := uploadedImages s; resolution := resolution s;
     aspectRatio := aspectRatio s; loading := v; error := error s;
     isEditSidebarOpen := isEditSidebarOpen s;
     editingImage := editingImage s; editPrompt := editPrompt s;
     isEditing := isEditing s; showClearDialog := showClearDialog s;
     showDeleteDialog := showDeleteDialog s;
     imageToDelete := imageToDelete s; showToast := showToast s;
     showGenSuccessToast := showGenSuccessToast s;
     showEditSuccessToast := showEditSuccessToast s;
     showWarningToast := showWarningToast s; warningMsg := warningMsg s;
     showErrorToast := showErrorToast s |}.

Definition setError (v : option jsstring) (s : State) : State :=
  {| prompt := prompt s; image := image s; previewImage := previewImage s;
     history := history s; history_ref := history_ref s;
     isHistoryLoaded := isHistoryLoaded s;
     uploadedImages := uploadedImages s; resolution := resolution s;
     aspectRatio := aspectRatio s; loading := loading s; error := v;
     isEditSidebarOpen := isEditSidebarOpen s;
     editingImage := editingImage s; editPrompt := editPrompt s;
     isEditing := isEditing s; showClearDialog := showClearDialog s;
     showDeleteDialog := showDeleteDialog s;
     imageToDelete := imageToDelete s; showToast := showToast s;
     showGenSuccessToast := showGenSuccessToast s;
     showEditSuccessToast := showEditSuccessToast s;
     showWarningToast := showWarningToast s; warningMsg := warningMsg s;
     showErrorToast := showErrorToast s |}.

Definition setIsEditSidebarOpen (v : bool) (s : State) : State :=
  {| prompt := prompt s; image := image s; previewImage := previewImage s;
     history := history s; history_ref := history_ref s;
     isHistoryLoaded := isHistoryLoaded s;
     uploadedImages := uploadedImages s; resolution := resolution s;
     aspectRatio := aspectRatio s; loading := loading s; error := error s;
     isEditSidebarOpen := v; editingImage := editingImage s;
     editPrompt := editPrompt s; isEditing := isEditing s;
     showClearDialog := showClearDialog s;
     showDeleteDialog := showDeleteDialog s;
     imageToDelete := imageToDelete s; showToast := showToast s;
     showGenSuccessToast := showGenSuccessToast s;
     showEditSuccessToast := showEditSuccessToast s;
     showWarningToast := showWarningToast s; warningMsg := warningMsg s;
     showErrorToast := showErrorToast s |}.

Definition setEditingImage (v : option GeneratedImage) (s : State) : State :=
  {| prompt := prompt s; image := image s; previewImage := previewImage s;
     history := history s; history_ref := history_ref s;
     isHistoryLoaded := isHistoryLoaded s;
     uploadedImages := uploadedImages s; resolution := resolution s;
     aspectRatio := aspectRatio s; loading := loading s; error := error s;
     isEditSidebarOpen := isEditSidebarOpen s; editingImage := v;
     editPrompt := editPrompt s; isEditing := isEditing s;
     showClearDialog := showClearDialog s;
     showDeleteDialog := showDeleteDialog s;
     imageToDelete := imageToDelete s; showToast := showToast s;
     showGenSuccessToast := showGenSuccessToast s;
     showEditSuccessToast := showEditSuccessToast s;
     showWarningToast := showWarningToast s; warningMsg := warningMsg s;
     showErrorToast := showErrorToast s |}.

Definition setEditPrompt (v : jsstring) (s : State) : State :=
  {| prompt := prompt s; image := image s; previewImage := previewImage s;
     history := history s; history_ref := history_ref s;
     isHistoryLoaded := isHistoryLoaded s;
     uploadedImages := uploadedImages s; resolution := resolution s;
     aspectRatio := aspectRatio s; loading := loading s; error := error s;
     isEditSidebarOpen := isEditSidebarOpen s;
     editingImage := editingImage s; editPrompt := v;
     isEditing := isEditing s; showClearDialog := showClearDialog s;
     showDeleteDialog := showDeleteDialog s;
     imageToDelete := imageToDelete s; showToast := showToast s;
     showGenSuccessToast := showGenSuccessToast s;
     showEditSuccessToast := showEditSuccessToast s;
     showWarningToast := showWarningToast s; warningMsg := warningMsg s;
     showErrorToast := showErrorToast s |}.

Definition setIsEditing (v : bool) (s : State) : State :=
  {| prompt := prompt s; image := image s; previewImage := previewImage s;
     history := history s; history_ref := history_ref s;
     isHistoryLoaded := isHistoryLoaded s;
     uploadedImages := uploadedImages s; resolution := resolution s;
     aspectRatio := aspectRatio s; loading := loading s; error := error s;
     isEditSidebarOpen := isEditSidebarOpen s;
     editingImage := editingImage s; editPrompt := editPrompt s;
     isEditing := v; showClearDialog := showClearDialog s;
     showDeleteDialog := showDeleteDialog s;
     imageToDelete := imageToDelete s; showToast := showToast s;
     showGenSuccessToast := showGenSuccessToast s;
     showEditSuccessToast := showEditSuccessToast s;
     showWarningToast := showWarningToast s; warningMsg := warningMsg s;
     showErrorToast := showErrorToast s |}.

Definition setShowClearDialog (v : bool) (s : State) : State :=
  {| prompt := prompt s; image := image s; previewImage := previewImage s;
     history := history s; history_ref := history_ref s;
     isHistoryLoaded := isHistoryLoaded s;
     uploadedImages := uploadedImages s; resolution := resolution s;
     aspectRatio := aspectRatio s; loading := loading s; error := error s;
     isEditSidebarOpen := isEditSidebarOpen s;
     editingImage := editingImage s; editPrompt := editPrompt s;
     isEditing := isEditing s; showClearDialog := v;
     showDeleteDialog := showDeleteDialog s;
     imageToDelete := imageToDelete s; showToast := showToast s;
     showGenSuccessToast := showGenSuccessToast s;
     showEditSuccessToast := showEditSuccessToast s;
     showWarningToast := showWarningToast s; warningMsg := warningMsg s;
     showErrorToast := showErrorToast s |}.

Definition setShowDeleteDialog (v : bool) (s : State) : State :=
  {| prompt := prompt s; image := image s; previewImage := previewImage s;
     history := history s; history_ref := history_ref s;
     isHistoryLoaded := isHistoryLoaded s;
     uploadedImages := uploadedImages s; resolution := resolution s;
     aspectRatio := aspectRatio s; loading := loading s; error := error s;
     isEditSidebarOpen := isEditSidebarOpen s;
     editingImage := editingImage s; editPrompt := editPrompt s;
     isEditing := isEditing s; showClearDialog := showClearDialog s;
     showDeleteDialog := v; imageToDelete := imageToDelete s;
     showToast := showToast s;
     showGenSuccessToast := showGenSuccessToast s;
     showEditSuccessToast := showEditSuccessToast s;
     showWarningToast := showWarningToast s; warningMsg := warningMsg s;
     showErrorToast := showErrorToast s |}.

Definition setImageToDelete (v : option GeneratedImage) (s : State) : State :=
  {| prompt := prompt s; image := image s; previewImage := previewImage s;
     history := history s; history_ref := history_ref s;
     isHistoryLoaded := isHistoryLoaded s;
     uploadedImages := uploadedImages s; resolution := resolution s;
     aspectRatio := aspectRatio s; loading := loading s; error := error s;
     isEditSidebarOpen := isEditSidebarOpen s;
     editingImage := editingImage s; editPrompt := editPrompt s;
     isEditing := isEditing s; showClearDialog := showClearDialog s;
     showDeleteDialog := showDeleteDialog s; imageToDelete := v;
     showToast := showToast s;
     showGenSuccessToast := showGenSuccessToast s;
     showEditSuccessToast := showEditSuccessToast s;
     showWarningToast := showWarningToast s; warningMsg := warningMsg s;
     showErrorToast := showErrorToast s |}.

Definition setShowToast (v : bool) (s : State) : State :=
  {| prompt := prompt s; image := image s; previewImage := previewImage s;
     history := history s; history_ref := history_ref s;
     isHistoryLoaded := isHistoryLoaded s;
     uploadedImages := uploadedImages s; resolution := resolution s;
     aspectRatio := aspectRatio s; loading := loading s; error := error s;
     isEditSidebarOpen := isEditSidebarOpen s;
     editingImage := editingImage s; editPrompt := editPrompt s;
     isEditing := isEditing s; showClearDialog := showClearDialog s;
     showDeleteDialog := showDeleteDialog s;
     imageToDelete := imageToDelete s; showToast := v;
     showGenSuccessToast := showGenSuccessToast s;
     showEditSuccessToast := showEditSuccessToast s;
     showWarningToast := showWarningToast s; warningMsg := warningMsg s;
     showErrorToast := showErrorToast s |}.

Definition setShowGenSuccessToast (v : bool) (s : State) : State :=
  {| prompt := prompt s; image := image s; previewImage := previewImage s;
     history := history s; history_ref := history_ref s;
     isHistoryLoaded := isHistoryLoaded s;
     uploadedImages := uploadedImages s; resolution := resolution s;
     aspectRatio := aspectRatio s; loading := loading s; error := error s;
     isEditSidebarOpen := isEditSidebarOpen s;
     editingImage := editingImage s; editPrompt := editPrompt s;
     isEditing := isEditing s; showClearDialog := showClearDialog s;
     showDeleteDialog := showDeleteDialog s;
     imageToDelete := imageToDelete s; showToast := showToast s;
     showGenSuccessToast := v;
     showEditSuccessToast := showEditSuccessToast s;
     showWarningToast := showWarningToast s; warningMsg := warningMsg s;
     showErrorToast := showErrorToast s |}.

Definition setShowEditSuccessToast (v : bool) (s : State) : State :=
  {| prompt := prompt s; image := image s; previewImage := previewImage s;
     history := history s; history_ref := history_ref s;
     isHistoryLoaded := isHistoryLoaded s;
     uploadedImages := uploadedImages s; resolution := resolution s;
     aspectRatio := aspectRatio s; loading := loading s; error := error s;
     isEditSidebarOpen := isEditSidebarOpen s;
     editingImage := editingImage s; editPrompt := editPrompt s;
     isEditing := isEditing s; showClearDialog := showClearDialog s;
     showDeleteDialog := showDeleteDialog s;
     imageToDelete := imageToDelete s; showToast := showToast s;
     showGenSuccessToast := showGenSuccessToast s;
     showEditSuccessToast := v; showWarningToast := showWarningToast s;
     warningMsg := warningMsg s; showErrorToast := showErrorToast s |}.

Definition setShowWarningToast (v : bool) (s : State) : State :=
  {| prompt := prompt s; image := image s; previewImage := previewImage s;
     history := history s; history_ref := history_ref s;
     isHistoryLoaded := isHistoryLoaded s;
     uploadedImages := uploadedImages s; resolution := resolution s;
     aspectRatio := aspectRatio s; loading := loading s; error := error s;
     isEditSidebarOpen := isEditSidebarOpen s;
     editingImage := editingImage s; editPrompt := editPrompt s;
     isEditing := isEditing s; showClearDialog := showClearDialog s;
     showDeleteDialog := showDeleteDialog s;
     imageToDelete := imageToDelete s; showToast := showToast s;
     showGenSuccessToast := showGenSuccessToast s;
     showEditSuccessToast := showEditSuccessToast s; showWarningToast := v;
     warningMsg := warningMsg s; showErrorToast := showErrorToast s |}.

Definition setWarningMsg (v : jsstring) (s : State) : State :=
  {| prompt := prompt s; image := image s; previewImage := previewImage s;
     history := history s; history_ref := history_ref s;
     isHistoryLoaded := isHistoryLoaded s;
     uploadedImages := uploadedImages s; resolution := resolution s;
     aspectRatio := aspectRatio s; loading := loading s; error := error s;
     isEditSidebarOpen := isEditSidebarOpen s;
     editingImage := editingImage s; editPrompt := editPrompt s;
     isEditing := isEditing s; showClearDialog := showClearDialog s;
     showDeleteDialog := showDeleteDialog s;
     imageToDelete := imageToDelete s; showToast := showToast s;
     showGenSuccessToast := showGenSuccessToast s;
     showEditSuccessToast := showEditSuccessToast s;
     showWarningToast := showWarningToast s; warningMsg := v;
     showErrorToast := showErrorToast s |}.

Definition setShowErrorToast (v : bool) (s : State) : State :=
  {| prompt := prompt s; image := image s; previewImage := previewImage s;
     history := history s; history_ref := history_ref s;
     isHistoryLoaded := isHistoryLoaded s;
     uploadedImages := uploadedImages s; resolution := resolution s;
     aspectRatio := aspectRatio s; loading := loading s; error := error s;
     isEditSidebarOpen := isEditSidebarOpen s;
     editingImage := editingImage s; editPrompt := editPrompt s;
     isEditing := isEditing s; showClearDialog := showClearDialog s;
     showDeleteDialog := showDeleteDialog s;
     imageToDelete := imageToDelete s; showToast := showToast s;
     showGenSuccessToast := showGenSuccessToast s;
     showEditSuccessToast := showEditSuccessToast s;
     showWarningToast := showWarningToast s; warningMsg := warningMsg s;
     showErrorToast := v |}.

Definition initial : State :=
  {| prompt := []; image := None; previewImage := None; history := [];
     history_ref := 0; isHistoryLoaded := false; uploadedImages := [];
     resolution := lit "1K"; aspectRatio := lit "1:1"; loading := false;
     error := None; isEditSidebarOpen := false; editingImage := None;
     editPrompt := []; isEditing := false; showClearDialog := false;
     showDeleteDialog := false; imageToDelete := None; showToast := false;
     showGenSuccessToast := false; showEditSuccessToast := false;
     showWarningToast := false; warningMsg := []; showErrorToast := false |}.

Notation "s |> f" := (f s) (at level 45, left associativity, only parsing).

(** The callbacks handed to [setTimeout]. *)
Inductive timer : Type :=
| HideWarningToastAndMsg   (* attemptCloseSidebar *)
| HideWarningToast
| ShowBusyWarning          (* the 30 s notice of the loading effect *)
| HideGenSuccessToast
| HideEditSuccessToast
| HideErrorToast
| HideToast.

(** What a handler asks of the world outside the component state. *)
Inductive effect : Type :=
| CallGenerateImage (prompt : jsstring) (referenceImages : list jsstring)
    (resolution aspectRatio : jsstring)
| CallEditImage (prompt inputImageBase64 : jsstring)
| CallGetHistoryFromDB
| CallSaveHistoryToDB (items : list GeneratedImage)
| ClearStore
| SetTimeout (cb : timer) (ms : N)
| ClearTimeout (cb : timer)
| SaveFile (href : jsstring).

(** A file handed to [handleFileChange]: its size in bytes, and what
    [compressImage] and [formatSize] make of it. *)
Record file : Type := mkFile {
  file_size : N;
  compressed : completion UploadedImage
}.

Definition is_some {A} (o : option A) : bool :=
  match o with Some _ => true | None => false end.

(** [prev.filter((_, i) => i !== index)] *)
Fixpoint remove_index {A} (index : nat) (l : list A) : list A :=
  match l, index with
  | [], _ => []
  | _ :: rest, O => rest
  | x :: rest, S i => x :: remove_index i rest
  end.

Section Handlers.

(** The translation function of [useLanguage]. *)
Variable t : string -> jsstring.

Definition attemptCloseSidebar (s : State) : State * list effect :=
  if isEditing s then
    (s |> setWarningMsg (t "waitEditCompletion") |> setShowWarningToast true,
     [SetTimeout HideWarningToastAndMsg 5000])
  else (s |> setIsEditSidebarOpen false, []).

(** [load], after [getHistoryFromDB] has resolved.  When that call rejects,
    [load] stops at its [await]: nothing of the state is set, and
    [isHistoryLoaded] stays [false]. *)
Definition load_resolved (savedItems : list GeneratedImage) (s : State)
  : State * list effect :=
  ((match savedItems with
    | [] => s
    | _ => s |> setHistory (firstn 10 savedItems)
    end) |> setIsHistoryLoaded true, []).

(** [handleGenerate] up to the [await]. *)
Definition handleGenerate (s : State) : State * list effect :=
  if negb (trim_truthy (prompt s)) then (s, [])
  else
    (s |> setLoading true |> setError None |> setShowErrorToast false,
     [CallGenerateImage (prompt s) (map up_url (uploadedImages s))
        (resolution s) (aspectRatio s)]).

(** [handleGenerate] after the [await]: [prompt0] is the prompt the call
    closed over, [now] the value of [Date.now()]. *)
Definition handleGenerate_resolved (prompt0 : jsstring)
    (result : completion jsstring) (now : Z) (s : State)
  : State * list effect :=
  match result with
  | Return u =>
      let newImage := mkGeneratedImage u prompt0 now in
      (s |> setImage (Some newImage)
         |> setHistory (firstn 10 (newImage :: history s))
         |> setShowGenSuccessToast true
         |> setLoading false,
       [SetTimeout HideGenSuccessToast 5000])
  | Throw message =>
      let errorMessage := str_or message (t "errorGen") in
      (s |> setError (Some errorMessage)
         |> setShowErrorToast true
         |> setLoading false,
       [SetTimeout HideErrorToast 5000])
  end.

(** [executeEdit] up to the [await]. *)
Definition executeEdit (s : State) : State * list effect :=
  match editingImage s with
  | Some target =>
      if negb (trim_truthy (editPrompt s)) then (s, [])
      else (s |> setIsEditing true |> setError None,
            [CallEditImage (editPrompt s) (url target)])
  | None => (s, [])
  end.

(** [executeEdit] after the [await]: [editPrompt0] and [previewImage0]
    are the values the call closed over. *)
Definition executeEdit_resolved (editPrompt0 : jsstring)
    (previewImage0 : option GeneratedImage)
    (result : completion jsstring) (now : Z) (s : State)
  : State * list effect :=
  match result with
  | Return newImageUrl =>
      let newImage :=
        mkGeneratedImage newImageUrl (lit "Edit: " ++ editPrompt0) now in
      (s |> setPrompt []
         |> setResolution (lit "1K")
         |> setAspectRatio (lit "1:1")
         |> setUploadedImages []
         |> setImage None
         |> setEditPrompt []
         |> (fun s => setHistory (firstn 10 (newImage :: history s)) s)
         |> setEditingImage (Some newImage)
         |> (fun s => if is_some previewImage0
                      then setPreviewImage (Some newImage) s else s)
         |> setShowEditSuccessToast true
         |> setIsEditing false,
       [SetTimeout HideEditSuccessToast 5000])
  | Throw message =>
      let errorMessage := str_or message (t "errorGen") in
      (s |> setError (Some errorMessage)
         |> setShowErrorToast true
         |> setIsEditing false,
       [SetTimeout HideErrorToast 5000])
  end.

(** The [keydown] handler of Ctrl+Enter (Cmd+Enter). *)
Definition handleCtrlEnter (s : State) : State * list effect :=
  if isEditSidebarOpen s then
    if trim_truthy (editPrompt s) && is_some (editingImage s)
       && negb (isEditing s)
    then executeEdit s else (s, [])
  else
    if trim_truthy (prompt s) && negb (loading s)
    then handleGenerate s else (s, []).

(** The [keydown] handler of Escape. *)
Definition handleEscape (s : State) : State * list effect :=
  if isEditSidebarOpen s then attemptCloseSidebar s
  else if is_some (previewImage s) then (s |> setPreviewImage None, [])
  else (s, []).

Definition handleEdit (img : GeneratedImage) (s : State)
  : State * list effect :=
  (s |> setEditingImage (Some img) |> setEditPrompt []
     |> setIsEditSidebarOpen true, []).

(** [imgUrl || previewImage?.url || image?.url] *)
Definition urlToDownload (imgUrl : jsstring) (s : State) : jsstring :=
  str_or imgUrl
    (str_or (match previewImage s with Some p => url p | None => [] end)
            (match image s with Some i => url i | None => [] end)).

Definition handleDownload (imgUrl : jsstring) (s : State)
  : State * list effect :=
  match urlToDownload imgUrl s with
  | [] => (s, [])
  | u => (s |> setShowToast true, [SaveFile u; SetTimeout HideToast 5000])
  end.

Definition handlePreview (img : GeneratedImage) (s : State)
  : State * list effect :=
  (s |> setPreviewImage (Some img), []).

Definition handleRemoveImage (index : nat) (s : State)
  : State * list effect :=
  (s |> setUploadedImages (remove_index index (uploadedImages s)), []).

Definition handleClearClick (s : State) : State * list effect :=
  (s |> setShowClearDialog true, []).

(** The store-level [clear()] is issued once [initDB] has resolved. *)
Definition confirmClearHistory (s : State) : State * list effect :=
  (s |> setHistory [], [ClearStore]).

Definition handleDeleteClick (img : GeneratedImage) (s : State)
  : State * list effect :=
  (s |> setImageToDelete (Some img) |> setShowDeleteDialog true, []).

Definition confirmDelete (s : State) : State * list effect :=
  match imageToDelete s with
  | None => (s, [])
  | Some target =>
      (s |> setHistory
              (filter (fun item =>
                         negb (Z.eqb (timestamp item) (timestamp target)))
                      (history s))
         |> setImageToDelete None, [])
  end.

(** The loop of [handleFileChange] over the files it processes: the
    state after the error reports, the timers, the results pushed. *)
Fixpoint process_files (files : list file) (s : State)
  : State * list effect * list UploadedImage :=
  match files with
  | [] => (s, [], [])
  | f :: rest =>
      if (10 * 1024 * 1024 <? file_size f)%N then
        let '(s', fx, res) :=
          process_files rest
            (s |> setError (Some (t "fileTooLarge")) |> setShowErrorToast true) in
        (s', SetTimeout HideErrorToast 5000 :: fx, res)
      else
        match compressed f with
        | Return u =>
            let '(s', fx, res) := process_files rest s in
            (s', fx, u :: res)
        | Throw _ =>
            let '(s', fx, res) :=
              process_files rest
                (s |> setError (Some (lit "Image processing failed"))
                   |> setShowErrorToast true) in
            (s', SetTimeout HideErrorToast 5000 :: fx, res)
        end
  end.

Definition handleFileChange (files : list file) (s : State)
  : State * list effect :=
  if (2 <=? List.length (uploadedImages s))%nat then (s, [])
  else
    match files with
    | [] => (s, [])
    | _ =>
        let remainingSlots := (2 - List.length (uploadedImages s))%nat in
        let filesToProcess := firstn remainingSlots files in
        let '(s', fx, processedResults) := process_files filesToProcess s in
        (match processedResults with
         | [] => s'
         | _ => s' |> setUploadedImages
                        (firstn 2 (uploadedImages s' ++ processedResults))
         end, fx)
    end.

Definition timer_fired (cb : timer) (s : State) : State * list effect :=
  match cb with
  | HideWarningToastAndMsg =>
      (s |> setShowWarningToast false |> setWarningMsg [], [])
  | HideWarningToast => (s |> setShowWarningToast false, [])
  | ShowBusyWarning =>
      (s |> setShowWarningToast true, [SetTimeout HideWarningToast 5000])
  | HideGenSuccessToast => (s |> setShowGenSuccessToast false, [])
  | HideEditSuccessToast => (s |> setShowEditSuccessToast false, [])
  | HideErrorToast => (s |> setShowErrorToast false, [])
  | HideToast => (s |> setShowToast false, [])
  end.

(** *** Rendering: the controls, the effects, the events *)

(** [disabled] of the generate trigger: the component passes
    [!prompt.trim() || loading], [RainbowButton] adds [|| isLoading]. *)
Definition generate_disabled (s : State) : bool :=
  (negb (trim_truthy (prompt s)) || loading s) || loading s.

(** [disabled] of the edit trigger, a [Button] of the side bar that is
    rendered when there is an [editingImage]. *)
Definition edit_disabled (s : State) : bool :=
  negb (trim_truthy (editPrompt s)) || isEditing s.

(** The effects of [useEffect] that run after a render, [old] being the
    state of the previous render.  The cleanups of the effects whose
    dependencies changed run first, then their bodies in the order of the
    component: the save subscription on [history, isHistoryLoaded], then
    the busy notice on [loading]. *)
Definition save_effect (old new : State) : list effect :=
  if negb (Nat.eqb (history_ref old) (history_ref new))
     || negb (Bool.eqb (isHistoryLoaded old) (isHistoryLoaded new))
  then if isHistoryLoaded new then [CallSaveHistoryToDB (history new)] else []
  else [].

(** [return () => clearTimeout(timer)] of the busy notice: the previous
    render holds a timer when it was loading. *)
Definition loading_cleanup (old new : State) : list effect :=
  if Bool.eqb (loading old) (loading new) then []
  else if loading old then [ClearTimeout ShowBusyWarning] else [].

Definition loading_effect (old new : State) : State * list effect :=
  if Bool.eqb (loading old) (loading new) then (new, [])
  else if loading new
       then (new, [SetTimeout ShowBusyWarning 30000])
       else (new |> setShowWarningToast false, []).

Definition commit (old new : State) : State * list effect :=
  let '(s', fx) := loading_effect old new in
  (s', loading_cleanup old new ++ save_effect old new ++ fx).

(** Where a click on an image control comes from: a tile of the history
    list, the result card, the full-screen preview. *)
Inductive source : Type :=
| FromHistory (index : nat)
| FromResult
| FromPreview.

Inductive event : Type :=
| ChangePrompt (v : jsstring)
| ChangeEditPrompt (v : jsstring)
| SelectResolution (v : jsstring)
| SelectAspectRatio (v : jsstring)
| ClickGenerate
| KeyCtrlEnter
| KeyEscape
| GenerateResolved (prompt0 : jsstring) (result : completion jsstring) (now : Z)
| ClickStartEdit
| EditResolved (editPrompt0 : jsstring) (previewImage0 : option GeneratedImage)
    (result : completion jsstring) (now : Z)
| LoadResolved (savedItems : list GeneratedImage)
| ClickEdit (src : source)
| ClickCloseSidebar
| ClickPreview (src : source)
| ClickClosePreview
| ClickDownload (src : source)
| ClickRemoveUpload (index : nat)
| FileChange (files : list file)
| ClickClear
| ConfirmClear
| DismissClear
| ClickDelete (index : nat)
| ConfirmDelete
| DismissDelete
| TimerFired (cb : timer).

(** The result card shows its image when the component is not loading. *)
Definition shown (src : source) (s : State) : option GeneratedImage :=
  match src with
  | FromHistory index => nth_error (history s) index
  | FromResult => if loading s then None else image s
  | FromPreview => previewImage s
  end.

(** The handler an event reaches; an event on a control that is disabled
    or not rendered reaches none. *)
Definition handle (e : event) (s : State) : State * list effect :=
  match e with
  | ChangePrompt v => (s |> setPrompt v, [])
  | ChangeEditPrompt v =>
      if is_some (editingImage s) then (s |> setEditPrompt v, []) else (s, [])
  | SelectResolution v => (s |> setResolution v, [])
  | SelectAspectRatio v => (s |> setAspectRatio v, [])
  | ClickGenerate =>
      if generate_disabled s then (s, []) else handleGenerate s
  | KeyCtrlEnter => handleCtrlEnter s
  | KeyEscape => handleEscape s
  | GenerateResolved prompt0 result now =>
      handleGenerate_resolved prompt0 result now s
  | ClickStartEdit =>
      if is_some (editingImage s) && negb (edit_disabled s)
      then executeEdit s else (s, [])
  | EditResolved editPrompt0 previewImage0 result now =>
      executeEdit_resolved editPrompt0 previewImage0 result now s
  | LoadResolved savedItems => load_resolved savedItems s
  | ClickEdit src =>
      match src, shown src s with
      | FromHistory _, Some img => handleEdit img s
      | FromPreview, Some img =>
          if isEditing s || isEditSidebarOpen s then (s, [])
          else handleEdit img s
      | _, _ => (s, [])
      end
  | ClickCloseSidebar => attemptCloseSidebar s
  | ClickPreview src =>
      match src, shown src s with
      | FromPreview, _ => (s, [])
      | _, Some img => handlePreview img s
      | _, None => (s, [])
      end
  | ClickClosePreview =>
      if is_some (previewImage s) && negb (isEditSidebarOpen s)
      then (s |> setPreviewImage None, []) else (s, [])
  | ClickDownload src =>
      match shown src s with
      | Some img => handleDownload (url img) s
      | None => (s, [])
      end
  | ClickRemoveUpload index => handleRemoveImage index s
  | FileChange files => handleFileChange files s
  | ClickClear =>
      match history s with
      | [] => (s, [])
      | _ => handleClearClick s
      end
  | ConfirmClear =>
      if showClearDialog s then
        let '(s', fx) := confirmClearHistory s in
        (s' |> setShowClearDialog false, fx)
      else (s, [])
  | DismissClear =>
      if showClearDialog s then (s |> setShowClearDialog false, []) else (s, [])
  | ClickDelete index =>
      match nth_error (history s) index with
      | Some img => handleDeleteClick img s
      | None => (s, [])
      end
  | ConfirmDelete =>
      if showDeleteDialog s then
        let '(s', fx) := confirmDelete s in
        (s' |> setShowDeleteDialog false, fx)
      else (s, [])
  | DismissDelete =>
      if showDeleteDialog s then (s |> setShowDeleteDialog false, []) else (s, [])
  | TimerFired cb => timer_fired cb s
  end.

(** One turn of the event loop: the handler, then the render and its
    effects. *)
Definition step (s : State) (e : event) : State * list effect :=
  let '(s1, fx1) := handle e s in
  let '(s2, fx2) := commit s s1 in
  (s2, fx1 ++ fx2).

(** The first render: the mount effect starts the load; the save
    subscription sees [isHistoryLoaded = false] and writes nothing.  The
    mount effect also drops the keys ['history'] and ['recent'] of
    [localStorage], which the component reads nowhere. *)
Definition mount : State * list effect :=
  (initial, [CallGetHistoryFromDB]).

(** A run of the component from a state: the final state and the effects
    in the order they were issued. *)
Fixpoint run (s : State) (events : list event) : State * list effect :=
  match events with
  | [] => (s, [])
  | e :: rest =>
      let '(s1, fx1) := step s e in
      let '(s2, fx2) := run s1 rest in
      (s2, fx1 ++ fx2)
  end.

End Handlers.

(** The ratios the form offers (its [ratios] table). *)
Definition ratios : list jsstring :=
  [lit "1:1"; lit "3:4"; lit "4:3"; lit "9:16"; lit "16:9"; lit "21:9"].

End TextGenerator.

(** ** The controller wired to the request client *)

Module Studio.

Import TextGenerator.

Section Wiring.

Variable t : string -> jsstring.
Variable JSON_parse : jsstring -> option value.
Variable ToString : value -> jsstring.
Variable apiKey : option jsstring.
Variable remote : GeminiService.request -> completion GeminiService.response.

(** A click on the generate trigger, the call of [generateImage] it makes
    against [remote], and the continuation of [handleGenerate] once the call
    has settled at time [now], nothing else happening in between: the final
    state, and the requests sent to the remote service. *)
Definition generate_and_settle (now : Z) (s : State)
  : State * list GeminiService.request :=
  let '(s1, fx) := step t s ClickGenerate in
  match fx with
  | CallGenerateImage prompt0 referenceImages resolution0 aspectRatio0 :: _ =>
      let '(outcome, requests) :=
        GeminiService.generateImage JSON_parse ToString apiKey prompt0
          referenceImages resolution0 aspectRatio0 remote in
      (fst (step t s1 (GenerateResolved prompt0 outcome now)), requests)
  | _ => (s1, [])
  end.

(** The same for a click on the edit trigger and [editImage]. *)
Definition edit_and_settle (now : Z) (s : State)
  : State * list GeminiService.request :=
  let '(s1, fx) := step t s ClickStartEdit in
  match fx with
  | CallEditImage prompt0 inputImageBase64 :: _ =>
      let '(outcome, requests) :=
        GeminiService.editImage JSON_parse ToString apiKey prompt0
          inputImageBase64 remote in
      (fst (step t s1 (EditResolved prompt0 (previewImage s) outcome now)),
       requests)
  | _ => (s1, [])
  end.

End Wiring.

End Studio.

(** ** The pipeline evaluator, the [WorkflowEditor] component *)

Module WorkflowEditor.

(** The data of a node.  A field is [None] when the object has no such
    property; [error], [outputImage] and [image] may also hold [null].
    The callbacks the component stores next to them ([onChange], [onRun],
    ...) carry no state and are left out. *)
Record NodeData : Type := mkNodeData {
  prompt : option jsstring;
  images : option (list jsstring);
  loading : option bool;
  resolution : option jsstring;
  aspectRatio : option jsstring;
  error : option (option jsstring);
  outputImage : option (option jsstring);
  image : option (option jsstring)
}.

Record Node : Type := mkNode {
  id : jsstring;
  type : jsstring;
  position : Z * Z;
  data : NodeData
}.

Record Edge : Type := mkEdge {
  edge_id : jsstring;
  source : jsstring;
  target : jsstring;
  sourceHandle : option jsstring;
  targetHandle : option jsstring
}.

Definition override {A} (new old : option A) : option A :=
  match new with Some _ => new | None => old end.

(** [{ ...data, ...newData }] *)
Definition spread (d newData : NodeData) : NodeData :=
  {| prompt := override (prompt newData) (prompt d);
     images := override (images newData) (images d);
     loading := override (loading newData) (loading d);
     resolution := override (resolution newData) (resolution d);
     aspectRatio := override (aspectRatio newData) (aspectRatio d);
     error := override (error newData) (error d);
     outputImage := override (outputImage newData) (outputImage d);
     image := override (image newData) (image d) |}.

Definition with_data (node : Node) (d : NodeData) : Node :=
  {| id := id node; type := type node; position := position node; data := d |}.

(** The updater [updateNodeData] hands to [setNodes]. *)
Definition updateNodeData (target_id : jsstring) (newData : NodeData)
    (nds : list Node) : list Node :=
  map (fun node =>
         if eqb (id node) target_id
         then with_data node (spread (data node) newData)
         else node) nds.

(** The initial graph of the component. *)
Definition initialNodes : list Node :=
  [ mkNode (lit "1") (lit "promptNode") (50, 150)%Z
      {| prompt := Some []; images := None; loading := None;
         resolution := None; aspectRatio := None; error := None;
         outputImage := None; image := None |};
    mkNode (lit "img-1") (lit "imageNode") (50, 400)%Z
      {| prompt := None; images := Some []; loading := None;
         resolution := None; aspectRatio := None; error := None;
         outputImage := None; image := None |};
    mkNode (lit "2") (lit "generatorNode") (400, 250)%Z
      {| prompt := None; images := None; loading := Some false;
         resolution := Some (lit "1K"); aspectRatio := Some (lit "1:1");
         error := Some None; outputImage := None; image := None |};
    mkNode (lit "3") (lit "outputNode") (750, 100)%Z
      {| prompt := None; images := None; loading := None;
         resolution := None; aspectRatio := None; error := None;
         outputImage := None; image := Some None |} ].

Definition initialEdges : list Edge :=
  [ mkEdge (lit "e1-2") (lit "1") (lit "2") None (Some (lit "prompt-in"));
    mkEdge (lit "eImg-2") (lit "img-1") (lit "2") None (Some (lit "image-in"));
    mkEdge (lit "e2-3") (lit "2") (lit "3")
      (Some (lit "gen-out-main")) (Some (lit "in")) ].

(** A call of the request client; an argument that is [undefined] takes
    the default of [generateImage]. *)
Inductive call : Type :=
| CallGenerateImage (prompt : jsstring) (referenceImages : list jsstring)
    (resolution aspectRatio : option jsstring).

(** The body of the [forEach] over the edges that enter the generator:
    [prompt] is [None] when it holds [undefined]. *)
Definition resolve_edge (currentNodes : list Node)
    (acc : option jsstring * list jsstring) (edge : Edge)
  : option jsstring * list jsstring :=
  match find (fun n => eqb (id n) (source edge)) currentNodes with
  | None => acc
  | Some sourceNode =>
      if eqb (type sourceNode) (lit "promptNode")
      then (prompt (data sourceNode), snd acc)
      else if eqb (type sourceNode) (lit "imageNode")
           then match images (data sourceNode) with
                | Some imgs => (fst acc, snd acc ++ imgs)
                | None => acc
                end
           else acc
  end.

Definition resolve_inputs (currentNodes : list Node)
    (connectedEdges : list Edge) : option jsstring * list jsstring :=
  fold_left (resolve_edge currentNodes) connectedEdges (Some [], []).

(** [!prompt] *)
Definition no_prompt (p : option jsstring) : bool :=
  match p with
  | None | Some [] => true
  | Some (_ :: _) => false
  end.

(** [runGenerator] up to the [await]: [currentNodes] and [currentEdges] are
    what the refs hold, [nds] is the state [setNodes] updates. *)
Definition runGenerator (currentNodes : list Node) (currentEdges : list Edge)
    (nds : list Node) : list Node * list call :=
  match find (fun n => eqb (type n) (lit "generatorNode")) currentNodes with
  | None => (nds, [])
  | Some generatorNode =>
      let connectedEdges :=
        filter (fun e => eqb (target e) (id generatorNode)) currentEdges in
      let '(prompt0, inputImages) := resolve_inputs currentNodes connectedEdges in
      if no_prompt prompt0 then
        (updateNodeData (id generatorNode)
           {| prompt := None; images := None; loading := None;
              resolution := None; aspectRatio := None;
              error := Some (Some (lit "No prompt provided"));
              outputImage := None; image := None |} nds,
         [])
      else
        (updateNodeData (id generatorNode)
           {| prompt := None; images := None; loading := Some true;
              resolution := None; aspectRatio := None; error := Some None;
              outputImage := None; image := None |} nds,
         [CallGenerateImage
            (match prompt0 with Some p => p | None => [] end)
            (firstn 1 inputImages)
            (resolution (data generatorNode))
            (aspectRatio (data generatorNode))])
  end.

(** The ratios the generator node offers (its [ratios] table). *)
Definition ratios : list jsstring :=
  [lit "1:1"; lit "2:3"; lit "3:4"; lit "4:3"; lit "9:16"; lit "16:9"].

(** [updateNodeData] with an object whose properties are written whatever
    they hold: [f] gives the data after the spread. *)
Definition update_with (target_id : jsstring) (f : NodeData -> NodeData)
    (nds : list Node) : list Node :=
  map (fun node =>
         if eqb (id node) target_id then with_data node (f (data node))
         else node) nds.

(** [{ ...data, image: result, resolution, aspectRatio }]: the two settings
    are written also when the generator holds none. *)
Definition set_output (result : jsstring)
    (resolution0 aspectRatio0 : option jsstring) (d : NodeData) : NodeData :=
  {| prompt := prompt d; images := images d; loading := loading d;
     resolution := resolution0; aspectRatio := aspectRatio0;
     error := error d; outputImage := outputImage d;
     image := Some (Some result) |}.

Record Graph : Type := mkGraph {
  nodes : list Node;
  edges : list Edge
}.

Definition newRefineNode : Node :=
  mkNode (lit "refine-1") (lit "refineNode") (750, 550)%Z
    {| prompt := Some []; images := None; loading := Some false;
       resolution := None; aspectRatio := None; error := Some None;
       outputImage := Some None; image := None |}.

Definition newEdge1 : Edge :=
  mkEdge (lit "e3-refine") (lit "3") (lit "refine-1")
    (Some (lit "out")) (Some (lit "image-in")).

(** The body of the [forEach] over the edges that leave the generator. *)
Definition propagate_edge (currentNodes : list Node) (result : jsstring)
    (resolution0 aspectRatio0 : option jsstring)
    (nds : list Node) (edge : Edge) : list Node :=
  match find (fun n => eqb (id n) (target edge)) currentNodes with
  | Some targetNode =>
      if eqb (type targetNode) (lit "outputNode")
      then update_with (id targetNode)
             (set_output result resolution0 aspectRatio0) nds
      else nds
  | None => nds
  end.

(** [runGenerator] after the [await], for a run that got as far as the call:
    [currentNodes] and [currentEdges] are still what the refs held when the
    run started, [g] is the state the updaters apply to. *)
Definition runGenerator_resolved (currentNodes : list Node)
    (currentEdges : list Edge) (result : completion jsstring) (g : Graph)
  : Graph :=
  match find (fun n => eqb (type n) (lit "generatorNode")) currentNodes with
  | None => g
  | Some generatorNode =>
      let finally_ nds :=
        updateNodeData (id generatorNode)
          {| prompt := None; images := None; loading := Some false;
             resolution := None; aspectRatio := None; error := None;
             outputImage := None; image := None |} nds in
      match result with
      | Return result =>
          let outputEdges :=
            filter (fun e => eqb (source e) (id generatorNode)) currentEdges in
          let nds1 :=
            fold_left
              (propagate_edge currentNodes result
                 (resolution (data generatorNode))
                 (aspectRatio (data generatorNode)))
              outputEdges (nodes g) in
          let nds2 :=
            updateNodeData (id generatorNode)
              {| prompt := None; images := None; loading := None;
                 resolution := None; aspectRatio := None; error := None;
                 outputImage := Some (Some result); image := None |} nds1 in
          let refineNodeExists :=
            existsb (fun n => eqb (id n) (lit "refine-1")) currentNodes in
          if refineNodeExists
          then mkGraph (finally_ nds2) (edges g)
          else mkGraph (finally_ (nds2 ++ [newRefineNode]))
                 (edges g ++ [newEdge1])
      | Throw message =>
          mkGraph
            (finally_
               (updateNodeData (id generatorNode)
                  {| prompt := None; images := None; loading := None;
                     resolution := None; aspectRatio := None;
                     error := Some (Some (str_or message (lit "Generation failed")));
                     outputImage := None; image := None |} (nodes g)))
            (edges g)
      end
  end.

(** A run of the generator from a state the refs are in step with, with
    nothing else happening before the call settles with [result]. *)
Definition run_generator (result : completion jsstring) (g : Graph)
  : Graph * list call :=
  let '(nds1, calls) := runGenerator (nodes g) (edges g) (nodes g) in
  match calls with
  | [] => (mkGraph nds1 (edges g), [])
  | _ =>
      (runGenerator_resolved (nodes g) (edges g) result
         (mkGraph nds1 (edges g)), calls)
  end.

(** [runRefineLogic] up to the [await]: a run that fails a check goes
    through [catch] and [finally] at once. *)
Definition runRefineLogic (currentNodes : list Node)
    (currentEdges : list Edge) (nodeId : jsstring) (nds : list Node)
  : list Node * list call :=
  let started :=
    updateNodeData nodeId
      {| prompt := None; images := None; loading := Some true;
         resolution := None; aspectRatio := None; error := Some None;
         outputImage := None; image := None |} nds in
  let finally_ nds :=
    updateNodeData nodeId
      {| prompt := None; images := None; loading := Some false;
         resolution := None; aspectRatio := None; error := None;
         outputImage := None; image := None |} nds in
  let throw message :=
    (finally_
       (updateNodeData nodeId
          {| prompt := None; images := None; loading := None;
             resolution := None; aspectRatio := None;
             error := Some (Some message);
             outputImage := None; image := None |} started), []) in
  match find (fun n => eqb (id n) nodeId) currentNodes with
  | None => (finally_ started, [])
  | Some node =>
      match prompt (data node) with
      | None | Some [] => throw (lit "Prompt required")
      | Some prompt0 =>
          match find (fun e => eqb (target e) nodeId) currentEdges with
          | None => throw (lit "No input image connected")
          | Some inputEdge =>
              match find (fun n => eqb (id n) (source inputEdge)) currentNodes with
              | None => throw (lit "Source node not found")
              | Some sourceNode =>
                  let is_output := eqb (type sourceNode) (lit "outputNode") in
                  let inputImageBase64 :=
                    if is_output then image (data sourceNode) else Some None in
                  let inheritedResolution :=
                    match is_output, resolution (data sourceNode) with
                    | true, Some ((_ :: _) as r) => r
                    | _, _ => lit "1K"
                    end in
                  let inheritedAspectRatio :=
                    match is_output, aspectRatio (data sourceNode) with
                    | true, Some ((_ :: _) as r) => r
                    | _, _ => lit "1:1"
                    end in
                  match inputImageBase64 with
                  | Some (Some ((_ :: _) as img)) =>
                      (started,
                       [CallGenerateImage prompt0 [img]
                          (Some inheritedResolution) (Some inheritedAspectRatio)])
                  | _ =>
                      throw (lit "No image data from source. Run generator first.")
                  end
              end
          end
      end
  end.

(** [runRefineLogic] after the [await]. *)
Definition runRefineLogic_resolved (nodeId : jsstring)
    (result : completion jsstring) (nds : list Node) : list Node :=
  updateNodeData nodeId
    {| prompt := None; images := None; loading := Some false;
       resolution := None; aspectRatio := None; error := None;
       outputImage := None; image := None |}
    (match result with
     | Return result =>
         updateNodeData nodeId
           {| prompt := None; images := None; loading := None;
              resolution := None; aspectRatio := None; error := None;
              outputImage := Some (Some result); image := None |} nds
     | Throw message =>
         updateNodeData nodeId
           {| prompt := None; images := None; loading := None;
              resolution := None; aspectRatio := None;
              error := Some (Some message);
              outputImage := None; image := None |} nds
     end).

End WorkflowEditor.

(** ** Vocabulary of the specification *)

Module Vocabulary.

Import Types.

(** The data-URL shape [data:<mime>;base64,<payload>]: both parts are
    non-empty and hold no line terminator. *)
Definition data_url_shape (s : jsstring) : Prop :=
  exists mime payload,
    s = lit "data:" ++ mime ++ lit ";base64," ++ payload
    /\ mime <> [] /\ payload <> []
    /\ no_line_terminator mime = true
    /\ no_line_terminator payload = true.

(** The record a legacy entry is upgraded to, the [k]-th call of
    [Date.now()] returning [now k]. *)
Fixpoint legacy_records (now : nat -> Z) (k : nat) (urls : list jsstring)
  : list GeneratedImage :=
  match urls with
  | [] => []
  | u :: rest =>
      mkGeneratedImage u (lit "Legacy Image") (now k)
      :: legacy_records now (S k) rest
  end.

(** The record a successful generate or edit adds to the history. *)
Definition success_image (e : TextGenerator.event) : option GeneratedImage :=
  match e with
  | TextGenerator.GenerateResolved prompt0 (Return u) now =>
      Some (mkGeneratedImage u prompt0 now)
  | TextGenerator.EditResolved editPrompt0 _ (Return u) now =>
      Some (mkGeneratedImage u (lit "Edit: " ++ editPrompt0) now)
  | _ => None
  end.

Fixpoint success_images (events : list TextGenerator.event)
  : option (list GeneratedImage) :=
  match events with
  | [] => Some []
  | e :: rest =>
      match success_image e, success_images rest with
      | Some g, Some gs => Some (g :: gs)
      | _, _ => None
      end
  end.

(** The completion of the initial load. *)
Definition is_load (e : TextGenerator.event) : bool :=
  match e with
  | TextGenerator.LoadResolved _ => true
  | _ => false
  end.

Definition is_save (fx : TextGenerator.effect) : bool :=
  match fx with
  | TextGenerator.CallSaveHistoryToDB _ => true
  | _ => false
  end.

(** An operation that changes what the durable store holds: a save of the
    history, or the [clear()] of the object store. *)
Definition is_store_write (fx : TextGenerator.effect) : bool :=
  match fx with
  | TextGenerator.CallSaveHistoryToDB _ | TextGenerator.ClearStore => true
  | _ => false
  end.

Definition is_generate_call (fx : TextGenerator.effect) : bool :=
  match fx with
  | TextGenerator.CallGenerateImage _ _ _ _ => true
  | _ => false
  end.

(** A part of a response that holds image data, and one that holds text. *)
Definition holds_image (p : GeminiService.rpart) : bool :=
  match GeminiService.r_inlineData p with
  | Some (_, Some (_ :: _)) => true
  | _ => false
  end.

Definition holds_text (p : GeminiService.rpart) : bool :=
  match GeminiService.r_text p with
  | Some (_ :: _) => true
  | _ => false
  end.

Definition is_edit_call (fx : TextGenerator.effect) : bool :=
  match fx with
  | TextGenerator.CallEditImage _ _ => true
  | _ => false
  end.

(** What an edge into the generator contributes: the prompt of its source
    when that is a prompt node, the images of its source when that is an
    image node. *)
Definition prompt_source (currentNodes : list WorkflowEditor.Node)
    (edge : WorkflowEditor.Edge) : list (option jsstring) :=
  match find (fun n => eqb (WorkflowEditor.id n) (WorkflowEditor.source edge))
          currentNodes with
  | Some n =>
      if eqb (WorkflowEditor.type n) (lit "promptNode")
      then [WorkflowEditor.prompt (WorkflowEditor.data n)] else []
  | None => []
  end.

Definition image_source (currentNodes : list WorkflowEditor.Node)
    (edge : WorkflowEditor.Edge) : list jsstring :=
  match find (fun n => eqb (WorkflowEditor.id n) (WorkflowEditor.source edge))
          currentNodes with
  | Some n =>
      if eqb (WorkflowEditor.type n) (lit "promptNode") then []
      else if eqb (WorkflowEditor.type n) (lit "imageNode")
           then match WorkflowEditor.images (WorkflowEditor.data n) with
                | Some imgs => imgs
                | None => []
                end
           else []
  | None => []
  end.

Definition is_refiner (n : WorkflowEditor.Node) : bool :=
  eqb (WorkflowEditor.id n) (lit "refine-1").

Definition is_generate_resolved (e : TextGenerator.event) : bool :=
  match e with
  | TextGenerator.GenerateResolved _ _ _ => true
  | _ => false
  end.

(** The number of [generateImage] calls of the main flow that have not
    resolved yet, along a run that starts with [pending] of them: a call
    adds one, its resolution takes one away, and a resolution with no call
    pending cannot happen ([None]). *)
Fixpoint in_flight (t : string -> jsstring) (s : TextGenerator.State)
    (pending : nat) (events : list TextGenerator.event)
  : option (TextGenerator.State * nat) :=
  match events with
  | [] => Some (s, pending)
  | e :: rest =>
      if is_generate_resolved e && Nat.eqb pending 0 then None
      else
        let calls :=
          List.length
            (filter is_generate_call (snd (TextGenerator.step t s e))) in
        in_flight t (fst (TextGenerator.step t s e))
          (pending + calls - (if is_generate_resolved e then 1 else 0)) rest
  end.

End Vocabulary.

(** ** Sample data for the scenarios *)

Module Samples.

Import Types TextGenerator.

(** [t] on a key the tables do not hold returns the key. *)
Definition t_key (key : string) : jsstring := lit key.

Definition fox : GeneratedImage :=
  mkGeneratedImage (lit "data:image/png;base64,Rk9Y") (lit "a red fox")
    1700000000000.

(** A record created within the same millisecond as [fox]. *)
Definition twin : GeneratedImage :=
  mkGeneratedImage (lit "data:image/png;base64,VFdJTg==") (lit "a blue fox")
    1700000000000.

Definition owl : GeneratedImage :=
  mkGeneratedImage (lit "data:image/png;base64,T1dM") (lit "an owl")
    1700000000500.

Definition reference : file :=
  mkFile 2048 (Return (mkUploadedImage (lit "data:image/jpeg;base64,UkVG")
                         (lit "2 KB"))).

(** The [k]-th success of a session that alternates generate and edit. *)
Definition success (k : nat) : event :=
  if Nat.even k
  then GenerateResolved (lit "a red fox")
         (Return (lit "data:image/png;base64,Rk9Y")) (Z.of_nat k)
  else EditResolved (lit "make it blue") None
         (Return (lit "data:image/png;base64,QkxVRQ==")) (Z.of_nat k).

(** A history that holds [fox], [twin] and [owl], with the delete dialog
    open on [fox]. *)
Definition deleting_fox : State :=
  initial |> setHistory [owl; twin; fox] |> setIsHistoryLoaded true
          |> setImageToDelete (Some fox) |> setShowDeleteDialog true.

(** An edit in flight in an open side bar. *)
Definition editing_owl : State :=
  initial |> setEditingImage (Some owl) |> setEditPrompt (lit "make it blue")
          |> setIsEditSidebarOpen true |> setIsEditing true.

(** A generate call in flight. *)
Definition generating : State :=
  initial |> setPrompt (lit "a red fox") |> setLoading true.

(** Two reference images staged, a prompt typed. *)
Definition staged_two : State :=
  initial |> setPrompt (lit "a red fox")
          |> setUploadedImages
               [mkUploadedImage (lit "data:image/jpeg;base64,UkVG") (lit "2 KB");
                mkUploadedImage (lit "plain text") (lit "1 KB")].

(** A file over the limit of 10 MB. *)
Definition oversized : file :=
  mkFile 10485761
    (Return (mkUploadedImage (lit "data:image/jpeg;base64,QklH") (lit "10 MB"))).

(** The preview open on [owl] under the open side bar. *)
Definition previewing_owl : State :=
  editing_owl |> setIsEditing false |> setPreviewImage (Some owl).

(** A remote service that answers every request with one image. *)
Definition remote_fox (_ : GeminiService.request)
  : completion GeminiService.response :=
  Return (Some [GeminiService.mkRpart
                  (Some (Some (lit "image/png"), Some (lit "Rk9Y"))) None]).

(** The initial pipeline with a prompt typed into the prompt node, and the
    same after a run of the generator that succeeded. *)
Definition typed (prompt0 : jsstring) : WorkflowEditor.NodeData :=
  WorkflowEditor.mkNodeData (Some prompt0) None None None None None None None.

Definition pipeline : WorkflowEditor.Graph :=
  WorkflowEditor.mkGraph
    (WorkflowEditor.updateNodeData (lit "1") (typed (lit "a red fox"))
       WorkflowEditor.initialNodes)
    WorkflowEditor.initialEdges.

Definition pipeline_run : WorkflowEditor.Graph :=
  fst (WorkflowEditor.run_generator
         (Return (lit "data:image/png;base64,Rk9Y")) pipeline).

(** The refiner of [pipeline_run] with a prompt typed into it. *)
Definition pipeline_refining : WorkflowEditor.Graph :=
  WorkflowEditor.mkGraph
    (WorkflowEditor.updateNodeData (lit "refine-1") (typed (lit "make it blue"))
       (WorkflowEditor.nodes pipeline_run))
    (WorkflowEditor.edges pipeline_run).

(** A refiner with a prompt, wired to an output node that holds no image. *)
Definition pipeline_early : WorkflowEditor.Graph :=
  WorkflowEditor.mkGraph
    (WorkflowEditor.updateNodeData (lit "refine-1") (typed (lit "make it blue"))
       (WorkflowEditor.initialNodes ++ [WorkflowEditor.newRefineNode]))
    (WorkflowEditor.initialEdges ++ [WorkflowEditor.newEdge1]).

(** A second prompt node wired into the generator after the first. *)
Definition second_prompt : WorkflowEditor.Node :=
  WorkflowEditor.mkNode (lit "p2") (lit "promptNode") (50, 0)%Z
    (typed (lit "an owl")).

End Samples.

(** * Properties *)

(** ** Strings and the data-URL pattern *)

Section StringFacts.

Lemma eqb_eq (a b : jsstring) : eqb a b = true <-> a = b.
Proof.
  revert b; induction a as [|x a IH]; intros [|y b]; simpl;
    try (split; [discriminate | congruence]); try tauto.
  rewrite andb_true_iff, N.eqb_eq, IH.
  split; [intros [-> ->]; reflexivity | intros H; inversion H; auto].
Qed.

Lemma eqb_refl (a : jsstring) : eqb a a = true.
Proof. apply eqb_eq; reflexivity. Qed.

Lemma existsb_eqb_In (a : jsstring) (l : list jsstring) :
  existsb (eqb a) l = true <-> In a l.
Proof.
  rewrite existsb_exists; split.
  - intros (x & Hin & Heq). apply eqb_eq in Heq. subst; assumption.
  - intros Hin. exists a. split; [assumption | apply eqb_refl].
Qed.

Lemma strip_prefix_spec (p s r : jsstring) :
  strip_prefix p s = Some r <-> s = p ++ r.
Proof.
  revert s; induction p as [|x p IH]; intros s; simpl.
  - split; congruence.
  - destruct s as [|y s]; [split; discriminate|].
    destruct (N.eqb_spec x y) as [->|Hne].
    + rewrite IH. split; congruence.
    + split; [discriminate | intros H; inversion H; congruence].
Qed.

Lemma strip_prefix_app (p r : jsstring) : strip_prefix p (p ++ r) = Some r.
Proof. apply strip_prefix_spec; reflexivity. Qed.

End StringFacts.

Section DataUrl.

Import GeminiService Vocabulary.

Lemma match_tail_spec (m s m' d : jsstring) :
  match_tail m s = Some (m', d) <->
  m' = m /\ s = lit ";base64," ++ d /\ d <> [] /\ no_line_terminator d = true.
Proof.
  unfold match_tail.
  destruct (strip_prefix (lit ";base64,") s) as [r|] eqn:Hs.
  - apply strip_prefix_spec in Hs. subst s.
    destruct r as [|c r].
    + split; [discriminate|]. intros (_ & H & Hd & _).
      apply app_inv_head in H. congruence.
    + destruct (no_line_terminator (c :: r)) eqn:Hlt.
      * split.
        -- intros H; inversion H; subst. repeat split; congruence.
        -- intros (-> & H & _ & _). apply app_inv_head in H. congruence.
      * split; [discriminate|]. intros (_ & H & _ & Hd).
        apply app_inv_head in H. congruence.
  - split; [discriminate|]. intros (_ & H & _).
    rewrite H, strip_prefix_app in Hs. discriminate.
Qed.

Lemma match_group1_sound (s acc m d : jsstring) :
  match_group1 acc s = Some (m, d) ->
  exists g, g <> [] /\ m = acc ++ g /\ s = g ++ lit ";base64," ++ d
            /\ no_line_terminator g = true /\ d <> [] /\ no_line_terminator d = true.
Proof.
  revert acc; induction s as [|c s IH]; intros acc; simpl; [discriminate|].
  destruct (is_line_terminator c) eqn:Hc; [discriminate|].
  destruct (match_group1 (acc ++ [c]) s) as [[m1 d1]|] eqn:Hrec.
  - intros H; inversion H; subst m1 d1.
    destruct (IH _ Hrec) as (g & Hg & Hm & Hs & Hlt & Hd & Hld).
    exists (c :: g). rewrite <- app_assoc in Hm. simpl in Hm.
    repeat split; try assumption; try discriminate.
    + rewrite Hs; reflexivity.
    + unfold no_line_terminator in *. simpl. rewrite Hc, Hlt. reflexivity.
  - intros H. apply match_tail_spec in H. destruct H as (-> & Hs & Hd & Hld).
    exists [c]. repeat split; try assumption; try discriminate.
    + rewrite Hs; reflexivity.
    + unfold no_line_terminator. simpl. rewrite Hc. reflexivity.
Qed.

Lemma match_group1_complete (g acc d : jsstring) :
  g <> [] -> no_line_terminator g = true -> d <> [] -> no_line_terminator d = true ->
  match_group1 acc (g ++ lit ";base64," ++ d) <> None.
Proof.
  revert acc; induction g as [|c g IH]; intros acc Hg Hlt Hd Hld;
    [congruence|].
  unfold no_line_terminator in Hlt. simpl in Hlt.
  apply andb_true_iff in Hlt. destruct Hlt as [Hc Hlt].
  apply negb_true_iff in Hc.
  change ((c :: g) ++ lit ";base64," ++ d)
    with (c :: (g ++ lit ";base64," ++ d)).
  cbn [match_group1]. rewrite Hc.
  destruct (match_group1 (acc ++ [c]) (g ++ lit ";base64," ++ d)) eqn:Hrec;
    [discriminate|].
  destruct g as [|c' g].
  - intros H.
    assert (Ht : match_tail (acc ++ [c]) (lit ";base64," ++ d)
                 = Some (acc ++ [c], d))
      by (apply match_tail_spec; auto).
    change (@nil N ++ lit ";base64," ++ d) with (lit ";base64," ++ d) in H.
    congruence.
  - exfalso. revert Hrec. apply IH; auto; discriminate.
Qed.

(** The matcher of the source accepts exactly the strings of the data-URL
    shape. *)
Lemma match_data_url_shape (s : jsstring) :
  match_data_url s <> None <-> data_url_shape s.
Proof.
  unfold match_data_url, data_url_shape. split.
  - destruct (strip_prefix (lit "data:") s) as [rest|] eqn:Hs;
      [|congruence].
    apply strip_prefix_spec in Hs.
    destruct (match_group1 [] rest) as [[m d]|] eqn:Hm; [|congruence].
    intros _. apply match_group1_sound in Hm.
    destruct Hm as (g & Hg & -> & Hr & Hlt & Hd & Hld).
    exists g, d. subst. repeat split; auto.
  - intros (m & d & -> & Hm & Hd & Hlm & Hld).
    rewrite strip_prefix_app. apply match_group1_complete; auto.
Qed.

End DataUrl.

(** ** The request client *)

Section RequestClient.

Import GeminiService Vocabulary.

Variable JSON_parse : jsstring -> option value.
Variable ToString : value -> jsstring.

Lemma finalAspectRatio_valid (a : jsstring) :
  In a validRatios -> finalAspectRatio a = a.
Proof.
  intros H. apply existsb_eqb_In in H. unfold finalAspectRatio.
  rewrite H. reflexivity.
Qed.

Lemma finalAspectRatio_invalid (a : jsstring) :
  ~ In a validRatios -> finalAspectRatio a = lit "1:1".
Proof.
  intros H. unfold finalAspectRatio.
  destruct (existsb (eqb a) validRatios) eqn:E; [|reflexivity].
  apply existsb_eqb_In in E. contradiction.
Qed.

(** With a key in the environment a call dispatches exactly one request,
    whatever its arguments. *)
Lemma generateImage_dispatches_one apiKey c prompt refs resolution aspectRatio remote :
  snd (generateImage JSON_parse ToString (Some (c :: apiKey)) prompt refs
         resolution aspectRatio remote)
  = [mkRequest (lit "gemini-3-pro-image-preview")
       (TextPart prompt :: image_parts (firstn 2 refs))
       (Some (mkImageConfig resolution (finalAspectRatio aspectRatio)))].
Proof. reflexivity. Qed.

(** C5.  Every request [generateImage] dispatches carries the requested
    aspect ratio when that is one of 1:1, 3:4, 4:3, 9:16, 16:9, 21:9, and
    1:1 otherwise. *)
Theorem generateImage_clamps_aspect_ratio :
  forall apiKey prompt referenceImages resolution aspectRatio remote r,
    In r (snd (generateImage JSON_parse ToString apiKey prompt
                 referenceImages resolution aspectRatio remote)) ->
    exists cfg,
      config r = Some cfg
      /\ (In aspectRatio
             [lit "1:1"; lit "3:4"; lit "4:3"; lit "9:16"; lit "16:9";
              lit "21:9"] ->
          cfg_aspectRatio cfg = aspectRatio)
      /\ (~ In aspectRatio
               [lit "1:1"; lit "3:4"; lit "4:3"; lit "9:16"; lit "16:9";
                lit "21:9"] ->
          cfg_aspectRatio cfg = lit "1:1").
Proof.
  intros apiKey prompt refs resolution aspectRatio remote r.
  unfold generateImage, generateImage_request, run_call.
  destruct (getClient apiKey) as [k|m]; [|intros H; contradiction H].
  cbn [snd]. intros [<-|H]; [|contradiction H].
  eexists; split; [reflexivity|]. cbn [config cfg_aspectRatio].
  split; intros H.
  - apply finalAspectRatio_valid. exact H.
  - apply finalAspectRatio_invalid. exact H.
Qed.

Lemma catch_message_plain (m : jsstring) :
  m <> [] -> includes_char 123 m = false -> includes_char 91 m = false ->
  catch_message JSON_parse ToString m = m.
Proof.
  intros Hm H1 H2. unfold catch_message.
  destruct m as [|c m]; [congruence|]. simpl str_or. rewrite H1, H2.
  reflexivity.
Qed.

(** C9, as amended.  When the source image is not a data URL, [editImage]
    dispatches no request; it throws "Invalid image data format" when the
    environment holds an API key, and the error of the missing key when it
    does not. *)
Theorem editImage_rejects_bad_image :
  forall apiKey prompt inputImageBase64 remote,
    ~ data_url_shape inputImageBase64 ->
    let result := editImage JSON_parse ToString apiKey prompt
                    inputImageBase64 remote in
    snd result = []
    /\ (forall c k, apiKey = Some (c :: k) ->
        fst result = Throw (lit "Invalid image data format"))
    /\ (apiKey = None \/ apiKey = Some [] ->
        fst result = Throw (lit "API Key not found in environment variables")).
Proof.
  intros apiKey prompt img remote Hshape.
  assert (Hm : match_data_url img = None).
  { destruct (match_data_url img) eqn:E; [|reflexivity].
    exfalso. apply Hshape, match_data_url_shape. congruence. }
  unfold editImage, editImage_request. cbv zeta.
  split; [|split].
  - destruct apiKey as [[|c k]|]; simpl; rewrite ?Hm; reflexivity.
  - intros c k ->. simpl. rewrite Hm. simpl.
    rewrite catch_message_plain; [reflexivity|discriminate|reflexivity..].
  - intros [-> | ->]; simpl;
      (rewrite catch_message_plain; [reflexivity|discriminate|reflexivity..]).
Qed.

End RequestClient.

Lemma not_data_url_plain : ~ Vocabulary.data_url_shape (lit "plain text").
Proof.
  intros H. apply match_data_url_shape in H.
  apply H. vm_compute. reflexivity.
Qed.

(** The clamp at the two ratios the specification names: the request of a
    call with 4:5 carries 1:1, the request of a call with 16:9 carries
    16:9. *)
Lemma generateImage_clamps_aspect_ratio_witness :
  (exists cfg,
      GeminiService.config
        (GeminiService.mkRequest (lit "gemini-3-pro-image-preview")
           [GeminiService.TextPart (lit "a red fox")]
           (Some (GeminiService.mkImageConfig (lit "1K") (lit "1:1"))))
      = Some cfg
      /\ GeminiService.cfg_aspectRatio cfg = lit "1:1")
  /\ (exists cfg,
        GeminiService.config
          (GeminiService.mkRequest (lit "gemini-3-pro-image-preview")
             [GeminiService.TextPart (lit "a red fox")]
             (Some (GeminiService.mkImageConfig (lit "1K") (lit "16:9"))))
        = Some cfg
        /\ GeminiService.cfg_aspectRatio cfg = lit "16:9").
Proof.
  split.
  - destruct (generateImage_clamps_aspect_ratio (fun _ => None) (fun _ => [])
                (Some (lit "key")) (lit "a red fox") [] (lit "1K") (lit "4:5")
                (fun _ => Throw []) _ (or_introl eq_refl))
      as (cfg & Hcfg & _ & Hout).
    exists cfg. split; [exact Hcfg|]. apply Hout.
    intros Hin. vm_compute in Hin.
    repeat (destruct Hin as [Hin|Hin]; [discriminate Hin|]). exact Hin.
  - destruct (generateImage_clamps_aspect_ratio (fun _ => None) (fun _ => [])
                (Some (lit "key")) (lit "a red fox") [] (lit "1K") (lit "16:9")
                (fun _ => Throw []) _ (or_introl eq_refl))
      as (cfg & Hcfg & Hin & _).
    exists cfg. split; [exact Hcfg|]. apply Hin.
    do 4 right. left. reflexivity.
Defined.

Example generateImage_four_five :
  snd (GeminiService.generateImage (fun _ => None) (fun _ => [])
         (Some (lit "key")) (lit "a red fox") [] (lit "1K") (lit "4:5")
         (fun _ => Throw []))
  = [GeminiService.mkRequest (lit "gemini-3-pro-image-preview")
       [GeminiService.TextPart (lit "a red fox")]
       (Some (GeminiService.mkImageConfig (lit "1K") (lit "1:1")))].
Proof. reflexivity. Qed.

Example generateImage_sixteen_nine :
  snd (GeminiService.generateImage (fun _ => None) (fun _ => [])
         (Some (lit "key")) (lit "a red fox") [] (lit "1K") (lit "16:9")
         (fun _ => Throw []))
  = [GeminiService.mkRequest (lit "gemini-3-pro-image-preview")
       [GeminiService.TextPart (lit "a red fox")]
       (Some (GeminiService.mkImageConfig (lit "1K") (lit "16:9")))].
Proof. reflexivity. Qed.

(** C9 as first stated fails: without an API key the error [editImage]
    throws for an image that is not a data URL is the error of the key. *)
Lemma editImage_bad_image_without_key :
  ~ (forall JSON_parse ToString apiKey prompt inputImageBase64 remote,
       ~ Vocabulary.data_url_shape inputImageBase64 ->
       GeminiService.editImage JSON_parse ToString apiKey prompt
         inputImageBase64 remote
       = (Throw (lit "Invalid image data format"), [])).
Proof.
  intros H.
  specialize (H (fun _ => None) (fun _ => []) None (lit "make it blue")
                (lit "plain text") (fun _ => Throw []) not_data_url_plain).
  vm_compute in H. discriminate H.
Qed.

Lemma editImage_rejects_bad_image_witness :
  let result := GeminiService.editImage (fun _ => None) (fun _ => [])
                  (Some (lit "key")) (lit "make it blue") (lit "plain text")
                  (fun _ => Throw []) in
  snd result = []
  /\ (forall c k, Some (lit "key") = Some (c :: k) ->
      fst result = Throw (lit "Invalid image data format"))
  /\ (Some (lit "key") = None \/ Some (lit "key") = Some [] ->
      fst result = Throw (lit "API Key not found in environment variables")).
Proof.
  apply (editImage_rejects_bad_image (fun _ => None) (fun _ => [])
           (Some (lit "key")) (lit "make it blue") (lit "plain text")
           (fun _ => Throw [])).
  exact not_data_url_plain.
Defined.

(** ** The durable history store *)

Section HistoryStoreFacts.

Import Types HistoryStore Vocabulary.

Lemma migrate_from_strings (now : nat -> Z) (k : nat) (urls : list jsstring) :
  migrate_from now k (map Str urls) = map encode (legacy_records now k urls).
Proof.
  revert k; induction urls as [|u urls IH]; intros k; simpl;
    [reflexivity|]. rewrite IH. reflexivity.
Qed.

Lemma legacy_records_length now k urls :
  List.length (legacy_records now k urls) = List.length urls.
Proof. revert k; induction urls; intros k; simpl; auto. Qed.

Lemma legacy_records_url now k urls :
  map url (legacy_records now k urls) = urls.
Proof.
  revert k; induction urls as [|u urls IH]; intros k; simpl;
    [reflexivity|]. rewrite IH. reflexivity.
Qed.

Lemma legacy_records_prompt now k urls :
  Forall (fun g => prompt g = lit "Legacy Image") (legacy_records now k urls).
Proof.
  revert k; induction urls as [|u urls IH]; intros k; simpl;
    constructor; auto.
Qed.

Lemma onsuccess_structured now fields rest :
  onsuccess now (Arr (Obj fields :: rest)) = Arr (Obj fields :: rest).
Proof. reflexivity. Qed.

Lemma onsuccess_idempotent now now' stored :
  onsuccess now' (onsuccess now stored) = onsuccess now stored.
Proof.
  unfold onsuccess.
  destruct (truthy stored) eqn:Ht; [|reflexivity].
  destruct stored as [| |b|z|s|items|fields]; simpl in Ht;
    try discriminate; try (simpl; rewrite Ht; reflexivity);
    try reflexivity.
  destruct items as [|first rest]; [reflexivity|].
  destruct first; reflexivity.
Qed.

(** What the component saved is read back as it was saved. *)
Lemma saved_history_loads_unchanged now items :
  onsuccess now (encode_history items) = encode_history items.
Proof. destruct items; reflexivity. Qed.

(** C4.  The migration of [getHistoryFromDB] turns a stored list of [k]
    bare strings into [k] records with prompt "Legacy Image" and the
    strings as urls; it returns a list whose first element is a record
    unchanged; applied twice it gives what it gives applied once. *)
Theorem history_migration :
  (forall now urls, exists records,
      onsuccess now (Arr (map Str urls)) = encode_history records
      /\ List.length records = List.length urls
      /\ map url records = urls
      /\ Forall (fun g => prompt g = lit "Legacy Image") records)
  /\ (forall now fields rest,
         onsuccess now (Arr (Obj fields :: rest)) = Arr (Obj fields :: rest))
  /\ (forall now now' stored,
         onsuccess now' (onsuccess now stored) = onsuccess now stored).
Proof.
  split; [|split].
  - intros now urls. exists (legacy_records now 0 urls).
    split; [|split; [|split]].
    + destruct urls as [|u urls]; [reflexivity|].
      unfold onsuccess, encode_history.
      change (map Str (u :: urls)) with (Str u :: map Str urls).
      cbn [truthy]. rewrite <- migrate_from_strings. reflexivity.
    + apply legacy_records_length.
    + apply legacy_records_url.
    + apply legacy_records_prompt.
  - apply onsuccess_structured.
  - apply onsuccess_idempotent.
Qed.

Example migrate_two_legacy_strings :
  getHistoryFromDB (fun k => 1700000000000 + Z.of_nat k)%Z
    (RequestSuccess (Arr [Str (lit "data:a"); Str (lit "data:b")]))
  = Return
      (encode_history
         [mkGeneratedImage (lit "data:a") (lit "Legacy Image") 1700000000000;
          mkGeneratedImage (lit "data:b") (lit "Legacy Image") 1700000000001]).
Proof. reflexivity. Qed.

End HistoryStoreFacts.

(** ** The studio controller *)

Section ControllerFacts.

Import Types Vocabulary TextGenerator.

Variable t : string -> jsstring.

(** The render after a handler changes nothing of the state but, when
    [loading] went back to [false], the warning toast. *)
Lemma commit_state (old new : State) :
  fst (commit old new) = new
  \/ fst (commit old new) = setShowWarningToast false new.
Proof.
  unfold commit, loading_cleanup, loading_effect.
  destruct (Bool.eqb (loading old) (loading new)); [left; reflexivity|].
  destruct (loading new); [left | right]; reflexivity.
Qed.

Lemma commit_same (s : State) : commit s s = (s, []).
Proof.
  unfold commit, loading_cleanup, loading_effect, save_effect.
  rewrite !Bool.eqb_reflx, Nat.eqb_refl. reflexivity.
Qed.

Lemma step_handle (s : State) (e : event) :
  fst (step t s e) = fst (commit s (fst (handle t e s)))
  /\ snd (step t s e)
     = snd (handle t e s) ++ snd (commit s (fst (handle t e s))).
Proof.
  unfold step. destruct (handle t e s) as [s1 fx1]. cbn [fst snd].
  destruct (commit s s1) as [s2 fx2]. split; reflexivity.
Qed.

Lemma step_noop (s : State) (e : event) :
  handle t e s = (s, []) -> step t s e = (s, []).
Proof. intros H. unfold step. rewrite H, commit_same. reflexivity. Qed.

Lemma step_history (s : State) (e : event) :
  history (fst (step t s e)) = history (fst (handle t e s)).
Proof.
  rewrite (proj1 (step_handle s e)).
  destruct (commit_state s (fst (handle t e s))) as [-> | ->]; reflexivity.
Qed.

Lemma step_history_ref (s : State) (e : event) :
  history_ref (fst (step t s e)) = history_ref (fst (handle t e s)).
Proof.
  rewrite (proj1 (step_handle s e)).
  destruct (commit_state s (fst (handle t e s))) as [-> | ->]; reflexivity.
Qed.

Lemma step_isHistoryLoaded (s : State) (e : event) :
  isHistoryLoaded (fst (step t s e)) = isHistoryLoaded (fst (handle t e s)).
Proof.
  rewrite (proj1 (step_handle s e)).
  destruct (commit_state s (fst (handle t e s))) as [-> | ->]; reflexivity.
Qed.

Lemma step_uploadedImages (s : State) (e : event) :
  uploadedImages (fst (step t s e)) = uploadedImages (fst (handle t e s)).
Proof.
  rewrite (proj1 (step_handle s e)).
  destruct (commit_state s (fst (handle t e s))) as [-> | ->]; reflexivity.
Qed.

Lemma step_isEditSidebarOpen (s : State) (e : event) :
  isEditSidebarOpen (fst (step t s e))
  = isEditSidebarOpen (fst (handle t e s)).
Proof.
  rewrite (proj1 (step_handle s e)).
  destruct (commit_state s (fst (handle t e s))) as [-> | ->]; reflexivity.
Qed.

(** *** The edit session *)

(** C6.  A close request while [isEditing] leaves the side bar as it is
    and shows the warning toast; a close request while not editing closes
    the side bar. *)
Theorem attemptCloseSidebar_guard :
  forall s : State,
    (isEditing s = true ->
       isEditSidebarOpen (fst (attemptCloseSidebar t s)) = isEditSidebarOpen s
       /\ showWarningToast (fst (attemptCloseSidebar t s)) = true
       /\ warningMsg (fst (attemptCloseSidebar t s)) = t "waitEditCompletion")
    /\ (isEditing s = false ->
          isEditSidebarOpen (fst (attemptCloseSidebar t s)) = false).
Proof.
  intros s. unfold attemptCloseSidebar. split; intros ->; simpl; auto.
Qed.

(** [handleFileChange] touches the staging list, the error and its toast,
    and nothing else; the only effects it has are timers. *)
Lemma process_files_frame (files : list file) (s : State) :
  let '(s', fx, _) := process_files t files s in
  history s' = history s /\ history_ref s' = history_ref s
  /\ isHistoryLoaded s' = isHistoryLoaded s /\ loading s' = loading s
  /\ isEditSidebarOpen s' = isEditSidebarOpen s
  /\ uploadedImages s' = uploadedImages s
  /\ Forall (fun f => exists cb ms, f = SetTimeout cb ms) fx.
Proof.
  revert s; induction files as [|f files IH]; intros s; simpl.
  - repeat split; constructor.
  - destruct (_ <? file_size f)%N.
    + match goal with |- context [process_files t files ?s1] =>
        specialize (IH s1); destruct (process_files t files s1) as [[s' fx] res]
      end.
      simpl in IH. destruct IH as (H1 & H2 & H3 & H4 & H5 & H6 & H7).
      repeat split; auto. constructor; eauto.
    + destruct (compressed f).
      * specialize (IH s).
        destruct (process_files t files s) as [[s' fx] res]. exact IH.
      * match goal with |- context [process_files t files ?s1] =>
          specialize (IH s1);
          destruct (process_files t files s1) as [[s' fx] res]
        end.
        simpl in IH. destruct IH as (H1 & H2 & H3 & H4 & H5 & H6 & H7).
        repeat split; auto. constructor; eauto.
Qed.

Lemma handleFileChange_frame (files : list file) (s : State) :
  let s' := fst (handleFileChange t files s) in
  history s' = history s /\ history_ref s' = history_ref s
  /\ isHistoryLoaded s' = isHistoryLoaded s /\ loading s' = loading s
  /\ isEditSidebarOpen s' = isEditSidebarOpen s
  /\ Forall (fun f => exists cb ms, f = SetTimeout cb ms)
       (snd (handleFileChange t files s)).
Proof.
  unfold handleFileChange.
  destruct (2 <=? List.length (uploadedImages s))%nat;
    [simpl; repeat split; constructor|].
  destruct files as [|f files]; [simpl; repeat split; constructor|].
  pose proof (process_files_frame
                (firstn (2 - List.length (uploadedImages s)) (f :: files)) s)
    as H.
  destruct (process_files t
              (firstn (2 - List.length (uploadedImages s)) (f :: files)) s)
    as [[s' fx] res].
  destruct H as (H1 & H2 & H3 & H4 & H5 & H6 & H7).
  destruct res; simpl; repeat split; auto.
Qed.

(** Case analysis over the events: the file handler goes through its
    frame lemma, the other handlers are unfolded and run. *)
Ltac unfold_handlers :=
  unfold handleCtrlEnter, handleEscape, attemptCloseSidebar, executeEdit,
    handleGenerate, handleGenerate_resolved, executeEdit_resolved,
    load_resolved, handleEdit, handlePreview, handleDownload,
    handleRemoveImage, handleClearClick, confirmClearHistory,
    handleDeleteClick, confirmDelete, timer_fired, generate_disabled,
    edit_disabled, shown in *.

Ltac break_matches :=
  repeat match goal with
    | |- context [match ?x with _ => _ end] =>
        lazymatch x with
        | context [match _ with _ => _ end] => fail
        | _ => destruct x eqn:?; cbn in *
        end
    | |- context [if ?x then _ else _] =>
        lazymatch x with
        | context [match _ with _ => _ end] => fail
        | _ => destruct x eqn:?; cbn in *
        end
    end.

Ltac by_events e s :=
  destruct e;
  [ .. | idtac ];
  try match goal with
    | |- context [handle _ (FileChange ?files) _] =>
        let H := fresh "Hframe" in
        pose proof (handleFileChange_frame files s) as H;
        cbn [handle] in *; cbv zeta in H;
        destruct H as (? & ? & ? & ? & ? & ?)
    end;
  cbn [handle] in *; unfold_handlers.

Lemma handle_history_bounded (e : event) (s : State) :
  (List.length (history s) <= 10)%nat ->
  (List.length (history (fst (handle t e s))) <= 10)%nat.
Proof.
  intros Hs. by_events e s; try congruence; break_matches;
    try assumption; try (cbn; lia);
    try (rewrite length_firstn; lia);
    try (etransitivity; [apply filter_length_le | assumption]);
    try (match goal with H : history _ = _ |- _ => rewrite H end; cbn; lia).
Qed.

Lemma timers_are_not (fx : list effect) (x : effect) :
  Forall (fun f => exists cb ms, f = SetTimeout cb ms) fx ->
  In x fx -> exists cb ms, x = SetTimeout cb ms.
Proof. intros H Hin. rewrite Forall_forall in H. auto. Qed.

(** *** Single deletion *)

(** C10.  A confirmed deletion keeps exactly the entries whose time stamp
    differs from the target's, in their order: every entry with the
    target's time stamp goes, every other entry stays. *)
Theorem confirmDelete_by_timestamp :
  forall (s : State) (target : GeneratedImage),
    showDeleteDialog s = true ->
    imageToDelete s = Some target ->
    let remaining := history (fst (step t s ConfirmDelete)) in
    remaining
    = filter (fun item => negb (Z.eqb (timestamp item) (timestamp target)))
        (history s)
    /\ (forall item, In item remaining <->
                     In item (history s)
                     /\ timestamp item <> timestamp target).
Proof.
  intros s target Hd Ht remaining.
  assert (E : remaining
              = filter (fun item =>
                          negb (Z.eqb (timestamp item) (timestamp target)))
                  (history s)).
  { unfold remaining. rewrite step_history. cbn [handle].
    rewrite Hd. unfold confirmDelete. rewrite Ht. reflexivity. }
  split; [exact E|].
  intros item. rewrite E, filter_In, negb_true_iff, Z.eqb_neq. tauto.
Qed.

(** *** The staging list *)

(** C2, as amended.  A successful generate leaves the staging list as it
    was, and so does the start of the call; it is a successful edit that
    empties it. *)
Theorem generate_success_keeps_staging :
  forall (s : State) (prompt0 u : jsstring) (now : Z)
         (previewImage0 : option GeneratedImage),
    uploadedImages (fst (step t s (GenerateResolved prompt0 (Return u) now)))
    = uploadedImages s
    /\ uploadedImages (fst (step t s ClickGenerate)) = uploadedImages s
    /\ uploadedImages
         (fst (step t s (EditResolved prompt0 previewImage0 (Return u) now)))
       = [].
Proof.
  intros s prompt0 u now previewImage0.
  rewrite !step_uploadedImages. cbn [handle].
  split; [reflexivity|split].
  - unfold handleGenerate. destruct (generate_disabled s); [reflexivity|].
    destruct (negb (trim_truthy (prompt s))); reflexivity.
  - unfold executeEdit_resolved. destruct previewImage0; reflexivity.
Qed.

(** *** Single flight of generate *)

Lemma handle_no_generate_while_loading (e : event) (s : State) :
  loading s = true ->
  forall fx, In fx (snd (handle t e s)) -> is_generate_call fx = false.
Proof.
  intros Hl fx. by_events e s; rewrite ?Hl, ?orb_true_r, ?andb_false_r;
    cbn [negb andb orb snd fst];
    try (intros Hin;
         match goal with
         | H : Forall _ _ |- _ =>
             destruct (timers_are_not _ _ H Hin) as (? & ? & ->)
         end; reflexivity);
    break_matches; cbn; intuition (subst; reflexivity).
Qed.

Lemma commit_no_generate (old new : State) :
  forall fx, In fx (snd (commit old new)) -> is_generate_call fx = false.
Proof.
  intros fx. unfold commit, loading_cleanup, loading_effect, save_effect.
  break_matches; cbn; intuition (subst; reflexivity).
Qed.

(** C1.  While [loading] is set, the generate trigger and Ctrl+Enter of the
    main flow change nothing and dispatch nothing, and no event of the
    component makes a call of [generateImage]. *)
Theorem generate_single_flight :
  forall s : State,
    loading s = true ->
    step t s ClickGenerate = (s, [])
    /\ (isEditSidebarOpen s = false -> step t s KeyCtrlEnter = (s, []))
    /\ (forall e fx, In fx (snd (step t s e)) -> is_generate_call fx = false).
Proof.
  intros s Hl. split; [|split].
  - apply step_noop. cbn [handle]. unfold generate_disabled.
    rewrite Hl, orb_true_r. reflexivity.
  - intros Ho. apply step_noop. cbn [handle]. unfold handleCtrlEnter.
    rewrite Ho, Hl, andb_false_r. reflexivity.
  - intros e fx. rewrite (proj2 (step_handle s e)), in_app_iff.
    intros [H|H];
      [ eapply handle_no_generate_while_loading | eapply commit_no_generate ];
      eassumption.
Qed.

(** A turn either leaves [loading] alone and calls [generateImage] not at
    all, or it is the start of a call (from [loading = false]) or the
    resolution of one. *)
Lemma handle_loading (e : event) (s : State) :
  let calls := List.length (filter is_generate_call (snd (handle t e s))) in
  if is_generate_resolved e
  then loading (fst (handle t e s)) = false /\ calls = 0%nat
  else (loading (fst (handle t e s)) = loading s /\ calls = 0%nat)
       \/ (loading s = false /\ loading (fst (handle t e s)) = true
           /\ calls = 1%nat).
Proof.
  by_events e s; cbn [is_generate_resolved];
    try (left; split; [congruence|];
         match goal with
         | H : Forall _ ?fx |- _ =>
             induction H as [|? ? (? & ? & ->) ? ?]; [reflexivity | assumption]
         end);
    break_matches; cbn; auto;
    right; repeat split;
    repeat match goal with
      | H : _ || _ = false |- _ => apply orb_false_iff in H; destruct H
      | H : _ && _ = true |- _ => apply andb_true_iff in H; destruct H
      | H : negb _ = true |- _ => apply negb_true_iff in H
      end; assumption.
Qed.

Lemma commit_loading (old new : State) :
  loading (fst (commit old new)) = loading new
  /\ filter is_generate_call (snd (commit old new)) = [].
Proof.
  unfold commit, loading_cleanup, loading_effect, save_effect.
  break_matches; cbn; auto.
Qed.

Lemma step_loading (e : event) (s : State) :
  let calls := List.length (filter is_generate_call (snd (step t s e))) in
  if is_generate_resolved e
  then loading (fst (step t s e)) = false /\ calls = 0%nat
  else (loading (fst (step t s e)) = loading s /\ calls = 0%nat)
       \/ (loading s = false /\ loading (fst (step t s e)) = true
           /\ calls = 1%nat).
Proof.
  cbv zeta. rewrite (proj1 (step_handle s e)), (proj2 (step_handle s e)).
  rewrite filter_app.
  destruct (commit_loading s (fst (handle t e s))) as [-> ->].
  rewrite app_nil_r. apply handle_loading.
Qed.

(** X12.  Along every run of the component in which a call of
    [generateImage] resolves only after it was made, at most one call of the
    main flow is in flight at any time, and [loading] is set exactly while
    one is. *)
Lemma generate_at_most_one_in_flight (events : list event) :
  forall (s s' : State) (pending pending' : nat),
    (pending <= 1)%nat -> (loading s = true <-> pending = 1%nat) ->
    in_flight t s pending events = Some (s', pending') ->
    (pending' <= 1)%nat /\ (loading s' = true <-> pending' = 1%nat).
Proof.
  induction events as [|e events IH]; intros s s' p p' Hp Hl Hrun.
  - cbn in Hrun. inversion Hrun; subst. split; assumption.
  - cbn [in_flight] in Hrun.
    pose proof (step_loading e s) as Hstep. cbv zeta in Hstep.
    destruct (is_generate_resolved e) eqn:He.
    + destruct (Nat.eqb_spec p 0) as [->|Hne]; [discriminate|].
      cbn [andb] in Hrun. destruct Hstep as [Hl' Hc].
      rewrite Hc in Hrun.
      assert (Hp1 : (p + 0 - 1 <= 1)%nat) by lia.
      apply (IH _ _ _ _ Hp1) in Hrun; [assumption|].
      rewrite Hl'. split; [discriminate | lia].
    + cbn [andb] in Hrun.
      destruct Hstep as [[Hl' Hc]|(Hl0 & Hl' & Hc)]; rewrite Hc in Hrun.
      * assert (Hp1 : (p + 0 - 0 <= 1)%nat) by lia.
        apply (IH _ _ _ _ Hp1) in Hrun; [assumption|].
        rewrite Hl', Hl. lia.
      * assert (p = 0%nat) as ->.
        { destruct p as [|[|p]]; try lia.
          assert (loading s = true) by (apply Hl; reflexivity). congruence. }
        assert (Hp1 : (0 + 1 - 0 <= 1)%nat) by (cbn; lia).
        apply (IH _ _ _ _ Hp1) in Hrun; [assumption|].
        rewrite Hl'. split; reflexivity.
Qed.

(** The guard is the triggers': [handleGenerate] itself looks at the prompt
    only. *)
Lemma handleGenerate_looks_at_prompt_only (s : State) :
  trim_truthy (prompt s) = true ->
  snd (handleGenerate s)
  = [CallGenerateImage (prompt s) (map up_url (uploadedImages s))
       (resolution s) (aspectRatio s)].
Proof. intros H. unfold handleGenerate. rewrite H. reflexivity. Qed.

(** *** The bounded history *)

Lemma firstn_app_firstn {A} (n : nat) (a b : list A) :
  firstn n (a ++ firstn n b) = firstn n (a ++ b).
Proof.
  rewrite !firstn_app, firstn_firstn. do 2 f_equal. lia.
Qed.

Lemma success_step_history (e : event) (g : GeneratedImage) (s : State) :
  success_image e = Some g ->
  history (fst (step t s e)) = firstn 10 (g :: history s).
Proof.
  intros H. rewrite step_history.
  destruct e; try discriminate; destruct result; try discriminate;
    cbn in H; inversion H; subst; cbn [handle].
  - reflexivity.
  - unfold executeEdit_resolved. destruct previewImage0; reflexivity.
Qed.

Lemma run_cons (s : State) (e : event) (events : list event) :
  fst (run t s (e :: events)) = fst (run t (fst (step t s e)) events)
  /\ snd (run t s (e :: events))
     = snd (step t s e) ++ snd (run t (fst (step t s e)) events).
Proof.
  cbn [run]. destruct (step t s e) as [s1 fx1]. cbn [fst snd].
  destruct (run t s1 events) as [s2 fx2]. split; reflexivity.
Qed.

Lemma run_successes_history (events : list event) :
  forall (images : list GeneratedImage) (s : State),
    success_images events = Some images ->
    (List.length (history s) <= 10)%nat ->
    history (fst (run t s events)) = firstn 10 (rev images ++ history s).
Proof.
  induction events as [|e events IH]; intros images s H Hlen.
  - cbn in H. inversion H; subst. cbn [run fst rev app].
    symmetry. apply firstn_all2. assumption.
  - cbn [success_images] in H.
    destruct (success_image e) as [g|] eqn:Hg; [|discriminate].
    destruct (success_images events) as [gs|] eqn:Hgs; [|discriminate].
    inversion H; subst images.
    rewrite (proj1 (run_cons s e events)).
    rewrite (IH gs); [|reflexivity|].
    + rewrite (success_step_history e g s Hg), firstn_app_firstn.
      cbn [rev]. rewrite <- app_assoc. reflexivity.
    + rewrite (success_step_history e g s Hg), length_firstn. lia.
Qed.

Lemma success_images_length (events : list event) :
  forall images, success_images events = Some images ->
                 List.length images = List.length events.
Proof.
  induction events as [|e events IH]; intros images H; cbn in H.
  - inversion H; reflexivity.
  - destruct (success_image e); [|discriminate].
    destruct (success_images events) as [gs|]; [|discriminate].
    inversion H; subst. cbn. f_equal. apply IH. reflexivity.
Qed.

(** C3.  From a history of at most ten entries, more than ten successful
    generate or edit operations leave exactly ten entries, the ten most
    recent ones, most recent first; and whatever the event, a history of at
    most ten entries is one of at most ten entries after it. *)
Theorem history_bounded :
  forall (s : State) (events : list event) (images : list GeneratedImage)
         (e : event),
    (List.length (history s) <= 10)%nat ->
    (success_images events = Some images ->
     (10 < List.length events)%nat ->
     history (fst (run t s events)) = firstn 10 (rev images)
     /\ List.length (history (fst (run t s events))) = 10%nat)
    /\ (List.length (history (fst (step t s e))) <= 10)%nat.
Proof.
  intros s events images e Hlen. split.
  - intros Himg Hn.
    pose proof (success_images_length _ _ Himg) as Hl.
    rewrite (run_successes_history events images s Himg Hlen).
    rewrite firstn_app.
    replace (10 - List.length (rev images))%nat with 0%nat
      by (rewrite length_rev; lia).
    rewrite firstn_O, app_nil_r. split; [reflexivity|].
    rewrite length_firstn, length_rev. lia.
  - rewrite step_history. apply handle_history_bounded. assumption.
Qed.

(** The bound holds all along a run of the component from its mount. *)
Lemma run_history_bounded (events : list event) :
  forall s : State,
    (List.length (history s) <= 10)%nat ->
    (List.length (history (fst (run t s events))) <= 10)%nat.
Proof.
  induction events as [|e events IH]; intros s Hs; [assumption|].
  rewrite (proj1 (run_cons s e events)). apply IH.
  rewrite step_history. apply handle_history_bounded. assumption.
Qed.

(** *** Persistence of the history *)

Lemma handle_keeps_unloaded (e : event) (s : State) :
  is_load e = false ->
  isHistoryLoaded (fst (handle t e s)) = isHistoryLoaded s.
Proof.
  intros He. by_events e s; try discriminate; try congruence;
    break_matches; reflexivity.
Qed.

Lemma handle_keeps_loaded (e : event) (s : State) :
  isHistoryLoaded s = true -> isHistoryLoaded (fst (handle t e s)) = true.
Proof.
  intros Hs. by_events e s; try congruence; break_matches;
    try assumption; reflexivity.
Qed.

Lemma handle_no_save (e : event) (s : State) :
  forall fx, In fx (snd (handle t e s)) -> is_save fx = false.
Proof.
  intros fx. by_events e s;
    try (intros Hin;
         match goal with
         | H : Forall _ _ |- _ =>
             destruct (timers_are_not _ _ H Hin) as (? & ? & ->)
         end; reflexivity);
    break_matches; cbn; intuition (subst; reflexivity).
Qed.

(** A handler either leaves the history array alone or stores one fresh
    array. *)
Lemma handle_history_ref (e : event) (s : State) :
  (history (fst (handle t e s)) = history s
   /\ history_ref (fst (handle t e s)) = history_ref s)
  \/ history_ref (fst (handle t e s)) = S (history_ref s).
Proof.
  by_events e s; try (left; split; congruence);
    break_matches; auto.
Qed.

(** The writes of a turn are those of the save subscription: one is
    issued exactly when the history array or the loaded flag changed and
    the load has completed, and it writes the history of the new state. *)
Lemma step_save (s : State) (e : event) (fx : effect) :
  In fx (snd (step t s e)) -> is_save fx = true ->
  isHistoryLoaded (fst (step t s e)) = true
  /\ fx = CallSaveHistoryToDB (history (fst (step t s e))).
Proof.
  rewrite (proj2 (step_handle s e)), in_app_iff.
  rewrite step_isHistoryLoaded, step_history.
  intros [H|H] Hs.
  - apply handle_no_save in H. congruence.
  - revert H. unfold commit, loading_cleanup, loading_effect, save_effect.
    break_matches; intuition (subst; try discriminate; auto).
Qed.

Lemma step_mutation_saved (s : State) (e : event) :
  isHistoryLoaded (fst (step t s e)) = true ->
  history_ref (fst (step t s e)) <> history_ref s ->
  In (CallSaveHistoryToDB (history (fst (step t s e)))) (snd (step t s e)).
Proof.
  rewrite (proj2 (step_handle s e)), in_app_iff.
  rewrite step_isHistoryLoaded, step_history, step_history_ref.
  intros Hl Hr. right.
  apply Nat.eqb_neq in Hr. rewrite Nat.eqb_sym in Hr.
  unfold commit, loading_cleanup, loading_effect, save_effect. rewrite Hr, Hl.
  break_matches; cbn; auto.
Qed.

Lemma run_unloaded (events : list event) :
  forall s : State,
    existsb is_load events = false ->
    isHistoryLoaded s = false ->
    isHistoryLoaded (fst (run t s events)) = false
    /\ (forall fx, In fx (snd (run t s events)) -> is_save fx = false).
Proof.
  induction events as [|e events IH]; intros s He Hs.
  - split; [assumption | intros fx []].
  - cbn [existsb] in He. apply orb_false_iff in He. destruct He as [He Hes].
    assert (Hs1 : isHistoryLoaded (fst (step t s e)) = false)
      by (rewrite step_isHistoryLoaded, handle_keeps_unloaded; assumption).
    destruct (IH _ Hes Hs1) as [IH1 IH2].
    rewrite (proj1 (run_cons s e events)), (proj2 (run_cons s e events)).
    split; [assumption|].
    intros fx Hin. apply in_app_iff in Hin. destruct Hin as [Hin|Hin]; auto.
    destruct (is_save fx) eqn:Hsave; [|reflexivity].
    destruct (step_save s e fx Hin Hsave) as [Hl _]. congruence.
Qed.

Lemma run_keeps_loaded (events : list event) :
  forall s : State,
    isHistoryLoaded s = true -> isHistoryLoaded (fst (run t s events)) = true.
Proof.
  induction events as [|e events IH]; intros s Hs; [assumption|].
  rewrite (proj1 (run_cons s e events)). apply IH.
  rewrite step_isHistoryLoaded. apply handle_keeps_loaded. assumption.
Qed.

Lemma run_loaded (events : list event) :
  forall s : State,
    existsb is_load events = true ->
    isHistoryLoaded (fst (run t s events)) = true.
Proof.
  induction events as [|e events IH]; intros s He; [discriminate|].
  rewrite (proj1 (run_cons s e events)).
  cbn [existsb] in He. apply orb_true_iff in He. destruct He as [He|He].
  - apply run_keeps_loaded. rewrite step_isHistoryLoaded.
    destruct e; try discriminate. reflexivity.
  - apply IH. assumption.
Qed.

(** The [clear()] of the store is asked for by a confirmed clear and by
    nothing else. *)
Lemma handle_clear_store (e : event) (s : State) :
  In ClearStore (snd (handle t e s)) ->
  e = ConfirmClear /\ showClearDialog s = true.
Proof.
  by_events e s;
    try (intros Hin;
         match goal with
         | H : Forall _ _ |- _ =>
             destruct (timers_are_not _ _ H Hin) as (? & ? & ?)
         end; discriminate);
    break_matches; cbn; intuition (try discriminate; auto).
Qed.

Lemma commit_no_clear_store (old new : State) :
  ~ In ClearStore (snd (commit old new)).
Proof.
  unfold commit, loading_cleanup, loading_effect, save_effect.
  break_matches; cbn; intuition discriminate.
Qed.

Lemma step_clear_store (s : State) (e : event) :
  In ClearStore (snd (step t s e)) ->
  e = ConfirmClear /\ showClearDialog s = true.
Proof.
  rewrite (proj2 (step_handle s e)), in_app_iff.
  intros [H|H]; [apply handle_clear_store; exact H|].
  contradiction (commit_no_clear_store _ _ H).
Qed.

Lemma confirm_clear_store (s : State) :
  showClearDialog s = true -> In ClearStore (snd (step t s ConfirmClear)).
Proof.
  intros Hd. rewrite (proj2 (step_handle s ConfirmClear)), in_app_iff.
  left. cbn [handle]. rewrite Hd. left. reflexivity.
Qed.

(** C7, as amended.  In a run of the component from its mount, no save of
    the history is issued as long as the load has not completed: the one
    write to the store that a turn before the load can issue is the
    [clear()] of a confirmed clear, which is issued whether the load has
    completed or not.  Once the load has completed, every turn that stores
    a history array issues a save of that history. *)
Theorem history_persistence :
  forall (events : list event) (e : event),
    let s := fst (run t (fst mount) events) in
    (existsb is_load events = false ->
     forall fx, In fx (snd mount ++ snd (run t (fst mount) events)) ->
                is_save fx = false)
    /\ (forall fx, In fx (snd mount) -> is_store_write fx = false)
    /\ (existsb is_load (events ++ [e]) = false ->
        forall fx, In fx (snd (step t s e)) -> is_store_write fx = true ->
                   fx = ClearStore
                   /\ e = ConfirmClear /\ showClearDialog s = true)
    /\ (showClearDialog s = true ->
        In ClearStore (snd (step t s ConfirmClear)))
    /\ (existsb is_load (events ++ [e]) = true ->
        history_ref (fst (step t s e)) <> history_ref s ->
        In (CallSaveHistoryToDB (history (fst (step t s e))))
           (snd (step t s e))).
Proof.
  intros events e s. split; [|split; [|split; [|split]]].
  - intros He fx Hin. cbn [mount fst snd app] in Hin.
    destruct Hin as [<-|Hin]; [reflexivity|].
    revert fx Hin. apply run_unloaded; [assumption | reflexivity].
  - intros fx [<-|H]; [reflexivity | contradiction H].
  - intros He fx Hin Hw.
    rewrite existsb_app in He. apply orb_false_iff in He.
    destruct He as [He He1]. cbn in He1. rewrite orb_false_r in He1.
    assert (Hs : isHistoryLoaded s = false)
      by (apply run_unloaded; [assumption | reflexivity]).
    assert (Hfx : fx = ClearStore).
    { destruct fx; try discriminate Hw; [|reflexivity].
      destruct (step_save s e _ Hin eq_refl) as [Hl _].
      rewrite step_isHistoryLoaded, handle_keeps_unloaded in Hl;
        [congruence | assumption]. }
    split; [exact Hfx|]. subst fx. apply step_clear_store. exact Hin.
  - apply confirm_clear_store.
  - intros He Hr. apply step_mutation_saved; [|assumption].
    rewrite existsb_app in He. apply orb_true_iff in He.
    destruct He as [He|He].
    + rewrite step_isHistoryLoaded. apply handle_keeps_loaded.
      apply run_loaded. assumption.
    + cbn in He. rewrite orb_false_r in He.
      rewrite step_isHistoryLoaded.
      destruct e; try discriminate. reflexivity.
Qed.

(** A turn that changes the contents of the history stores a history
    array, so it is followed by a write as well. *)
Lemma step_change_is_mutation (s : State) (e : event) :
  history (fst (step t s e)) <> history s ->
  history_ref (fst (step t s e)) <> history_ref s.
Proof.
  rewrite step_history, step_history_ref.
  destruct (handle_history_ref e s) as [[H _]|H]; [congruence | lia].
Qed.

(** X13.  No event at all closes the side bar of a session that is
    editing: the close button, the backdrop and Escape are turned into the
    warning, and nothing else touches the side bar. *)
Lemma editing_session_stays_open (s : State) (e : event) :
  isEditing s = true -> isEditSidebarOpen s = true ->
  isEditSidebarOpen (fst (step t s e)) = true.
Proof.
  intros He Ho. rewrite step_isEditSidebarOpen.
  by_events e s; try congruence; rewrite ?He, ?Ho; cbn;
    break_matches; try assumption; reflexivity.
Qed.

End ControllerFacts.

(** *** Scenarios *)

Section Scenarios.

Import Types Vocabulary TextGenerator Samples.

(** The scenario of the specification: from the empty history, a generate
    with prompt "a red fox" that succeeds at time [T]. *)
Example generate_a_red_fox :
  let run1 := run t_key initial
                [LoadResolved []; ChangePrompt (lit "a red fox");
                 ClickGenerate;
                 GenerateResolved (lit "a red fox")
                   (Return (lit "data:image/png;base64,Rk9Y")) 1700000000000%Z] in
  history (fst run1) = [fox] /\ image (fst run1) = Some fox
  /\ loading (fst run1) = false
  /\ filter (fun fx => is_save fx || is_generate_call fx) (snd run1)
     = [CallSaveHistoryToDB [];
        CallGenerateImage (lit "a red fox") [] (lit "1K") (lit "1:1");
        CallSaveHistoryToDB [fox]].
Proof. vm_compute. repeat split. Qed.

(** The effects of the turn in which that generate succeeds, in their
    order: the toast timer of the handler, the cleanup of the busy notice,
    the save. *)
Example generate_a_red_fox_effects :
  snd (step t_key
         (fst (run t_key (fst mount)
                 [LoadResolved []; ChangePrompt (lit "a red fox");
                  ClickGenerate]))
         (GenerateResolved (lit "a red fox")
            (Return (lit "data:image/png;base64,Rk9Y")) 1700000000000%Z))
  = [SetTimeout HideGenSuccessToast 5000; ClearTimeout ShowBusyWarning;
     CallSaveHistoryToDB [fox]].
Proof. vm_compute. reflexivity. Qed.

Lemma attemptCloseSidebar_guard_witness :
  (isEditSidebarOpen (fst (attemptCloseSidebar t_key editing_owl))
   = isEditSidebarOpen editing_owl
   /\ showWarningToast (fst (attemptCloseSidebar t_key editing_owl)) = true
   /\ warningMsg (fst (attemptCloseSidebar t_key editing_owl))
      = t_key "waitEditCompletion")
  /\ isEditSidebarOpen
       (fst (attemptCloseSidebar t_key (setIsEditing false editing_owl)))
     = false.
Proof.
  split.
  - apply (proj1 (attemptCloseSidebar_guard t_key editing_owl)).
    reflexivity.
  - apply (proj2 (attemptCloseSidebar_guard t_key
                    (setIsEditing false editing_owl))).
    reflexivity.
Defined.

Lemma confirmDelete_by_timestamp_witness :
  showDeleteDialog deleting_fox = true
  /\ imageToDelete deleting_fox = Some fox
  /\ (let remaining := history (fst (step t_key deleting_fox ConfirmDelete)) in
      remaining
      = filter (fun item => negb (Z.eqb (timestamp item) (timestamp fox)))
          (history deleting_fox)
      /\ (forall item, In item remaining <->
                       In item (history deleting_fox)
                       /\ timestamp item <> timestamp fox)).
Proof.
  split; [reflexivity | split; [reflexivity|]].
  apply (confirmDelete_by_timestamp t_key deleting_fox fox); reflexivity.
Defined.

(** Two records of the same millisecond go with one delete. *)
Example delete_removes_the_twin :
  history (fst (step t_key deleting_fox ConfirmDelete)) = [owl].
Proof. reflexivity. Qed.

(** C2 as first stated fails: a reference image staged before a generate
    is still staged after the generate has succeeded. *)
Lemma generate_success_leaves_staging :
  ~ (forall (t : string -> jsstring) (s : State) (prompt0 u : jsstring)
            (now : Z),
        (List.length (uploadedImages s) <= 2)%nat ->
        uploadedImages
          (fst (step t s (GenerateResolved prompt0 (Return u) now))) = []).
Proof.
  intros H.
  specialize (H t_key
                (fst (run t_key initial
                        [FileChange [reference];
                         ChangePrompt (lit "a red fox"); ClickGenerate]))
                (lit "a red fox") (lit "data:image/png;base64,Rk9Y")
                1700000000000%Z).
  vm_compute in H. specialize (H (le_S _ _ (le_n 1))). discriminate H.
Qed.

Lemma generate_single_flight_witness :
  loading generating = true
  /\ step t_key generating ClickGenerate = (generating, [])
  /\ (isEditSidebarOpen generating = false ->
      step t_key generating KeyCtrlEnter = (generating, []))
  /\ (forall e fx, In fx (snd (step t_key generating e)) ->
                   is_generate_call fx = false).
Proof.
  split; [reflexivity|].
  apply (generate_single_flight t_key generating). reflexivity.
Defined.

Lemma history_bounded_witness :
  (List.length (history initial) <= 10)%nat
  /\ (10 < List.length (map success (seq 1 11)))%nat
  /\ exists images,
       success_images (map success (seq 1 11)) = Some images
       /\ history (fst (run t_key initial (map success (seq 1 11))))
          = firstn 10 (rev images)
       /\ List.length
            (history (fst (run t_key initial (map success (seq 1 11)))))
          = 10%nat.
Proof.
  split; [cbn; lia|]. split; [cbn; lia|].
  eexists. split; [vm_compute; reflexivity|].
  apply (proj1 (history_bounded t_key initial (map success (seq 1 11)) _
                  ClickGenerate ltac:(cbn; lia)));
    [vm_compute; reflexivity | cbn; lia].
Defined.

(** C7 as first stated fails: with the load still pending, a generate that
    succeeded fills the history, the clear button is there, and a confirmed
    clear has the store cleared. *)
Lemma store_cleared_before_load :
  ~ (forall (t : string -> jsstring) (events : list event),
        existsb is_load events = false ->
        forall fx, In fx (snd mount ++ snd (run t (fst mount) events)) ->
                   is_store_write fx = false).
Proof.
  intros H.
  specialize (H t_key
                [ChangePrompt (lit "a red fox"); ClickGenerate; success 2;
                 ClickClear; ConfirmClear]
                eq_refl ClearStore).
  assert (Hin : In ClearStore
                  (snd mount
                   ++ snd (run t_key (fst mount)
                             [ChangePrompt (lit "a red fox"); ClickGenerate;
                              success 2; ClickClear; ConfirmClear]))).
  { vm_compute. tauto. }
  specialize (H Hin). discriminate H.
Qed.

Lemma history_persistence_witness :
  (forall fx,
      In fx (snd mount
             ++ snd (run t_key (fst mount)
                       [ChangePrompt (lit "a red fox"); ClickGenerate;
                        success 2])) ->
      is_save fx = false)
  /\ (let s := fst (run t_key (fst mount)
                      [ChangePrompt (lit "a red fox"); ClickGenerate;
                       success 2; ClickClear]) in
      forall fx, In fx (snd (step t_key s ConfirmClear)) ->
                 is_store_write fx = true ->
                 fx = ClearStore
                 /\ ConfirmClear = ConfirmClear /\ showClearDialog s = true)
  /\ (let s := fst (run t_key (fst mount)
                      [ChangePrompt (lit "a red fox"); ClickGenerate;
                       success 2; ClickClear]) in
      In ClearStore (snd (step t_key s ConfirmClear)))
  /\ (let s := fst (run t_key (fst mount) [LoadResolved [fox]]) in
      In (CallSaveHistoryToDB (history (fst (step t_key s (success 2)))))
         (snd (step t_key s (success 2)))).
Proof.
  split; [|split; [|split]].
  - apply (proj1 (history_persistence t_key
                    [ChangePrompt (lit "a red fox"); ClickGenerate; success 2]
                    ClickGenerate)).
    reflexivity.
  - apply (proj1 (proj2 (proj2 (history_persistence t_key
                    [ChangePrompt (lit "a red fox"); ClickGenerate; success 2;
                     ClickClear]
                    ConfirmClear)))).
    reflexivity.
  - apply (proj1 (proj2 (proj2 (proj2 (history_persistence t_key
                    [ChangePrompt (lit "a red fox"); ClickGenerate; success 2;
                     ClickClear]
                    ConfirmClear))))).
    reflexivity.
  - apply (proj2 (proj2 (proj2 (proj2
             (history_persistence t_key [LoadResolved [fox]] (success 2)))))).
    + reflexivity.
    + vm_compute. discriminate.
Defined.

End Scenarios.

(** ** The pipeline evaluator *)

Section PipelineFacts.

Import WorkflowEditor.

Lemma updateNodeData_length target_id newData nds :
  List.length (updateNodeData target_id newData nds) = List.length nds.
Proof. apply length_map. Qed.

Lemma updateNodeData_other target_id newData nds i node :
  nth_error nds i = Some node -> id node <> target_id ->
  nth_error (updateNodeData target_id newData nds) i = Some node.
Proof.
  intros Hn Hid. unfold updateNodeData. rewrite nth_error_map, Hn. cbn.
  destruct (eqb (id node) target_id) eqn:E; [|reflexivity].
  apply eqb_eq in E. contradiction.
Qed.

Lemma updateNodeData_target target_id newData nds i node :
  nth_error nds i = Some node -> id node = target_id ->
  nth_error (updateNodeData target_id newData nds) i
  = Some (with_data node (spread (data node) newData)).
Proof.
  intros Hn Hid. unfold updateNodeData. rewrite nth_error_map, Hn. cbn.
  rewrite <- Hid, eqb_refl. reflexivity.
Qed.

(** C8.  When the edges that enter the generator resolve to no prompt,
    [runGenerator] calls the request client not at all and sets the error
    of the generator node, leaving the rest of its data, and every node
    with another id, as they were. *)
Theorem runGenerator_without_prompt :
  forall (currentNodes : list Node) (currentEdges : list Edge)
         (nds : list Node) (generatorNode : Node),
    find (fun n => eqb (type n) (lit "generatorNode")) currentNodes
    = Some generatorNode ->
    no_prompt
      (fst (resolve_inputs currentNodes
              (filter (fun e => eqb (target e) (id generatorNode))
                      currentEdges))) = true ->
    let result := runGenerator currentNodes currentEdges nds in
    snd result = []
    /\ List.length (fst result) = List.length nds
    /\ (forall i node,
           nth_error nds i = Some node ->
           (id node <> id generatorNode ->
            nth_error (fst result) i = Some node)
           /\ (id node = id generatorNode ->
               exists node',
                 nth_error (fst result) i = Some node'
                 /\ id node' = id node /\ type node' = type node
                 /\ position node' = position node
                 /\ error (data node') = Some (Some (lit "No prompt provided"))
                 /\ prompt (data node') = prompt (data node)
                 /\ images (data node') = images (data node)
                 /\ loading (data node') = loading (data node)
                 /\ resolution (data node') = resolution (data node)
                 /\ aspectRatio (data node') = aspectRatio (data node)
                 /\ outputImage (data node') = outputImage (data node)
                 /\ image (data node') = image (data node))).
Proof.
  intros currentNodes currentEdges nds g Hfind Hnp result.
  subst result. unfold runGenerator. rewrite Hfind.
  destruct (resolve_inputs currentNodes
              (filter (fun e => eqb (target e) (id g)) currentEdges))
    as [prompt0 inputImages].
  cbn [fst] in Hnp. rewrite Hnp. cbn [fst snd].
  split; [reflexivity|]. split; [apply updateNodeData_length|].
  intros i node Hn. split; intros Hid.
  - apply updateNodeData_other; assumption.
  - rewrite (updateNodeData_target _ _ _ _ _ Hn Hid).
    eexists. split; [reflexivity|]. repeat split.
Qed.

End PipelineFacts.

Lemma runGenerator_without_prompt_witness :
  let result := WorkflowEditor.runGenerator WorkflowEditor.initialNodes
                  WorkflowEditor.initialEdges WorkflowEditor.initialNodes in
  snd result = []
  /\ map (fun n => WorkflowEditor.error (WorkflowEditor.data n)) (fst result)
     = [None; None; Some (Some (lit "No prompt provided")); None].
Proof.
  destruct (runGenerator_without_prompt WorkflowEditor.initialNodes
              WorkflowEditor.initialEdges WorkflowEditor.initialNodes
              (WorkflowEditor.mkNode (lit "2") (lit "generatorNode")
                 (400, 250)%Z
                 (WorkflowEditor.mkNodeData None None (Some false)
                    (Some (lit "1K")) (Some (lit "1:1")) (Some None) None None))
              eq_refl eq_refl) as (Hcalls & _ & _).
  split; [exact Hcalls | reflexivity].
Defined.

(** With a prompt typed into the prompt node the generator calls the
    client, with the image list cut to one entry. *)
Example runGenerator_with_prompt :
  snd (WorkflowEditor.runGenerator
         (WorkflowEditor.updateNodeData (lit "1")
            (WorkflowEditor.mkNodeData (Some (lit "a red fox")) None None None
               None None None None)
            WorkflowEditor.initialNodes)
         WorkflowEditor.initialEdges WorkflowEditor.initialNodes)
  = [WorkflowEditor.CallGenerateImage (lit "a red fox") []
       (Some (lit "1K")) (Some (lit "1:1"))].
Proof. reflexivity. Qed.

(** * Further properties of the code *)

(** ** The request client: what is sent, what comes back *)

Section RequestClientMore.

Import GeminiService Vocabulary.

Variable JSON_parse : jsstring -> option value.
Variable ToString : value -> jsstring.

Lemma image_parts_from (images : list jsstring) (mime data : jsstring) :
  In (InlineData mime data) (image_parts images) ->
  exists img, In img images /\ match_data_url img = Some (mime, data).
Proof.
  induction images as [|img images IH]; cbn [image_parts]; [intros []|].
  destruct (match_data_url img) as [[m d]|] eqn:E.
  - intros [H|H].
    + inversion H; subst. exists img. split; [left; reflexivity | assumption].
    + destruct (IH H) as (i & Hi & Hm). exists i. split; [right|]; assumption.
  - intros H. destruct (IH H) as (i & Hi & Hm).
    exists i. split; [right|]; assumption.
Qed.

Lemma image_parts_length (images : list jsstring) :
  (List.length (image_parts images) <= List.length images)%nat.
Proof.
  induction images as [|img images IH]; cbn [image_parts]; [apply le_n|].
  destruct (match_data_url img) as [[m d]|]; cbn [List.length]; lia.
Qed.

(** X1.  A request of [generateImage] opens with the prompt and carries at
    most two images, each the mime type and payload of one of the first two
    reference images; a reference image that is no data URL is skipped, and
    the images after the second change nothing of the call. *)
Theorem generateImage_reference_cap :
  forall apiKey prompt referenceImages resolution aspectRatio remote r,
    In r (snd (generateImage JSON_parse ToString apiKey prompt
                 referenceImages resolution aspectRatio remote)) ->
    (exists images,
        contents r = TextPart prompt :: images
        /\ (List.length images <= 2)%nat
        /\ forall p, In p images ->
             exists mime data img,
               p = InlineData mime data
               /\ In img (firstn 2 referenceImages)
               /\ match_data_url img = Some (mime, data))
    /\ generateImage JSON_parse ToString apiKey prompt referenceImages
         resolution aspectRatio remote
       = generateImage JSON_parse ToString apiKey prompt
           (firstn 2 referenceImages) resolution aspectRatio remote.
Proof.
  intros apiKey prompt refs resolution aspectRatio remote r Hin. split.
  - revert Hin. unfold generateImage, generateImage_request, run_call.
    destruct (getClient apiKey) as [k|m]; cbn [snd]; [|intros []].
    intros [<-|[]]. cbn [contents].
    exists (image_parts (firstn 2 refs)). split; [reflexivity|]. split.
    + etransitivity; [apply image_parts_length|].
      rewrite length_firstn. apply Nat.le_min_l.
    + intros p Hp.
      assert (Hshape : exists mime data, p = InlineData mime data).
      { clear -Hp. induction (firstn 2 refs) as [|i l IH];
          cbn [image_parts] in Hp; [destruct Hp|].
        destruct (match_data_url i) as [[m d]|]; [|auto].
        destruct Hp as [<-|Hp]; eauto. }
      destruct Hshape as (mime & data & ->).
      destruct (image_parts_from _ _ _ Hp) as (img & Hi & Hm).
      exists mime, data, img. auto.
  - unfold generateImage, generateImage_request.
    rewrite firstn_firstn. reflexivity.
Qed.

(** [getClient] is the first statement of [generateImage]: without a key
    the call is over before a request is built. *)
Lemma generateImage_without_client :
  forall apiKey prompt referenceImages resolution aspectRatio remote,
    apiKey = None \/ apiKey = Some [] ->
    generateImage JSON_parse ToString apiKey prompt referenceImages
      resolution aspectRatio remote
    = (Throw (lit "API Key not found in environment variables"), []).
Proof.
  intros apiKey prompt refs resolution aspectRatio remote [-> | ->];
    unfold generateImage, generateImage_request, run_call; cbn [getClient];
    (rewrite catch_message_plain; [reflexivity | discriminate | reflexivity..]).
Qed.

(** X2.  Without an API key in the environment neither [generateImage] nor
    [editImage] sends anything: each throws the error of the missing key,
    whatever its arguments and whatever the remote service would answer. *)
Theorem missing_key_fails_fast :
  forall apiKey prompt referenceImages resolution aspectRatio
         inputImageBase64 remote,
    apiKey = None \/ apiKey = Some [] ->
    generateImage JSON_parse ToString apiKey prompt referenceImages
      resolution aspectRatio remote
    = (Throw (lit "API Key not found in environment variables"), [])
    /\ editImage JSON_parse ToString apiKey prompt inputImageBase64 remote
       = (Throw (lit "API Key not found in environment variables"), []).
Proof.
  intros apiKey prompt refs resolution aspectRatio img remote [-> | ->];
    unfold generateImage, generateImage_request, editImage, editImage_request,
      run_call; cbn [getClient];
    (split;
     (rewrite catch_message_plain; [reflexivity | discriminate | reflexivity..])).
Qed.

(** The first group of the pattern is as long as any split allows. *)
Lemma match_group1_greedy (g2 : jsstring) :
  forall acc m d d2,
    match_group1 acc (g2 ++ lit ";base64," ++ d2) = Some (m, d) ->
    g2 <> [] -> no_line_terminator g2 = true ->
    d2 <> [] -> no_line_terminator d2 = true ->
    (List.length (acc ++ g2) <= List.length m)%nat.
Proof.
  induction g2 as [|c g2 IH]; intros acc m d d2 Hm Hg Hlg Hd Hld;
    [congruence|].
  unfold no_line_terminator in Hlg. cbn [forallb] in Hlg.
  apply andb_true_iff in Hlg. destruct Hlg as [Hc Hlg].
  apply negb_true_iff in Hc.
  change ((c :: g2) ++ lit ";base64," ++ d2)
    with (c :: (g2 ++ lit ";base64," ++ d2)) in Hm.
  cbn [match_group1] in Hm. rewrite Hc in Hm.
  destruct (match_group1 (acc ++ [c]) (g2 ++ lit ";base64," ++ d2))
    as [[m1 d1]|] eqn:Hrec.
  - injection Hm as -> ->.
    destruct g2 as [|c2 g2].
    + apply match_group1_sound in Hrec.
      destruct Hrec as (g & Hgne & -> & _).
      rewrite !length_app. destruct g; [congruence|]. cbn. lia.
    + assert (H := IH (acc ++ [c]) m d d2 Hrec ltac:(discriminate) Hlg Hd Hld).
      rewrite <- app_assoc in H. exact H.
  - apply match_tail_spec in Hm. destruct Hm as (-> & _).
    destruct g2 as [|c2 g2]; [apply le_n|].
    exfalso. revert Hrec.
    apply match_group1_complete; auto. discriminate.
Qed.

Lemma marker_not_inside (x data d' : jsstring) :
  x <> [] ->
  lit ";base64," ++ data = x ++ lit ";base64," ++ d' ->
  includes_char 59 data = true.
Proof.
  intros Hx H.
  change (lit ";base64,") with [59; 98; 97; 115; 101; 54; 52; 44]%N in H.
  do 8 (destruct x as [|? x]; [exfalso; cbn in H; congruence|]).
  cbn in H. inversion H; subst.
  unfold includes_char. rewrite existsb_app. cbn. apply orb_true_r.
Qed.

(** X3.  A data URL put together from a mime type and a payload, neither
    empty nor holding a line terminator, the payload free of semicolons (as
    base64 is), is taken apart by the pattern into the same two: so the
    image [generateImage] returns is sent by [editImage] with the mime type
    and the payload the service gave. *)
Theorem data_url_round_trip :
  forall (mime data : jsstring),
    mime <> [] -> data <> [] ->
    no_line_terminator mime = true -> no_line_terminator data = true ->
    includes_char 59 data = false ->
    let u := lit "data:" ++ mime ++ lit ";base64," ++ data in
    match_data_url u = Some (mime, data)
    /\ (forall fallback text rest,
           read_response fallback
             (Some (mkRpart (Some (Some mime, Some data)) text :: rest))
           = Return u)
    /\ (forall c key prompt,
           editImage_request (Some (c :: key)) prompt u
           = Return (mkRequest (lit "gemini-2.5-flash-image")
                       [TextPart prompt; InlineData mime data] None)).
Proof.
  intros mime data Hm Hd Hlm Hld Hsemi u.
  assert (E : match_data_url u = Some (mime, data)).
  { unfold u, match_data_url. rewrite strip_prefix_app.
    destruct (match_group1 [] (mime ++ lit ";base64," ++ data))
      as [[m d]|] eqn:Hrun.
    - pose proof (match_group1_greedy _ _ _ _ _ Hrun Hm Hlm Hd Hld) as Hlen.
      apply match_group1_sound in Hrun.
      destruct Hrun as (g & Hg & -> & Hs & _ & Hd' & _).
      cbn [app] in Hlen |- *.
      apply app_eq_app in Hs. destruct Hs as (l & [[-> Hl] | [-> Hl]]).
      + rewrite length_app in Hlen. destruct l; [|cbn in Hlen; lia].
        rewrite app_nil_r in *. cbn [app] in Hl.
        apply app_inv_head in Hl. subst. reflexivity.
      + destruct l as [|x l].
        * rewrite app_nil_r in *. cbn [app] in Hl.
          apply app_inv_head in Hl. subst. reflexivity.
        * exfalso.
          assert (includes_char 59 data = true)
            by (eapply (marker_not_inside (x :: l)); [discriminate | eassumption]).
          congruence.
    - exfalso. revert Hrun. apply match_group1_complete; assumption. }
  split; [exact E|]. split.
  - intros fallback text rest. unfold read_response. cbn [first_image r_inlineData].
    destruct data as [|d0 data]; [congruence|].
    destruct mime as [|m0 mime]; [congruence|]. reflexivity.
  - intros c key prompt. unfold editImage_request. cbn [getClient].
    rewrite E. reflexivity.
Qed.

Lemma holds_image_false (p : rpart) (rest : list rpart) :
  holds_image p = false -> first_image (p :: rest) = first_image rest.
Proof.
  unfold holds_image. cbn [first_image].
  destruct (r_inlineData p) as [[mime [[|c d]|]]|]; try reflexivity.
  discriminate.
Qed.

Lemma holds_text_false (p : rpart) (rest : list rpart) :
  holds_text p = false -> find_text (p :: rest) = find_text rest.
Proof.
  unfold holds_text. cbn [find_text].
  destruct (r_text p) as [[|c d]|]; try reflexivity. discriminate.
Qed.

Lemma first_image_none (parts : list rpart) :
  Forall (fun q => holds_image q = false) parts -> first_image parts = None.
Proof.
  induction 1 as [|p parts Hp _ IH]; [reflexivity|].
  rewrite holds_image_false; assumption.
Qed.

Lemma find_text_none (parts : list rpart) :
  Forall (fun q => holds_text q = false) parts -> find_text parts = None.
Proof.
  induction 1 as [|p parts Hp _ IH]; [reflexivity|].
  rewrite holds_text_false; assumption.
Qed.

(** X4.  What is read from a response: the first part that holds image
    data gives the result, as a data URL with [image/png] when the part names
    no mime type, whatever text the response holds; with no image, the first
    text is the error; with neither, or with no parts at all, the error is
    "No image data found in response". *)
Theorem read_response_precedence :
  forall (fallback : jsstring) (before after : list rpart) (p : rpart),
    (forall mime data,
        Forall (fun q => holds_image q = false) before ->
        r_inlineData p = Some (mime, Some data) -> data <> [] ->
        read_response fallback (Some (before ++ p :: after))
        = Return (lit "data:"
                  ++ str_or (match mime with Some m => m | None => [] end)
                       (lit "image/png")
                  ++ lit ";base64," ++ data))
    /\ (forall text,
           Forall (fun q => holds_image q = false) (before ++ p :: after) ->
           Forall (fun q => holds_text q = false) before ->
           r_text p = Some text -> text <> [] ->
           read_response fallback (Some (before ++ p :: after)) = Throw text)
    /\ (Forall (fun q => holds_image q = false) before ->
        Forall (fun q => holds_text q = false) before ->
        read_response fallback (Some before)
        = Throw (lit "No image data found in response"))
    /\ read_response fallback None
       = Throw (lit "No image data found in response").
Proof.
  intros fallback before after p. split; [|split; [|split]].
  - intros mime data Hb Hp Hd. unfold read_response.
    assert (E : first_image (before ++ p :: after)
                = Some (lit "data:"
                        ++ str_or (match mime with Some m => m | None => [] end)
                             (lit "image/png")
                        ++ lit ";base64," ++ data)).
    { induction Hb as [|q before Hq _ IH]; cbn [app].
      - cbn [first_image]. rewrite Hp.
        destruct data; [congruence | reflexivity].
      - rewrite holds_image_false; assumption. }
    rewrite E. reflexivity.
  - intros text Hi Ht Hp Hne. unfold read_response.
    rewrite (first_image_none _ Hi).
    assert (E : find_text (before ++ p :: after) = Some text).
    { clear Hi. induction Ht as [|q before Hq _ IH]; cbn [app].
      - cbn [find_text]. rewrite Hp. destruct text; [congruence | reflexivity].
      - rewrite holds_text_false; assumption. }
    rewrite E. destruct text; [congruence | reflexivity].
  - intros Hi Ht. unfold read_response.
    rewrite (first_image_none _ Hi), (find_text_none _ Ht). reflexivity.
  - reflexivity.
Qed.

(** X5.  The message of the error that is thrown again: a message with no
    brace or bracket, and one whose JSON does not parse, go through as they
    are (an empty one as "Unknown error occurred"); from a parsed object the
    nested [error.message] is taken, before a [message] at the top, and the
    raw message stays when the object has neither. *)
Theorem catch_message_cases :
  forall message : jsstring,
    let raw := str_or message (lit "Unknown error occurred") in
    let jsonStr := match extract_braces raw with
                   | Some j => j
                   | None => raw
                   end in
    (includes_char 123 raw || includes_char 91 raw = false ->
     catch_message JSON_parse ToString message = raw)
    /\ (JSON_parse jsonStr = None ->
        catch_message JSON_parse ToString message = raw)
    /\ (forall fields,
           includes_char 123 raw || includes_char 91 raw = true ->
           JSON_parse jsonStr = Some (Obj fields) ->
           (forall inner m,
               lookup (lit "error") fields = Obj inner ->
               lookup (lit "message") inner = Str m -> m <> [] ->
               catch_message JSON_parse ToString message = m)
           /\ (forall m,
                  lookup (lit "error") fields = Undefined ->
                  lookup (lit "message") fields = Str m -> m <> [] ->
                  catch_message JSON_parse ToString message = m)
           /\ (lookup (lit "error") fields = Undefined ->
               lookup (lit "message") fields = Undefined ->
               catch_message JSON_parse ToString message = raw)).
Proof.
  intros message raw jsonStr. unfold catch_message. fold raw. fold jsonStr.
  split; [|split].
  - intros ->. reflexivity.
  - intros ->. destruct (includes_char 123 raw || includes_char 91 raw);
      reflexivity.
  - intros fields -> ->. cbn [get]. split; [|split].
    + intros inner m -> Hm Hne. cbn [get]. rewrite Hm.
      destruct m; [congruence | reflexivity].
    + intros m -> Hm Hne. rewrite Hm. cbn [truthy].
      destruct m; [congruence | reflexivity].
    + intros -> ->. reflexivity.
Qed.

Lemma upto_last_close_none (s : jsstring) :
  upto_last_close s = None <-> includes_char 125 s = false.
Proof.
  unfold includes_char. induction s as [|c s IH]; cbn [upto_last_close existsb].
  - tauto.
  - destruct (upto_last_close s) as [p|].
    + split; [discriminate|]. intros H. apply orb_false_iff in H.
      destruct H as [_ H]. apply IH in H. discriminate.
    + rewrite (proj1 IH eq_refl), orb_false_r, (N.eqb_sym c 125).
      destruct (N.eqb 125 c); split; congruence.
Qed.

Lemma upto_last_close_spec (s p : jsstring) :
  upto_last_close s = Some p <->
  exists mid post,
    s = mid ++ [125%N] ++ post /\ p = mid ++ [125%N]
    /\ includes_char 125 post = false.
Proof.
  split.
  - revert p. induction s as [|c s IH]; intros p; cbn [upto_last_close];
      [discriminate|].
    destruct (upto_last_close s) as [q|] eqn:E.
    + intros H. injection H as <-.
      destruct (IH q eq_refl) as (mid & post & -> & -> & Hp).
      exists (c :: mid), post. auto.
    + destruct (N.eqb_spec c 125) as [->|]; [|discriminate].
      intros H. injection H as <-. exists [], s.
      apply upto_last_close_none in E. auto.
  - intros (mid & post & -> & -> & Hp).
    induction mid as [|c mid IH]; cbn [app upto_last_close].
    + rewrite (proj2 (upto_last_close_none post) Hp). reflexivity.
    + cbn [app] in IH. rewrite IH. reflexivity.
Qed.

(** X6.  The text handed to [JSON.parse] when the message holds a braced
    part: it runs from the first opening brace to the last closing brace
    after it, and there is none exactly when no closing brace follows the
    first opening one. *)
Theorem extract_braces_spec :
  forall s j : jsstring,
    extract_braces s = Some j <->
    exists before mid after,
      s = before ++ [123%N] ++ mid ++ [125%N] ++ after
      /\ j = [123%N] ++ mid ++ [125%N]
      /\ includes_char 123 before = false
      /\ includes_char 125 after = false.
Proof.
  intros s j. split.
  - revert j. induction s as [|c s IH]; intros j; cbn [extract_braces];
      [discriminate|].
    destruct (N.eqb_spec c 123) as [->|Hc].
    + destruct (upto_last_close s) as [p|] eqn:E; [|discriminate].
      intros H. injection H as <-.
      apply upto_last_close_spec in E.
      destruct E as (mid & post & -> & -> & Hp).
      exists [], mid, post. auto.
    + intros H. destruct (IH j H) as (pre & mid & post & -> & -> & H1 & H2).
      exists (c :: pre), mid, post. repeat split; auto.
      unfold includes_char in *. cbn [existsb]. rewrite H1, orb_false_r.
      apply N.eqb_neq. congruence.
  - intros (pre & mid & post & -> & -> & H1 & H2).
    induction pre as [|c pre IH]; cbn [app extract_braces].
    + rewrite N.eqb_refl.
      rewrite (proj2 (upto_last_close_spec (mid ++ 125%N :: post)
                        (mid ++ [125%N]))); [reflexivity|].
      exists mid, post. auto.
    + unfold includes_char in H1. cbn [existsb] in H1.
      apply orb_false_iff in H1. destruct H1 as [Hc H1].
      rewrite N.eqb_sym, Hc. apply IH. exact H1.
Qed.

End RequestClientMore.

Lemma generateImage_reference_cap_witness :
  let refs := [lit "data:image/jpeg;base64,UkVG"; lit "plain text";
               lit "data:image/png;base64,T1dM"] in
  let r := GeminiService.mkRequest (lit "gemini-3-pro-image-preview")
             [GeminiService.TextPart (lit "a red fox");
              GeminiService.InlineData (lit "image/jpeg") (lit "UkVG")]
             (Some (GeminiService.mkImageConfig (lit "1K") (lit "1:1"))) in
  (exists images,
      GeminiService.contents r
      = GeminiService.TextPart (lit "a red fox") :: images
      /\ (List.length images <= 2)%nat
      /\ forall p, In p images ->
           exists mime data img,
             p = GeminiService.InlineData mime data
             /\ In img (firstn 2 refs)
             /\ GeminiService.match_data_url img = Some (mime, data))
  /\ GeminiService.generateImage (fun _ => None) (fun _ => [])
       (Some (lit "key")) (lit "a red fox") refs (lit "1K") (lit "1:1")
       (fun _ => Throw [])
     = GeminiService.generateImage (fun _ => None) (fun _ => [])
         (Some (lit "key")) (lit "a red fox") (firstn 2 refs) (lit "1K")
         (lit "1:1") (fun _ => Throw []).
Proof.
  cbv zeta.
  apply (generateImage_reference_cap (fun _ => None) (fun _ => [])
           (Some (lit "key")) (lit "a red fox")
           [lit "data:image/jpeg;base64,UkVG"; lit "plain text";
            lit "data:image/png;base64,T1dM"]
           (lit "1K") (lit "1:1") (fun _ => Throw [])).
  left. reflexivity.
Defined.

Lemma missing_key_fails_fast_witness :
  GeminiService.generateImage (fun _ => None) (fun _ => []) (Some [])
    (lit "a red fox") [] (lit "1K") (lit "1:1")
    (fun _ => Return None)
  = (Throw (lit "API Key not found in environment variables"), [])
  /\ GeminiService.editImage (fun _ => None) (fun _ => []) (Some [])
       (lit "a red fox") (lit "data:image/png;base64,Rk9Y")
       (fun _ => Return None)
     = (Throw (lit "API Key not found in environment variables"), []).
Proof.
  apply (missing_key_fails_fast (fun _ => None) (fun _ => []) (Some [])
           (lit "a red fox") [] (lit "1K") (lit "1:1")
           (lit "data:image/png;base64,Rk9Y") (fun _ => Return None)).
  right. reflexivity.
Defined.

Lemma data_url_round_trip_witness :
  GeminiService.match_data_url (lit "data:image/png;base64,Rk9Y")
  = Some (lit "image/png", lit "Rk9Y").
Proof.
  apply (data_url_round_trip (lit "image/png") (lit "Rk9Y"));
    try discriminate; reflexivity.
Defined.

(** The pattern is greedy: a payload that holds the marker again is not
    given back as it was put in. *)
Example data_url_greedy_split :
  GeminiService.match_data_url (lit "data:a;base64,b;base64,c")
  = Some (lit "a;base64,b", lit "c").
Proof. reflexivity. Qed.

Lemma read_response_precedence_witness :
  GeminiService.read_response (lit "Generation failed")
    (Some ([GeminiService.mkRpart None (Some (lit "Here is your image"))]
           ++ GeminiService.mkRpart (Some (None, Some (lit "Rk9Y"))) None
           :: []))
  = Return (lit "data:image/png;base64,Rk9Y")
  /\ GeminiService.read_response (lit "Generation failed")
       (Some ([GeminiService.mkRpart None None]
              ++ GeminiService.mkRpart (Some (Some (lit "image/png"), Some []))
                   (Some (lit "I cannot draw that"))
              :: []))
     = Throw (lit "I cannot draw that").
Proof.
  split.
  - apply (proj1 (read_response_precedence (lit "Generation failed")
                    [GeminiService.mkRpart None (Some (lit "Here is your image"))]
                    []
                    (GeminiService.mkRpart (Some (None, Some (lit "Rk9Y"))) None))
             None (lit "Rk9Y")).
    + repeat constructor.
    + reflexivity.
    + discriminate.
  - apply (proj1 (proj2
             (read_response_precedence (lit "Generation failed")
                [GeminiService.mkRpart None None] []
                (GeminiService.mkRpart (Some (Some (lit "image/png"), Some []))
                   (Some (lit "I cannot draw that")))))
             (lit "I cannot draw that")).
    + repeat constructor.
    + repeat constructor.
    + reflexivity.
    + discriminate.
Defined.

Lemma catch_message_cases_witness :
  GeminiService.catch_message
    (fun _ => Some (Obj [(lit "error",
                          Obj [(lit "code", Num 429);
                               (lit "message", Str (lit "quota exceeded"))])]))
    (fun _ => []) (lit "got status: 429 {x} ")
  = lit "quota exceeded".
Proof.
  refine (proj1 (proj2 (proj2
            (catch_message_cases
               (fun _ => Some (Obj [(lit "error",
                                     Obj [(lit "code", Num 429);
                                          (lit "message",
                                           Str (lit "quota exceeded"))])]))
               (fun _ => []) (lit "got status: 429 {x} ")))
            _ eq_refl eq_refl) _ _ eq_refl eq_refl _).
  discriminate.
Defined.

(** ** The store behind the history *)

Section StoreFacts.

Import Types HistoryStore Vocabulary.

(** X7.  What [saveHistoryToDB] wrote is what [getHistoryFromDB] reads,
    record for record, whatever the store held before and whatever the time
    of the read: a saved history is never taken for a legacy one.  A store
    that was cleared or never written gives the empty list, and so does a
    read whose database cannot be opened or whose request fails; a read
    whose transaction throws gives no list at all, the call rejects with
    what was thrown.  A legacy list is upgraded once: after the upgraded
    records were saved, a later read gives them back with the time stamps
    of the upgrade. *)
Theorem store_round_trip :
  forall (now now' : nat -> Z) (items : list GeneratedImage)
         (urls : list jsstring) (st : store) (message : jsstring),
    load now None (saveHistoryToDB true items st)
    = Return (encode_history items)
    /\ load now None (clear true st) = Return (Arr [])
    /\ load now None None = Return (Arr [])
    /\ load now (Some OpenFails) st = Return (Arr [])
    /\ load now (Some RequestFails) st = Return (Arr [])
    /\ load now (Some (ExecutorFails message)) st = Throw message
    /\ load now' None
         (saveHistoryToDB true (firstn 10 (legacy_records now 0 urls))
            (Some (Arr (map Str urls))))
       = Return (encode_history (firstn 10 (legacy_records now 0 urls)))
    /\ load now None (Some (Arr (map Str urls)))
       = Return (encode_history (legacy_records now 0 urls)).
Proof.
  intros now now' items urls st message.
  assert (Hsaved : forall n l, load n None (Some (encode_history l))
                               = Return (encode_history l)).
  { intros n l. unfold load, read, getHistoryFromDB.
    rewrite saved_history_loads_unchanged. reflexivity. }
  repeat split.
  - apply Hsaved.
  - apply Hsaved.
  - unfold load, read, getHistoryFromDB. f_equal.
    destruct urls as [|u urls]; [reflexivity|].
    unfold onsuccess, encode_history.
    change (map Str (u :: urls)) with (Str u :: map Str urls).
    cbn [truthy]. rewrite <- migrate_from_strings. reflexivity.
Qed.

End StoreFacts.

(** ** The controller: staging, edit sessions, the history *)

Section ControllerMore.

Import Types Vocabulary TextGenerator.

Variable t : string -> jsstring.

Ltac unfold_all :=
  unfold handleCtrlEnter, handleEscape, attemptCloseSidebar, executeEdit,
    handleGenerate, handleGenerate_resolved, executeEdit_resolved,
    load_resolved, handleEdit, handlePreview, handleDownload,
    handleRemoveImage, handleClearClick, confirmClearHistory,
    handleDeleteClick, confirmDelete, timer_fired, generate_disabled,
    edit_disabled, shown in *.

Ltac split_matches :=
  repeat match goal with
    | |- context [match ?x with _ => _ end] =>
        lazymatch x with
        | context [match _ with _ => _ end] => fail
        | _ => destruct x eqn:?; cbn in *
        end
    | |- context [if ?x then _ else _] =>
        lazymatch x with
        | context [match _ with _ => _ end] => fail
        | _ => destruct x eqn:?; cbn in *
        end
    end.

Ltac per_event e s :=
  destruct e;
  try match goal with
    | |- context [handle _ (FileChange ?files) _] =>
        let H := fresh "Hframe" in
        pose proof (handleFileChange_frame t files s) as H;
        cbn [handle] in *; cbv zeta in H;
        destruct H as (? & ? & ? & ? & ? & ?)
    end;
  cbn [handle] in *; unfold_all.

Lemma step_field {A} (f : State -> A) (s : State) (e : event) :
  (forall x, f (setShowWarningToast false x) = f x) ->
  f (fst (step t s e)) = f (fst (handle t e s)).
Proof.
  intros Hf. rewrite (proj1 (step_handle t s e)).
  destruct (commit_state s (fst (handle t e s))) as [-> | ->]; auto.
Qed.

(** *** The staging list *)

Lemma remove_index_split {A} (index : nat) (l : list A) :
  remove_index index l = firstn index l ++ skipn (S index) l.
Proof.
  revert index; induction l as [|x l IH]; intros [|i]; cbn; try reflexivity.
  - f_equal. rewrite IH. destruct l; reflexivity.
Qed.

(** X8.  Removing a staged image by its index takes out the entry at that
    position and keeps the others in their order; an index past the end
    changes nothing. *)
Theorem handleRemoveImage_by_index :
  forall (s : State) (index : nat),
    let staged := uploadedImages (fst (step t s (ClickRemoveUpload index))) in
    staged = firstn index (uploadedImages s)
             ++ skipn (S index) (uploadedImages s)
    /\ ((List.length (uploadedImages s) <= index)%nat ->
        staged = uploadedImages s)
    /\ ((index < List.length (uploadedImages s))%nat ->
        S (List.length staged) = List.length (uploadedImages s)
        /\ nth_error staged index = nth_error (uploadedImages s) (S index)).
Proof.
  intros s index staged.
  assert (E : staged = firstn index (uploadedImages s)
                       ++ skipn (S index) (uploadedImages s)).
  { unfold staged. rewrite step_uploadedImages. cbn [handle].
    unfold handleRemoveImage. cbn. apply remove_index_split. }
  split; [exact E|]. split.
  - intros Hlen. rewrite E, firstn_all2 by assumption.
    rewrite skipn_all2 by lia. apply app_nil_r.
  - intros Hlt. rewrite E. split.
    + rewrite length_app, length_firstn, length_skipn. lia.
    + rewrite nth_error_app2 by (rewrite length_firstn; lia).
      rewrite length_firstn, Nat.min_l by lia.
      rewrite Nat.sub_diag, nth_error_skipn. f_equal. lia.
Qed.

Lemma in_firstn {A} (n : nat) (l : list A) (x : A) :
  In x (firstn n l) -> In x l.
Proof.
  intros H. rewrite <- (firstn_skipn n l). apply in_app_iff. left. exact H.
Qed.

Lemma process_files_results (files : list file) (s : State) :
  forall u, In u (snd (process_files t files s)) ->
            exists f, In f files /\ (file_size f <= 10 * 1024 * 1024)%N
                      /\ compressed f = Return u.
Proof.
  revert s; induction files as [|f files IH]; intros s u; cbn [process_files].
  - intros [].
  - destruct (N.ltb_spec (10 * 1024 * 1024) (file_size f)) as [Hbig|Hok].
    + specialize (IH (setShowErrorToast true
                        (setError (Some (t "fileTooLarge")) s)) u).
      destruct (process_files t files _) as [[s' fx] res]. cbn [snd] in *.
      intros Hin. destruct (IH Hin) as (f' & Hf & Hs & Hc).
      exists f'. split; [right|]; auto.
    + destruct (compressed f) as [u0|m] eqn:Hc.
      * specialize (IH s u).
        destruct (process_files t files s) as [[s' fx] res]. cbn [snd] in *.
        intros [<-|Hin].
        -- exists f. split; [left; reflexivity|]. auto.
        -- destruct (IH Hin) as (f' & Hf & Hs & Hc').
           exists f'. split; [right|]; auto.
      * specialize (IH (setShowErrorToast true
                          (setError (Some (lit "Image processing failed")) s)) u).
        destruct (process_files t files _) as [[s' fx] res]. cbn [snd] in *.
        intros Hin. destruct (IH Hin) as (f' & Hf & Hs & Hc').
        exists f'. split; [right|]; auto.
Qed.

(** [handleFileChange] cuts what it stages to two entries. *)
Lemma handleFileChange_length (files : list file) (s : State) :
  (List.length (uploadedImages s) <= 2)%nat ->
  (List.length (uploadedImages (fst (handleFileChange t files s))) <= 2)%nat.
Proof.
  intros Hs. unfold handleFileChange.
  destruct (2 <=? List.length (uploadedImages s))%nat; [exact Hs|].
  destruct files as [|f files]; [exact Hs|].
  pose proof (process_files_frame t
                (firstn (2 - List.length (uploadedImages s)) (f :: files)) s)
    as Hframe.
  destruct (process_files t
              (firstn (2 - List.length (uploadedImages s)) (f :: files)) s)
    as [[s1 fx] [|r res]]; cbn [snd fst] in *.
  - destruct Hframe as (_ & _ & _ & _ & _ & Hup & _). rewrite Hup. exact Hs.
  - cbn [uploadedImages setUploadedImages].
    rewrite length_firstn. apply Nat.le_min_l.
Qed.

(** X9.  Whatever [handleFileChange] stages was staged before or is what
    the compression made of one of the given files, a file of at most 10 MB
    whose compression succeeded; the list never grows past two entries, and
    with two images staged the handler does nothing. *)
Theorem handleFileChange_stages_checked_files :
  forall (files : list file) (s : State),
    let s' := fst (handleFileChange t files s) in
    (forall u, In u (uploadedImages s') ->
               In u (uploadedImages s)
               \/ exists f, In f files
                            /\ (file_size f <= 10 * 1024 * 1024)%N
                            /\ compressed f = Return u)
    /\ ((List.length (uploadedImages s) <= 2)%nat ->
        (List.length (uploadedImages s') <= 2)%nat)
    /\ ((2 <= List.length (uploadedImages s))%nat ->
        handleFileChange t files s = (s, [])).
Proof.
  intros files s s'. subst s'. unfold handleFileChange.
  destruct (Nat.leb_spec 2 (List.length (uploadedImages s))) as [Hfull|Hroom].
  - cbn [fst]. repeat split; auto.
  - destruct files as [|f files]; [cbn [fst]; repeat split; auto; lia|].
    pose proof (process_files_frame t
                  (firstn (2 - List.length (uploadedImages s)) (f :: files)) s)
      as Hframe.
    pose proof (process_files_results
                  (firstn (2 - List.length (uploadedImages s)) (f :: files)) s)
      as Hres.
    destruct (process_files t
                (firstn (2 - List.length (uploadedImages s)) (f :: files)) s)
      as [[s1 fx] res].
    cbn [snd fst] in *.
    destruct Hframe as (_ & _ & _ & _ & _ & Hup & _).
    split; [|split].
    + intros u Hu. destruct res as [|r res].
      * left. rewrite <- Hup. exact Hu.
      * cbn [uploadedImages setUploadedImages] in Hu.
        apply in_firstn in Hu. apply in_app_iff in Hu.
        destruct Hu as [Hu|Hu]; [left; rewrite <- Hup; exact Hu|].
        right. destruct (Hres u Hu) as (f' & Hf & Hs & Hc).
        exists f'. split; [|auto].
        eapply in_firstn. eassumption.
    + intros _. destruct res as [|r res].
      * rewrite Hup. lia.
      * cbn [uploadedImages setUploadedImages].
        rewrite length_firstn. apply Nat.le_min_l.
    + intros Hge. lia.
Qed.

Lemma remove_index_length {A} (index : nat) (l : list A) :
  (List.length (remove_index index l) <= List.length l)%nat.
Proof.
  revert index; induction l as [|x l IH]; intros [|i]; cbn; auto.
  specialize (IH i). lia.
Qed.

Lemma handle_staging_bounded (e : event) (s : State) :
  (List.length (uploadedImages s) <= 2)%nat ->
  (List.length (uploadedImages (fst (handle t e s))) <= 2)%nat.
Proof.
  intros Hs.
  destruct e;
    try (apply handleFileChange_length; assumption);
    cbn [handle]; unfold_all; split_matches; try assumption; try (cbn; lia).
  etransitivity; [apply remove_index_length | assumption].
Qed.

(** X10.  From the mount on the staging list holds at most two images, and
    a call of [generateImage] carries at most two reference images. *)
Theorem staging_bounded :
  forall (events : list event) (s : State),
    (List.length (uploadedImages s) <= 2)%nat ->
    (List.length (uploadedImages (fst (run t s events))) <= 2)%nat
    /\ (forall prompt0 referenceImages resolution0 aspectRatio0,
           In (CallGenerateImage prompt0 referenceImages resolution0
                 aspectRatio0) (snd (run t s events)) ->
           (List.length referenceImages <= 2)%nat).
Proof.
  induction events as [|e events IH]; intros s Hs.
  - split; [assumption | intros ? ? ? ? []].
  - assert (Hs1 : (List.length (uploadedImages (fst (step t s e))) <= 2)%nat)
      by (rewrite step_uploadedImages; apply handle_staging_bounded;
          assumption).
    destruct (IH _ Hs1) as [IH1 IH2].
    rewrite (proj1 (run_cons t s e events)), (proj2 (run_cons t s e events)).
    split; [assumption|].
    intros p imgs r a Hin. apply in_app_iff in Hin.
    destruct Hin as [Hin|Hin]; [|eauto].
    rewrite (proj2 (step_handle t s e)) in Hin. apply in_app_iff in Hin.
    destruct Hin as [Hin|Hin].
    + revert Hin. clear -Hs.
      destruct e;
        try (intros Hin;
             destruct (handleFileChange_frame t files s)
               as (_ & _ & _ & _ & _ & Hf);
             destruct (timers_are_not _ _ Hf Hin) as (? & ? & ?);
             discriminate);
        cbn [handle]; unfold_all; split_matches;
        cbn; intuition (try discriminate);
        match goal with
        | H : CallGenerateImage _ _ _ _ = CallGenerateImage _ _ _ _ |- _ =>
            injection H as <- <- <- <-
        end; rewrite length_map; assumption.
    + exfalso. apply commit_no_generate in Hin. discriminate.
Qed.

(** *** Edit sessions *)

Lemma handle_no_edit_while_editing (e : event) (s : State) :
  isEditing s = true ->
  forall fx, In fx (snd (handle t e s)) -> is_edit_call fx = false.
Proof.
  intros He fx.
  destruct e;
    try (intros Hin;
         destruct (handleFileChange_frame t files s)
           as (_ & _ & _ & _ & _ & Hf);
         destruct (timers_are_not _ _ Hf Hin) as (? & ? & ->);
         reflexivity);
    cbn [handle]; unfold_all;
    rewrite ?He, ?orb_true_r, ?andb_false_r; cbn [negb andb orb];
    split_matches; cbn; intuition (subst; reflexivity).
Qed.

(** X11.  While an edit is in flight the edit trigger and Ctrl+Enter in the
    side bar change nothing and call nothing, and no event of the component
    makes a call of [editImage]. *)
Theorem edit_single_flight :
  forall s : State,
    isEditing s = true ->
    step t s ClickStartEdit = (s, [])
    /\ (isEditSidebarOpen s = true -> step t s KeyCtrlEnter = (s, []))
    /\ (forall e fx, In fx (snd (step t s e)) -> is_edit_call fx = false).
Proof.
  intros s He. split; [|split].
  - apply step_noop. cbn [handle]. unfold edit_disabled.
    rewrite He, orb_true_r, andb_false_r. reflexivity.
  - intros Ho. apply step_noop. cbn [handle]. unfold handleCtrlEnter.
    rewrite Ho, He, andb_false_r. reflexivity.
  - intros e fx. rewrite (proj2 (step_handle t s e)), in_app_iff.
    intros [H|H]; [eapply handle_no_edit_while_editing; eassumption|].
    revert H. unfold commit, loading_cleanup, loading_effect, save_effect.
    split_matches; cbn; intuition (subst; reflexivity).
Qed.

Lemma step_noop_state (s1 : State) (next : jsstring) :
  is_some (editingImage s1) = true ->
  fst (step t s1 (ChangeEditPrompt next)) = setEditPrompt next s1.
Proof.
  intros H. rewrite (proj1 (step_handle t s1 _)). cbn [handle]. rewrite H.
  cbn [fst]. unfold commit, loading_cleanup, loading_effect. cbn.
  rewrite Bool.eqb_reflx. reflexivity.
Qed.

(** X14.  A successful edit re-targets the session at the image it made,
    clears the edit prompt, puts the main inputs and the result back to
    their defaults and leaves the side bar as it was; the next edit started
    from there is a call of [editImage] on the new image. *)
Theorem edit_chains_on_result :
  forall (s : State) (editPrompt0 u next : jsstring)
         (previewImage0 : option GeneratedImage) (now : Z),
    let made := mkGeneratedImage u (lit "Edit: " ++ editPrompt0) now in
    let s1 := fst (step t s (EditResolved editPrompt0 previewImage0
                               (Return u) now)) in
    editingImage s1 = Some made /\ isEditing s1 = false
    /\ editPrompt s1 = [] /\ prompt s1 = [] /\ image s1 = None
    /\ resolution s1 = lit "1K" /\ aspectRatio s1 = lit "1:1"
    /\ uploadedImages s1 = []
    /\ isEditSidebarOpen s1 = isEditSidebarOpen s
    /\ previewImage s1
       = (if is_some previewImage0 then Some made else previewImage s)
    /\ (trim_truthy next = true ->
        snd (step t (fst (step t s1 (ChangeEditPrompt next))) ClickStartEdit)
        = [CallEditImage next u]).
Proof.
  intros s editPrompt0 u next previewImage0 now made s1.
  assert (Hs1 : s1 = fst (handle t (EditResolved editPrompt0 previewImage0
                                      (Return u) now) s)
                \/ s1 = setShowWarningToast false
                          (fst (handle t (EditResolved editPrompt0
                                            previewImage0 (Return u) now) s))).
  { unfold s1. rewrite (proj1 (step_handle t s _)). apply commit_state. }
  cbn [handle] in Hs1. unfold executeEdit_resolved in Hs1. cbn [fst] in Hs1.
  assert (Hfields :
            editingImage s1 = Some made /\ isEditing s1 = false
            /\ editPrompt s1 = [] /\ prompt s1 = [] /\ image s1 = None
            /\ resolution s1 = lit "1K" /\ aspectRatio s1 = lit "1:1"
            /\ uploadedImages s1 = []
            /\ isEditSidebarOpen s1 = isEditSidebarOpen s
            /\ previewImage s1
               = (if is_some previewImage0 then Some made else previewImage s)).
  { destruct Hs1 as [-> | ->]; destruct previewImage0;
      repeat split; reflexivity. }
  destruct Hfields as (H1 & H2 & H3 & H4 & H5 & H6 & H7 & H8 & H9 & H10).
  repeat (split; [assumption|]).
  intros Hnext.
  rewrite (proj2 (step_handle t _ ClickStartEdit)).
  rewrite (step_noop_state s1 next) by (rewrite H1; reflexivity).
  cbn [handle]. unfold edit_disabled, executeEdit.
  cbn [editingImage editPrompt isEditing setEditPrompt].
  rewrite H1, H2, Hnext. cbn [is_some negb orb andb snd fst url].
  unfold commit, loading_cleanup, loading_effect, save_effect. cbn.
  rewrite Bool.eqb_reflx, Nat.eqb_refl, Bool.eqb_reflx. reflexivity.
Qed.

(** X15.  A call that fails loses nothing: a failed generate leaves the
    history and the result as they were, a failed edit leaves the history,
    the target and the edit prompt of the session and keeps the side bar as
    it was; each ends its flag, records the message of the error (the
    translated fallback for an empty one), shows the error toast, and writes
    nothing to the store. *)
Theorem failure_keeps_results :
  forall (s : State) (prompt0 message : jsstring)
         (previewImage0 : option GeneratedImage) (now : Z),
    let sg := step t s (GenerateResolved prompt0 (Throw message) now) in
    let se := step t s (EditResolved prompt0 previewImage0 (Throw message) now) in
    (history (fst sg) = history s /\ image (fst sg) = image s
     /\ loading (fst sg) = false
     /\ error (fst sg) = Some (str_or message (t "errorGen"))
     /\ showErrorToast (fst sg) = true
     /\ forall fx, In fx (snd sg) -> is_save fx = false)
    /\ (history (fst se) = history s /\ editingImage (fst se) = editingImage s
        /\ editPrompt (fst se) = editPrompt s
        /\ isEditSidebarOpen (fst se) = isEditSidebarOpen s
        /\ previewImage (fst se) = previewImage s
        /\ isEditing (fst se) = false
        /\ error (fst se) = Some (str_or message (t "errorGen"))
        /\ showErrorToast (fst se) = true
        /\ forall fx, In fx (snd se) -> is_save fx = false).
Proof.
  intros s prompt0 message previewImage0 now sg se.
  assert (Hno : forall e,
             history_ref (fst (handle t e s)) = history_ref s ->
             isHistoryLoaded (fst (handle t e s)) = isHistoryLoaded s ->
             forall fx, In fx (snd (step t s e)) -> is_save fx = false).
  { intros e Hr Hl fx Hin.
    destruct (is_save fx) eqn:E; [|reflexivity].
    rewrite (proj2 (step_handle t s e)) in Hin. apply in_app_iff in Hin.
    destruct Hin as [Hin|Hin]; [apply (handle_no_save t) in Hin; congruence|].
    revert Hin. unfold commit, loading_cleanup, loading_effect, save_effect.
    rewrite Hr, Hl, Nat.eqb_refl, Bool.eqb_reflx. cbn [negb orb app].
    split_matches; cbn; intuition (subst; discriminate). }
  split.
  - unfold sg. rewrite (proj1 (step_handle t s _)).
    destruct (commit_state s
                (fst (handle t (GenerateResolved prompt0 (Throw message) now) s)))
      as [-> | ->];
      repeat split; try reflexivity; apply Hno; reflexivity.
  - unfold se. rewrite (proj1 (step_handle t s _)).
    destruct (commit_state s
                (fst (handle t (EditResolved prompt0 previewImage0
                                  (Throw message) now) s)))
      as [-> | ->];
      repeat split; try reflexivity; apply Hno; reflexivity.
Qed.

Lemma process_files_preview (files : list file) (s : State) :
  previewImage (fst (fst (process_files t files s))) = previewImage s.
Proof.
  revert s; induction files as [|f files IH]; intros s; cbn [process_files];
    [reflexivity|].
  destruct (_ <? file_size f)%N.
  - specialize (IH (setShowErrorToast true
                      (setError (Some (t "fileTooLarge")) s))).
    destruct (process_files t files _) as [[s' fx] res]. exact IH.
  - destruct (compressed f).
    + specialize (IH s).
      destruct (process_files t files s) as [[s' fx] res]. exact IH.
    + specialize (IH (setShowErrorToast true
                        (setError (Some (lit "Image processing failed")) s))).
      destruct (process_files t files _) as [[s' fx] res]. exact IH.
Qed.

(** X16.  While the side bar is open a preview that is shown stays shown:
    Escape goes to the side bar, the preview's own close controls are off,
    and no other event takes the preview down. *)
Theorem preview_kept_under_sidebar :
  forall (s : State) (e : event),
    isEditSidebarOpen s = true ->
    is_some (previewImage s) = true ->
    is_some (previewImage (fst (step t s e))) = true.
Proof.
  intros s e Ho Hp.
  rewrite (step_field previewImage s e (fun x => eq_refl)).
  destruct e;
    try (cbn [handle]; unfold handleFileChange;
         destruct (2 <=? List.length (uploadedImages s))%nat; [assumption|];
         destruct files; [assumption|];
         pose proof (process_files_preview
                       (firstn (2 - List.length (uploadedImages s)) (f :: files))
                       s) as Hf;
         destruct (process_files t _ s) as [[s1 fx] res];
         cbn [fst] in *; destruct res; cbn; congruence);
    cbn [handle]; unfold_all; rewrite ?Ho; cbn [negb andb orb];
    rewrite ?andb_false_r;
    split_matches; try assumption; try reflexivity; try congruence;
    match goal with
    | H : previewImage s = Some _ |- _ => rewrite H; reflexivity
    end.
Qed.

(** X17.  The completion of the load: a stored history that is not empty
    replaces the one in memory, cut to ten entries; an empty one leaves the
    history in memory; either way the component is loaded from then on and
    the first thing it does is write the history it now holds back to the
    store, and nothing else. *)
Theorem load_writes_back :
  forall (s : State) (savedItems : list GeneratedImage),
    isHistoryLoaded s = false ->
    let r := step t s (LoadResolved savedItems) in
    history (fst r) = match savedItems with
                      | [] => history s
                      | _ => firstn 10 savedItems
                      end
    /\ isHistoryLoaded (fst r) = true
    /\ snd r = [CallSaveHistoryToDB (history (fst r))].
Proof.
  intros s saved Hl r. unfold r.
  rewrite step_history, step_isHistoryLoaded.
  rewrite (proj2 (step_handle t s _)).
  cbn [handle]. unfold load_resolved. cbn [fst snd app].
  unfold commit, loading_cleanup, loading_effect, save_effect.
  destruct saved as [|g saved]; cbn; rewrite Hl, Bool.eqb_reflx; cbn;
    rewrite ?orb_true_r; repeat split; reflexivity.
Qed.

(** X18.  The history changes with five events only: a generate or an edit
    that succeeded, the completion of the load, a confirmed clear and a
    confirmed delete.  Every other event, a declined dialog among them,
    leaves the history and its array as they were and asks nothing of the
    store. *)
Theorem history_changed_only_by :
  forall (s : State) (e : event),
    success_image e = None -> is_load e = false ->
    e <> ConfirmClear -> e <> ConfirmDelete ->
    history (fst (step t s e)) = history s
    /\ history_ref (fst (step t s e)) = history_ref s
    /\ (forall fx, In fx (snd (step t s e)) ->
                   is_save fx = false /\ fx <> ClearStore).
Proof.
  intros s e Hsucc Hload Hclear Hdelete.
  assert (Hh : history (fst (handle t e s)) = history s
               /\ history_ref (fst (handle t e s)) = history_ref s
               /\ isHistoryLoaded (fst (handle t e s)) = isHistoryLoaded s
               /\ forall fx, In fx (snd (handle t e s)) -> fx <> ClearStore).
  { destruct e; try discriminate; try congruence;
      try (destruct (handleFileChange_frame t files s)
             as (H1 & H2 & H3 & _ & _ & Hf);
           cbn [handle]; repeat split; try assumption;
           intros fx Hin ->;
           destruct (timers_are_not _ _ Hf Hin) as (? & ? & ?); discriminate);
      cbn [handle]; unfold_all;
      try (destruct result; try discriminate);
      split_matches; repeat split; try reflexivity;
      cbn; intuition (subst; discriminate). }
  destruct Hh as (H1 & H2 & H3 & H4).
  rewrite step_history, step_history_ref. split; [assumption|].
  split; [assumption|].
  intros fx Hin. rewrite (proj2 (step_handle t s e)) in Hin.
  apply in_app_iff in Hin. destruct Hin as [Hin|Hin].
  - split; [eapply handle_no_save; eassumption | auto].
  - revert Hin. unfold commit, loading_cleanup, loading_effect, save_effect.
    rewrite H2, H3, Nat.eqb_refl, Bool.eqb_reflx. cbn [negb orb app].
    split_matches; cbn; intuition (subst; try reflexivity; discriminate).
Qed.

End ControllerMore.

(** ** The controller wired to the request client *)

Section WiringFacts.

Import Types Vocabulary TextGenerator Studio.

Variable t : string -> jsstring.
Variable JSON_parse : jsstring -> option value.
Variable ToString : value -> jsstring.

Lemma generate_enabled (s : State) :
  generate_disabled s = false ->
  trim_truthy (prompt s) = true /\ loading s = false.
Proof.
  unfold generate_disabled. intros H.
  apply orb_false_iff in H. destruct H as [H Hl].
  apply orb_false_iff in H. destruct H as [H _].
  apply negb_false_iff in H. auto.
Qed.

Lemma step_click_generate (s : State) :
  generate_disabled s = false ->
  step t s ClickGenerate
  = (setShowErrorToast false (setError None (setLoading true s)),
     [CallGenerateImage (prompt s) (map up_url (uploadedImages s))
        (resolution s) (aspectRatio s);
      SetTimeout ShowBusyWarning 30000]).
Proof.
  intros H. destruct (generate_enabled s H) as [Ht Hl].
  unfold step. cbn [handle]. rewrite H. unfold handleGenerate. rewrite Ht.
  cbn [negb]. unfold commit, loading_cleanup, loading_effect, save_effect. cbn.
  rewrite Hl, Nat.eqb_refl, Bool.eqb_reflx. reflexivity.
Qed.

(** X19.  A generate with no API key in the environment, from the click to
    the settled call: nothing is sent to the remote service, the error of
    the missing key is what the form shows, the loading flag is down again,
    and the history and the result are as they were. *)
Theorem generate_without_key :
  forall apiKey remote (now : Z) (s : State),
    apiKey = None \/ apiKey = Some [] ->
    generate_disabled s = false ->
    let r := generate_and_settle t JSON_parse ToString apiKey remote now s in
    snd r = []
    /\ error (fst r)
       = Some (lit "API Key not found in environment variables")
    /\ showErrorToast (fst r) = true /\ loading (fst r) = false
    /\ history (fst r) = history s /\ image (fst r) = image s.
Proof.
  intros apiKey remote now s Hkey Hen r. subst r.
  unfold generate_and_settle. rewrite (step_click_generate s Hen).
  rewrite (generateImage_without_client JSON_parse ToString apiKey (prompt s)
             (map up_url (uploadedImages s)) (resolution s) (aspectRatio s)
             remote Hkey).
  cbn [snd]. split; [reflexivity|].
  match goal with |- context [step t ?s1 ?e] =>
    rewrite (proj1 (step_handle t s1 e));
    destruct (commit_state s1 (fst (handle t e s1))) as [-> | ->]
  end; repeat split; reflexivity.
Qed.

(** X20.  A generate that succeeds, from the click to the settled call:
    one request is sent, with the prompt, the staged images that are data
    URLs, the resolution and the clamped ratio; the image read from the
    answer becomes the result and the head of the history, stamped with the
    prompt and the time, the history is cut to ten, and the staged images
    stay. *)
Theorem generate_end_to_end :
  forall c key remote (now : Z) (s : State) resp u,
    generate_disabled s = false ->
    let req :=
      GeminiService.mkRequest (lit "gemini-3-pro-image-preview")
        (GeminiService.TextPart (prompt s)
         :: GeminiService.image_parts
              (firstn 2 (map up_url (uploadedImages s))))
        (Some (GeminiService.mkImageConfig (resolution s)
                 (GeminiService.finalAspectRatio (aspectRatio s)))) in
    remote req = Return resp ->
    GeminiService.read_response (lit "Generation failed") resp = Return u ->
    let r := generate_and_settle t JSON_parse ToString (Some (c :: key))
               remote now s in
    let made := mkGeneratedImage u (prompt s) now in
    snd r = [req]
    /\ image (fst r) = Some made
    /\ history (fst r) = firstn 10 (made :: history s)
    /\ loading (fst r) = false /\ error (fst r) = None
    /\ showGenSuccessToast (fst r) = true
    /\ uploadedImages (fst r) = uploadedImages s.
Proof.
  intros c key remote now s resp u Hen req Hremote Hread r made. subst r.
  unfold generate_and_settle. rewrite (step_click_generate s Hen).
  unfold GeminiService.generateImage, GeminiService.generateImage_request,
    GeminiService.run_call.
  cbn [GeminiService.getClient]. fold req. rewrite Hremote, Hread.
  cbn [GeminiService.rethrow snd]. split; [reflexivity|].
  match goal with |- context [step t ?s1 ?e] =>
    rewrite (proj1 (step_handle t s1 e));
    destruct (commit_state s1 (fst (handle t e s1))) as [-> | ->]
  end; repeat split; reflexivity.
Qed.

(** X21.  Every ratio the form offers is sent as it was chosen.  Of the six
    ratios the generator node of the pipeline offers, 2:3 is not among the
    accepted ones: a run with it is sent with 1:1, the five others go
    through. *)
Theorem offered_ratios_dispatch :
  forall r : jsstring,
    (In r TextGenerator.ratios -> GeminiService.finalAspectRatio r = r)
    /\ (In r WorkflowEditor.ratios ->
        GeminiService.finalAspectRatio r
        = (if eqb r (lit "2:3") then lit "1:1" else r)).
Proof.
  intros r. split; intros H; cbn in H;
    repeat (destruct H as [<-|H]; [reflexivity|]); destruct H.
Qed.

End WiringFacts.

Section MoreScenarios.

Import Types Vocabulary TextGenerator Studio Samples.

Lemma handleRemoveImage_by_index_witness :
  uploadedImages (fst (step t_key staged_two (ClickRemoveUpload 5)))
  = uploadedImages staged_two
  /\ S (List.length
          (uploadedImages (fst (step t_key staged_two (ClickRemoveUpload 0)))))
     = List.length (uploadedImages staged_two).
Proof.
  split.
  - apply (proj1 (proj2 (handleRemoveImage_by_index t_key staged_two 5))).
    cbn. lia.
  - apply (proj2 (proj2 (handleRemoveImage_by_index t_key staged_two 0))).
    cbn. lia.
Defined.

Lemma handleFileChange_stages_checked_files_witness :
  let u := mkUploadedImage (lit "data:image/jpeg;base64,UkVG") (lit "2 KB") in
  In u (uploadedImages (fst (handleFileChange t_key [oversized; reference]
                               initial)))
  /\ (In u (uploadedImages initial)
      \/ exists f, In f [oversized; reference]
                   /\ (file_size f <= 10 * 1024 * 1024)%N
                   /\ compressed f = Return u).
Proof.
  cbv zeta. split; [left; reflexivity|].
  apply (proj1 (handleFileChange_stages_checked_files t_key
                  [oversized; reference] initial)).
  left. reflexivity.
Defined.

(** The file over the limit is reported and not staged. *)
Example oversized_file_is_reported :
  let s := fst (handleFileChange t_key [oversized] initial) in
  uploadedImages s = [] /\ error s = Some (lit "fileTooLarge")
  /\ showErrorToast s = true.
Proof. repeat split. Qed.

Lemma staging_bounded_witness :
  (List.length
     (uploadedImages
        (fst (run t_key initial
                [FileChange [reference; reference; reference];
                 FileChange [reference]]))) <= 2)%nat.
Proof.
  apply (staging_bounded t_key
           [FileChange [reference; reference; reference];
            FileChange [reference]] initial).
  cbn. lia.
Defined.

Lemma edit_single_flight_witness :
  isEditing editing_owl = true
  /\ step t_key editing_owl ClickStartEdit = (editing_owl, [])
  /\ (isEditSidebarOpen editing_owl = true ->
      step t_key editing_owl KeyCtrlEnter = (editing_owl, []))
  /\ (forall e fx, In fx (snd (step t_key editing_owl e)) ->
                   is_edit_call fx = false).
Proof.
  split; [reflexivity|].
  apply (edit_single_flight t_key editing_owl). reflexivity.
Defined.

Lemma generate_at_most_one_in_flight_witness :
  let events := [ChangePrompt (lit "a red fox"); ClickGenerate; ClickGenerate;
                 KeyCtrlEnter; success 2; KeyCtrlEnter] in
  exists s' pending',
    in_flight t_key initial 0 events = Some (s', pending')
    /\ (pending' <= 1)%nat /\ (loading s' = true <-> pending' = 1%nat).
Proof.
  cbv zeta. eexists. eexists. split; [vm_compute; reflexivity|].
  apply (generate_at_most_one_in_flight t_key
           [ChangePrompt (lit "a red fox"); ClickGenerate; ClickGenerate;
            KeyCtrlEnter; success 2; KeyCtrlEnter] initial _ 0%nat).
  - lia.
  - cbn. split; discriminate.
  - vm_compute. reflexivity.
Defined.

Lemma editing_session_stays_open_witness :
  isEditSidebarOpen (fst (step t_key editing_owl KeyEscape)) = true.
Proof.
  apply (editing_session_stays_open t_key editing_owl KeyEscape); reflexivity.
Defined.

Lemma edit_chains_on_result_witness :
  snd (step t_key
         (fst (step t_key
                 (fst (step t_key editing_owl
                         (EditResolved (lit "make it blue") None
                            (Return (lit "data:image/png;base64,QkxVRQ=="))
                            1700000001000%Z)))
                 (ChangeEditPrompt (lit "add snow"))))
         ClickStartEdit)
  = [CallEditImage (lit "add snow") (lit "data:image/png;base64,QkxVRQ==")].
Proof.
  apply (edit_chains_on_result t_key editing_owl (lit "make it blue")
           (lit "data:image/png;base64,QkxVRQ==") (lit "add snow") None
           1700000001000%Z).
  reflexivity.
Defined.

Lemma failure_keeps_results_witness :
  history (fst (step t_key deleting_fox
                  (GenerateResolved (lit "a red fox") (Throw []) 1%Z)))
  = [owl; twin; fox]
  /\ error (fst (step t_key deleting_fox
                   (GenerateResolved (lit "a red fox") (Throw []) 1%Z)))
     = Some (lit "errorGen").
Proof.
  destruct (failure_keeps_results t_key deleting_fox (lit "a red fox") [] None
              1%Z) as [(H1 & _ & _ & H4 & _) _].
  split; [exact H1 | exact H4].
Defined.

Lemma preview_kept_under_sidebar_witness :
  is_some (previewImage (fst (step t_key previewing_owl KeyEscape))) = true
  /\ is_some (previewImage (fst (step t_key previewing_owl ClickClosePreview)))
     = true.
Proof.
  split; apply (preview_kept_under_sidebar t_key previewing_owl); reflexivity.
Defined.

Lemma load_writes_back_witness :
  let r := step t_key
             (fst (step t_key initial (success 2)))
             (LoadResolved []) in
  List.length (history (fst r)) = 1%nat
  /\ snd r = [CallSaveHistoryToDB (history (fst r))].
Proof.
  cbv zeta.
  destruct (load_writes_back t_key (fst (step t_key initial (success 2))) []
              eq_refl) as (_ & _ & H).
  split; [reflexivity | exact H].
Defined.

Lemma history_changed_only_by_witness :
  history (fst (step t_key deleting_fox DismissDelete)) = history deleting_fox
  /\ history_ref (fst (step t_key deleting_fox DismissDelete))
     = history_ref deleting_fox
  /\ (forall fx, In fx (snd (step t_key deleting_fox DismissDelete)) ->
                 is_save fx = false /\ fx <> ClearStore).
Proof.
  apply (history_changed_only_by t_key deleting_fox DismissDelete);
    try reflexivity; discriminate.
Defined.

Lemma generate_without_key_witness :
  let r := generate_and_settle t_key (fun _ => None) (fun _ => []) None
             remote_fox 1700000000000%Z staged_two in
  snd r = []
  /\ error (fst r) = Some (lit "API Key not found in environment variables")
  /\ showErrorToast (fst r) = true /\ loading (fst r) = false
  /\ history (fst r) = history staged_two /\ image (fst r) = image staged_two.
Proof.
  apply (generate_without_key t_key (fun _ => None) (fun _ => []) None
           remote_fox 1700000000000%Z staged_two);
    [left|]; reflexivity.
Defined.

Lemma generate_end_to_end_witness :
  let r := generate_and_settle t_key (fun _ => None) (fun _ => [])
             (Some (lit "key")) remote_fox 1700000000000%Z staged_two in
  snd r
  = [GeminiService.mkRequest (lit "gemini-3-pro-image-preview")
       [GeminiService.TextPart (lit "a red fox");
        GeminiService.InlineData (lit "image/jpeg") (lit "UkVG")]
       (Some (GeminiService.mkImageConfig (lit "1K") (lit "1:1")))]
  /\ image (fst r) = Some fox /\ history (fst r) = [fox].
Proof.
  destruct (generate_end_to_end t_key (fun _ => None) (fun _ => [])
              107%N (lit "ey") remote_fox 1700000000000%Z staged_two
              (Some [GeminiService.mkRpart
                       (Some (Some (lit "image/png"), Some (lit "Rk9Y"))) None])
              (lit "data:image/png;base64,Rk9Y")
              eq_refl eq_refl eq_refl) as (H1 & H2 & H3 & _).
  cbv zeta. split; [exact H1|]. split; [exact H2 | exact H3].
Defined.

Lemma offered_ratios_dispatch_witness :
  GeminiService.finalAspectRatio (lit "21:9") = lit "21:9"
  /\ GeminiService.finalAspectRatio (lit "2:3") = lit "1:1".
Proof.
  split.
  - apply (proj1 (offered_ratios_dispatch (lit "21:9"))).
    cbn. do 5 right. left. reflexivity.
  - apply (proj2 (offered_ratios_dispatch (lit "2:3"))).
    cbn. right. left. reflexivity.
Defined.

End MoreScenarios.

(** ** The pipeline: inputs, runs, the refiner *)

Section PipelineMore.

Import WorkflowEditor Vocabulary.

Lemma last_cons {A} (a d : A) (l : list A) : last (a :: l) d = last l a.
Proof.
  revert a d; induction l as [|b l IH]; intros a d; [reflexivity|].
  change (last (a :: b :: l) d) with (last (b :: l) d).
  rewrite (IH b d), (IH b a). reflexivity.
Qed.

Lemma resolve_fold (currentNodes : list Node) (connectedEdges : list Edge) :
  forall prompt0 images0,
    fold_left (resolve_edge currentNodes) connectedEdges (prompt0, images0)
    = (last (flat_map (prompt_source currentNodes) connectedEdges) prompt0,
       images0 ++ flat_map (image_source currentNodes) connectedEdges).
Proof.
  induction connectedEdges as [|e es IH]; intros p0 i0; cbn [fold_left flat_map].
  - rewrite app_nil_r. reflexivity.
  - unfold resolve_edge at 2, prompt_source at 1, image_source at 1.
    destruct (find (fun n => eqb (id n) (source e)) currentNodes) as [n|].
    + destruct (eqb (type n) (lit "promptNode")).
      * cbn [snd app]. rewrite IH, last_cons. reflexivity.
      * destruct (eqb (type n) (lit "imageNode")).
        -- destruct (images (data n)) as [imgs|]; cbn [fst snd app].
           ++ rewrite IH, app_assoc. reflexivity.
           ++ rewrite IH. reflexivity.
        -- cbn [app]. rewrite IH. reflexivity.
    + cbn [app]. rewrite IH. reflexivity.
Qed.

(** X22.  How a run resolves its inputs from the edges that enter the
    generator, taken in their order: the prompt is the one of the last edge
    that comes from a prompt node (the empty prompt when there is none), the
    images are those of the image nodes, edge after edge; an edge from a
    node that is missing or of another kind contributes nothing. *)
Theorem resolve_inputs_last_prompt_wins :
  forall (currentNodes : list Node) (connectedEdges : list Edge),
    resolve_inputs currentNodes connectedEdges
    = (last (flat_map (prompt_source currentNodes) connectedEdges) (Some []),
       flat_map (image_source currentNodes) connectedEdges).
Proof.
  intros currentNodes connectedEdges. unfold resolve_inputs.
  rewrite resolve_fold. reflexivity.
Qed.

(** X23.  A run of the generator that reaches the request client makes one
    call: with a prompt that is not empty, with at most one image, the first
    of the resolved ones, and with the resolution and the ratio the
    generator node holds; before the call it sets the loading flag of the
    generator node and clears its error. *)
Theorem runGenerator_call_shape :
  forall (currentNodes : list Node) (currentEdges : list Edge)
         (nds : list Node) (c : call),
    In c (snd (runGenerator currentNodes currentEdges nds)) ->
    exists generatorNode prompt0 referenceImages,
      find (fun n => eqb (type n) (lit "generatorNode")) currentNodes
      = Some generatorNode
      /\ snd (runGenerator currentNodes currentEdges nds) = [c]
      /\ c = CallGenerateImage prompt0 referenceImages
               (resolution (data generatorNode))
               (aspectRatio (data generatorNode))
      /\ prompt0 <> []
      /\ (List.length referenceImages <= 1)%nat
      /\ referenceImages
         = firstn 1 (flat_map (image_source currentNodes)
                       (filter (fun e => eqb (target e) (id generatorNode))
                               currentEdges))
      /\ fst (runGenerator currentNodes currentEdges nds)
         = updateNodeData (id generatorNode)
             {| prompt := None; images := None; loading := Some true;
                resolution := None; aspectRatio := None; error := Some None;
                outputImage := None; image := None |} nds.
Proof.
  intros currentNodes currentEdges nds c. unfold runGenerator.
  destruct (find (fun n => eqb (type n) (lit "generatorNode")) currentNodes)
    as [g|]; [|intros []].
  unfold resolve_inputs. rewrite resolve_fold. cbn [app].
  cbv beta iota zeta.
  destruct (last (flat_map (prompt_source currentNodes)
                    (filter (fun e => eqb (target e) (id g)) currentEdges))
              (Some [])) as [[|ch p]|]; cbn [no_prompt snd fst];
    try (intros H; contradiction H).
  intros [<-|[]]. eexists g, (ch :: p), _.
  repeat split; try reflexivity; try discriminate.
  rewrite length_firstn. apply Nat.le_min_l.
Qed.

Lemma update_with_nth (target_id : jsstring) (f : NodeData -> NodeData)
    (nds : list Node) (i : nat) (node : Node) :
  nth_error nds i = Some node ->
  nth_error (update_with target_id f nds) i
  = Some (if eqb (id node) target_id then with_data node (f (data node))
          else node).
Proof.
  intros H. unfold update_with. rewrite nth_error_map, H. reflexivity.
Qed.

Lemma updateNodeData_nth (target_id : jsstring) (newData : NodeData)
    (nds : list Node) (i : nat) (node : Node) :
  nth_error nds i = Some node ->
  nth_error (updateNodeData target_id newData nds) i
  = Some (if eqb (id node) target_id
          then with_data node (spread (data node) newData) else node).
Proof.
  intros H. unfold updateNodeData. rewrite nth_error_map, H. reflexivity.
Qed.

Lemma set_output_twice result res ar (d : NodeData) :
  set_output result res ar (set_output result res ar d)
  = set_output result res ar d.
Proof. reflexivity. Qed.

(** A node under the [forEach] over the outgoing edges: it keeps its id and
    its kind, its data are as they were or hold the result, and they hold
    the result when one of the edges leads to an output node of its id. *)
Lemma propagate_fold_nth (currentNodes : list Node) (result : jsstring)
    (res ar : option jsstring) (outputEdges : list Edge) (i : nat) :
  forall (nds : list Node) (node : Node),
    nth_error nds i = Some node ->
    exists node',
      nth_error (fold_left (propagate_edge currentNodes result res ar)
                   outputEdges nds) i = Some node'
      /\ id node' = id node /\ type node' = type node
      /\ (data node' = data node
          \/ data node' = set_output result res ar (data node))
      /\ ((exists edge targetNode,
              In edge outputEdges
              /\ find (fun n => eqb (id n) (target edge)) currentNodes
                 = Some targetNode
              /\ type targetNode = lit "outputNode"
              /\ id targetNode = id node) ->
          data node' = set_output result res ar (data node)).
Proof.
  induction outputEdges as [|e es IH]; intros nds node Hn; cbn [fold_left].
  - exists node. repeat split; auto.
    intros (edge & tn & [] & _).
  - assert (Hstep : exists node1,
               nth_error (propagate_edge currentNodes result res ar nds e) i
               = Some node1
               /\ id node1 = id node /\ type node1 = type node
               /\ (data node1 = data node
                   \/ data node1 = set_output result res ar (data node))
               /\ (forall targetNode,
                      find (fun n => eqb (id n) (target e)) currentNodes
                      = Some targetNode ->
                      type targetNode = lit "outputNode" ->
                      id targetNode = id node ->
                      data node1 = set_output result res ar (data node))).
    { unfold propagate_edge.
      destruct (find (fun n => eqb (id n) (target e)) currentNodes) as [tn|].
      - destruct (eqb (type tn) (lit "outputNode")) eqn:Hty.
        + rewrite (update_with_nth _ _ _ _ _ Hn).
          destruct (eqb (id node) (id tn)) eqn:Hid.
          * eexists. split; [reflexivity|]. repeat split; auto.
          * eexists. split; [reflexivity|]. repeat split; auto.
            intros tn' H _ Hid'. injection H as <-.
            rewrite Hid', eqb_refl in Hid. discriminate.
        + exists node. repeat split; auto.
          intros tn' H Hty' _. injection H as <-.
          rewrite Hty', eqb_refl in Hty. discriminate.
      - exists node. repeat split; auto. intros tn' H. discriminate. }
    destruct Hstep as (node1 & Hn1 & Hid1 & Hty1 & Hd1 & Hhit1).
    destruct (IH _ _ Hn1) as (node' & Hn' & Hid' & Hty' & Hd' & Hhit').
    exists node'. split; [exact Hn'|].
    split; [congruence|]. split; [congruence|]. split.
    + destruct Hd' as [-> | ->]; destruct Hd1 as [-> | ->]; auto.
    + intros (edge & tn & [<-|Hin] & Hf & Hty & Hid).
      * rewrite (Hhit1 tn Hf Hty Hid) in Hd'.
        destruct Hd' as [-> | ->]; [reflexivity|].
        apply set_output_twice.
      * assert (E : data node' = set_output result res ar (data node1)).
        { apply Hhit'. exists edge, tn. repeat split; auto. congruence. }
        rewrite E. destruct Hd1 as [-> | ->]; reflexivity.
Qed.

(** X24.  A run that succeeded hands its result to the outputs: every node
    that carries the id of an output node reached by an edge out of the
    generator holds the image afterwards, together with the resolution and
    the ratio of the generator (as the refiner will read them); the
    generator node holds the image as its own output and is not loading any
    more. *)
Theorem generator_success_reaches_outputs :
  forall (currentNodes : list Node) (currentEdges : list Edge) (g : Graph)
         (result : jsstring) (generatorNode : Node) (i : nat) (node : Node),
    find (fun n => eqb (type n) (lit "generatorNode")) currentNodes
    = Some generatorNode ->
    nth_error (nodes g) i = Some node ->
    let g' := runGenerator_resolved currentNodes currentEdges (Return result)
                g in
    exists node',
      nth_error (nodes g') i = Some node'
      /\ id node' = id node /\ type node' = type node
      /\ ((exists edge targetNode,
              In edge currentEdges /\ source edge = id generatorNode
              /\ find (fun n => eqb (id n) (target edge)) currentNodes
                 = Some targetNode
              /\ type targetNode = lit "outputNode"
              /\ id targetNode = id node) ->
          image (data node') = Some (Some result)
          /\ resolution (data node') = resolution (data generatorNode)
          /\ aspectRatio (data node') = aspectRatio (data generatorNode))
      /\ (id node = id generatorNode ->
          outputImage (data node') = Some (Some result)
          /\ loading (data node') = Some false).
Proof.
  intros currentNodes currentEdges g result gen i node Hfind Hn g'.
  subst g'. unfold runGenerator_resolved. rewrite Hfind.
  destruct (propagate_fold_nth currentNodes result (resolution (data gen))
              (aspectRatio (data gen))
              (filter (fun e => eqb (source e) (id gen)) currentEdges)
              i (nodes g) node Hn)
    as (n1 & Hn1 & Hid1 & Hty1 & Hd1 & Hhit1).
  set (nds1 := fold_left _ _ (nodes g)) in *.
  set (out := {| prompt := None; images := None; loading := None;
                 resolution := None; aspectRatio := None; error := None;
                 outputImage := Some (Some result); image := None |}).
  set (fin := {| prompt := None; images := None; loading := Some false;
                 resolution := None; aspectRatio := None; error := None;
                 outputImage := None; image := None |}).
  pose proof (updateNodeData_nth (id gen) out nds1 i n1 Hn1) as Hn2.
  assert (Hn3 : forall extra,
             nth_error (updateNodeData (id gen) fin
                          (updateNodeData (id gen) out nds1 ++ extra)) i
             = Some (if eqb (id n1) (id gen)
                     then with_data n1
                            (spread (spread (data n1) out) fin)
                     else n1)).
  { intros extra.
    rewrite (updateNodeData_nth (id gen) fin _ i
               (if eqb (id n1) (id gen)
                then with_data n1 (spread (data n1) out) else n1)).
    - destruct (eqb (id n1) (id gen)) eqn:E; cbn [id with_data];
        rewrite E; reflexivity.
    - rewrite nth_error_app1; [exact Hn2|].
      apply nth_error_Some. rewrite Hn2. discriminate. }
  assert (Hhit : (exists edge targetNode,
                     In edge currentEdges /\ source edge = id gen
                     /\ find (fun n => eqb (id n) (target edge)) currentNodes
                        = Some targetNode
                     /\ type targetNode = lit "outputNode"
                     /\ id targetNode = id node) ->
                 data n1 = set_output result (resolution (data gen))
                             (aspectRatio (data gen)) (data node)).
  { intros (edge & tn & Hin & Hsrc & Hf & Hty & Hid).
    apply Hhit1. exists edge, tn. repeat split; auto.
    apply filter_In. split; [assumption|]. rewrite Hsrc. apply eqb_refl. }
  exists (if eqb (id n1) (id gen)
          then with_data n1 (spread (spread (data n1) out) fin) else n1).
  split.
  - destruct (existsb (fun n => eqb (id n) (lit "refine-1")) currentNodes);
      cbn [nodes].
    + rewrite <- (app_nil_r (updateNodeData (id gen) out nds1)). apply Hn3.
    + apply Hn3.
  - destruct (eqb (id n1) (id gen)) eqn:E; cbn [id type data with_data];
      repeat split; try assumption;
      try (match goal with
           | H : exists _, _ |- _ => rewrite (Hhit H); reflexivity
           end);
      try reflexivity;
      match goal with
      | H : id node = id gen |- _ =>
          rewrite Hid1, H, eqb_refl in E; discriminate
      end.
Qed.

(** X25.  A run that failed stays on the generator node: it gets the
    message of the error ("Generation failed" for an empty one) and is not
    loading any more; its other data, every node with another id and the
    edges are as they were, and no node is added. *)
Theorem generator_failure_is_local :
  forall (currentNodes : list Node) (currentEdges : list Edge) (g : Graph)
         (message : jsstring) (generatorNode : Node) (i : nat) (node : Node),
    find (fun n => eqb (type n) (lit "generatorNode")) currentNodes
    = Some generatorNode ->
    nth_error (nodes g) i = Some node ->
    let g' := runGenerator_resolved currentNodes currentEdges (Throw message)
                g in
    edges g' = edges g
    /\ List.length (nodes g') = List.length (nodes g)
    /\ (id node <> id generatorNode -> nth_error (nodes g') i = Some node)
    /\ (id node = id generatorNode ->
        exists node',
          nth_error (nodes g') i = Some node'
          /\ id node' = id node /\ type node' = type node
          /\ error (data node')
             = Some (Some (str_or message (lit "Generation failed")))
          /\ loading (data node') = Some false
          /\ outputImage (data node') = outputImage (data node)
          /\ image (data node') = image (data node)
          /\ prompt (data node') = prompt (data node)
          /\ resolution (data node') = resolution (data node)
          /\ aspectRatio (data node') = aspectRatio (data node)).
Proof.
  intros currentNodes currentEdges g message gen i node Hfind Hn g'.
  subst g'. unfold runGenerator_resolved. rewrite Hfind. cbn [edges nodes].
  split; [reflexivity|]. split; [rewrite !updateNodeData_length; reflexivity|].
  split; intros Hid.
  - apply updateNodeData_other; [|assumption].
    apply updateNodeData_other; assumption.
  - pose proof (fun newData =>
                  updateNodeData_target (id gen) newData (nodes g) i node
                    Hn Hid) as H1.
    eexists. split.
    + apply (updateNodeData_target (id gen) _ _ i _ (H1 _) Hid).
    + repeat split.
Qed.

Lemma updateNodeData_ids target_id newData nds :
  map id (updateNodeData target_id newData nds) = map id nds.
Proof.
  unfold updateNodeData. rewrite map_map. apply map_ext.
  intros n. destruct (eqb (id n) target_id); reflexivity.
Qed.

Lemma update_with_ids target_id f nds :
  map id (update_with target_id f nds) = map id nds.
Proof.
  unfold update_with. rewrite map_map. apply map_ext.
  intros n. destruct (eqb (id n) target_id); reflexivity.
Qed.

Lemma propagate_fold_ids currentNodes result res ar outputEdges :
  forall nds,
    map id (fold_left (propagate_edge currentNodes result res ar)
              outputEdges nds) = map id nds.
Proof.
  induction outputEdges as [|e es IH]; intros nds; cbn [fold_left];
    [reflexivity|].
  rewrite IH. unfold propagate_edge.
  destruct (find (fun n => eqb (id n) (target e)) currentNodes) as [tn|];
    [|reflexivity].
  destruct (eqb (type tn) (lit "outputNode")); [|reflexivity].
  apply update_with_ids.
Qed.

Lemma refiners_by_ids (l1 : list Node) :
  forall l2, map id l1 = map id l2 ->
             List.length (filter is_refiner l1)
             = List.length (filter is_refiner l2)
             /\ existsb is_refiner l1 = existsb is_refiner l2.
Proof.
  induction l1 as [|a l1 IH]; intros [|b l2] H; try discriminate;
    [split; reflexivity|].
  cbn [map] in H. injection H as Hab H. destruct (IH _ H) as [IH1 IH2].
  assert (Hr : is_refiner a = is_refiner b)
    by (unfold is_refiner; rewrite Hab; reflexivity).
  cbn [filter existsb]. rewrite Hr.
  destruct (is_refiner b); cbn [List.length orb]; split; congruence.
Qed.

Lemma no_refiner (l : list Node) :
  existsb is_refiner l = false -> filter is_refiner l = [].
Proof.
  induction l as [|a l IH]; cbn [existsb filter]; [reflexivity|].
  intros H. apply orb_false_iff in H. destruct H as [-> H]. auto.
Qed.

(** X26.  The refiner is made at most once.  A run of the generator keeps
    the ids of the nodes and the edges as they are, but for a run that
    succeeded on a graph with no node [refine-1]: that one appends the
    refiner node and the edge from node 3 to it.  So a graph with at most
    one refiner has at most one after any run, and has one after a run that
    succeeded. *)
Theorem refiner_created_once :
  forall (result : completion jsstring) (g : Graph),
    let g' := fst (run_generator result g) in
    ((map id (nodes g') = map id (nodes g) /\ edges g' = edges g)
     \/ (existsb is_refiner (nodes g) = false
         /\ map id (nodes g') = map id (nodes g) ++ [lit "refine-1"]
         /\ edges g' = edges g ++ [newEdge1]))
    /\ ((List.length (filter is_refiner (nodes g)) <= 1)%nat ->
        (List.length (filter is_refiner (nodes g')) <= 1)%nat)
    /\ (forall u, result = Return u -> snd (run_generator result g) <> [] ->
                  existsb is_refiner (nodes g') = true).
Proof.
  intros result g g'.
  assert (Hshape :
            (map id (nodes g') = map id (nodes g) /\ edges g' = edges g
             /\ (forall u, result = Return u ->
                           snd (run_generator result g) <> [] ->
                           existsb is_refiner (nodes g) = true))
            \/ (existsb is_refiner (nodes g) = false
                /\ map id (nodes g') = map id (nodes g) ++ [lit "refine-1"]
                /\ edges g' = edges g ++ [newEdge1])).
  { subst g'. unfold run_generator.
    destruct (runGenerator (nodes g) (edges g) (nodes g)) as [nds1 calls] eqn:Hrun.
    assert (Hids1 : map id nds1 = map id (nodes g)).
    { revert Hrun. unfold runGenerator.
      destruct (find _ (nodes g)) as [gen|]; [|intros H; injection H as <- _;
                                                reflexivity].
      destruct (resolve_inputs _ _) as [p imgs].
      destruct (no_prompt p); intros H; injection H as <- _;
        apply updateNodeData_ids. }
    destruct calls as [|c calls].
    - left. cbn [fst snd nodes edges]. repeat split; auto.
    - cbn [fst snd]. unfold runGenerator_resolved.
      destruct (find _ (nodes g)) as [gen|] eqn:Hfind.
      + destruct result as [u|m].
        * fold is_refiner.
          change (existsb (fun n => eqb (id n) (lit "refine-1")) (nodes g))
            with (existsb is_refiner (nodes g)).
          destruct (existsb is_refiner (nodes g)) eqn:Hex; cbn [nodes edges].
          -- left. rewrite !updateNodeData_ids, propagate_fold_ids.
             repeat split; auto.
          -- right. split; [reflexivity|].
             rewrite updateNodeData_ids, map_app, updateNodeData_ids,
               propagate_fold_ids, Hids1.
             split; reflexivity.
        * left. cbn [nodes edges]. rewrite !updateNodeData_ids.
          repeat split; auto. intros u H. discriminate.
      + left. cbn [nodes edges]. repeat split; auto.
        exfalso. revert Hrun. unfold runGenerator. rewrite Hfind.
        intros H. discriminate. }
  split; [|split].
  - destruct Hshape as [(H1 & H2 & _) | H]; [left | right]; auto.
  - intros Hle. destruct Hshape as [(H1 & _) | (Hex & H1 & _)].
    + rewrite (proj1 (refiners_by_ids _ _ H1)). exact Hle.
    + assert (E : map id (nodes g') = map id (nodes g ++ [newRefineNode]))
        by (rewrite map_app; exact H1).
      rewrite (proj1 (refiners_by_ids _ _ E)), filter_app, length_app.
      rewrite (no_refiner _ Hex). cbn. lia.
  - intros u Hu Hcalls. destruct Hshape as [(H1 & _ & H3) | (Hex & H1 & _)].
    + rewrite (proj2 (refiners_by_ids _ _ H1)). eapply H3; eassumption.
    + assert (E : map id (nodes g') = map id (nodes g ++ [newRefineNode]))
        by (rewrite map_app; exact H1).
      rewrite (proj2 (refiners_by_ids _ _ E)), existsb_app. cbn.
      apply orb_true_r.
Qed.

Ltac split_refine :=
  repeat match goal with
    | |- context [match ?x with _ => _ end] =>
        lazymatch x with
        | context [match _ with _ => _ end] => fail
        | _ => destruct x eqn:?
        end
    end.

(** X27.  A run of the refiner that fails one of its checks calls nothing
    and does not leave the node loading: the node ends with its loading flag
    down and the message of the check as its error ("Prompt required", "No
    input image connected", "Source node not found", "No image data from
    source. Run generator first."), or with no error when the refs do not
    hold the node; its prompt and its output, and every node with another
    id, are as they were.  In particular a refiner fed by an output node
    that holds no image yet reports that the generator has to run first. *)
Theorem refine_checks_fail_locally :
  forall (currentNodes : list Node) (currentEdges : list Edge)
         (nodeId : jsstring) (nds : list Node) (i : nat) (node : Node),
    nth_error nds i = Some node ->
    let result := runRefineLogic currentNodes currentEdges nodeId nds in
    (snd result = [] ->
     (id node <> nodeId -> nth_error (fst result) i = Some node)
     /\ (id node = nodeId ->
         exists node',
           nth_error (fst result) i = Some node'
           /\ id node' = id node /\ type node' = type node
           /\ loading (data node') = Some false
           /\ prompt (data node') = prompt (data node)
           /\ outputImage (data node') = outputImage (data node)
           /\ (error (data node') = Some None
               \/ exists message,
                    error (data node') = Some (Some message)
                    /\ In message
                         [lit "Prompt required";
                          lit "No input image connected";
                          lit "Source node not found";
                          lit "No image data from source. Run generator first."])))
    /\ (forall refiner prompt0 inputEdge sourceNode,
           find (fun n => eqb (id n) nodeId) currentNodes = Some refiner ->
           prompt (data refiner) = Some prompt0 -> prompt0 <> [] ->
           find (fun e => eqb (target e) nodeId) currentEdges = Some inputEdge ->
           find (fun n => eqb (id n) (source inputEdge)) currentNodes
           = Some sourceNode ->
           type sourceNode = lit "outputNode" ->
           image (data sourceNode) = Some None ->
           id node = nodeId ->
           snd result = []
           /\ exists node',
                nth_error (fst result) i = Some node'
                /\ error (data node')
                   = Some (Some (lit "No image data from source. Run generator first."))
                /\ loading (data node') = Some false).
Proof.
  intros currentNodes currentEdges nodeId nds i node Hn result.
  assert (Hother : forall a b c, id node <> nodeId ->
             nth_error (updateNodeData nodeId a
                          (updateNodeData nodeId b
                             (updateNodeData nodeId c nds))) i = Some node).
  { intros a b c Hid. repeat apply updateNodeData_other; assumption. }
  assert (Hother2 : forall a b, id node <> nodeId ->
             nth_error (updateNodeData nodeId a
                          (updateNodeData nodeId b nds)) i = Some node).
  { intros a b Hid. repeat apply updateNodeData_other; assumption. }
  assert (Hself : forall a b c, id node = nodeId ->
             nth_error (updateNodeData nodeId a
                          (updateNodeData nodeId b
                             (updateNodeData nodeId c nds))) i
             = Some (with_data node
                       (spread (spread (spread (data node) c) b) a))).
  { intros a b c Hid.
    pose proof (updateNodeData_target nodeId c nds i node Hn Hid) as H1.
    pose proof (updateNodeData_target nodeId b _ i _ H1 Hid) as H2.
    exact (updateNodeData_target nodeId a _ i _ H2 Hid). }
  assert (Hself2 : forall a b, id node = nodeId ->
             nth_error (updateNodeData nodeId a
                          (updateNodeData nodeId b nds)) i
             = Some (with_data node (spread (spread (data node) b) a))).
  { intros a b Hid.
    pose proof (updateNodeData_target nodeId b nds i node Hn Hid) as H1.
    exact (updateNodeData_target nodeId a _ i _ H1 Hid). }
  split.
  - subst result. unfold runRefineLogic. cbv zeta.
    split_refine; cbn [fst snd]; intros Hcalls; try discriminate;
      (split; intros Hid;
       [ first [apply Hother | apply Hother2]; assumption
       | first [rewrite (Hself _ _ _ Hid) | rewrite (Hself2 _ _ Hid)];
         eexists; split; [reflexivity|];
         repeat (split; [reflexivity|]);
         first [ left; reflexivity
               | right; eexists; split; [reflexivity|]; cbn; tauto ] ]).
  - intros refiner prompt0 inputEdge sourceNode Hr Hp Hne He Hs Hty Himg Hid.
    subst result. unfold runRefineLogic. cbv zeta.
    rewrite Hr, Hp. destruct prompt0 as [|ch prompt0]; [congruence|].
    rewrite He, Hs, Hty, eqb_refl, Himg. cbn [fst snd].
    split; [reflexivity|].
    rewrite (Hself _ _ _ Hid). eexists. split; [reflexivity|].
    split; reflexivity.
Qed.

(** X28.  A run of the refiner that reaches the request client makes one
    call: with the prompt of the refiner node, not empty, with exactly one
    image, the one its source, an output node, holds, and with the
    resolution and the ratio kept on that output node, 1K and 1:1 standing
    in for one that is missing or empty. *)
Theorem refine_call_shape :
  forall (currentNodes : list Node) (currentEdges : list Edge)
         (nodeId : jsstring) (nds : list Node) (c : call),
    In c (snd (runRefineLogic currentNodes currentEdges nodeId nds)) ->
    exists refiner prompt0 inputEdge sourceNode img,
      find (fun n => eqb (id n) nodeId) currentNodes = Some refiner
      /\ prompt (data refiner) = Some prompt0 /\ prompt0 <> []
      /\ find (fun e => eqb (target e) nodeId) currentEdges = Some inputEdge
      /\ find (fun n => eqb (id n) (source inputEdge)) currentNodes
         = Some sourceNode
      /\ type sourceNode = lit "outputNode"
      /\ image (data sourceNode) = Some (Some img) /\ img <> []
      /\ snd (runRefineLogic currentNodes currentEdges nodeId nds) = [c]
      /\ c = CallGenerateImage prompt0 [img]
               (Some (str_or (match resolution (data sourceNode) with
                              | Some r => r
                              | None => []
                              end) (lit "1K")))
               (Some (str_or (match aspectRatio (data sourceNode) with
                              | Some r => r
                              | None => []
                              end) (lit "1:1"))).
Proof.
  intros currentNodes currentEdges nodeId nds c.
  unfold runRefineLogic. cbv zeta.
  destruct (find (fun n => eqb (id n) nodeId) currentNodes) as [refiner|]
    eqn:Hr; [|intros []].
  destruct (prompt (data refiner)) as [[|ch p]|] eqn:Hp; try (intros []).
  destruct (find (fun e => eqb (target e) nodeId) currentEdges)
    as [inputEdge|] eqn:He; [|intros []].
  destruct (find (fun n => eqb (id n) (source inputEdge)) currentNodes)
    as [sourceNode|] eqn:Hs; [|intros []].
  destruct (eqb (type sourceNode) (lit "outputNode")) eqn:Hty;
    [|intros []].
  apply eqb_eq in Hty.
  destruct (image (data sourceNode)) as [[[|ci img]|]|] eqn:Himg;
    try (intros H; exact (False_ind _ H)).
  cbn [snd]. intros [<-|[]].
  exists refiner, (ch :: p), inputEdge, sourceNode, (ci :: img).
  repeat split; try assumption; try reflexivity; try discriminate.
  destruct (resolution (data sourceNode)) as [[|? ?]|];
    destruct (aspectRatio (data sourceNode)) as [[|? ?]|]; reflexivity.
Qed.

End PipelineMore.

Section PipelineScenarios.

Import WorkflowEditor Vocabulary Samples.

(** Two prompt nodes wired into the generator: the later edge wins. *)
Example second_prompt_wins :
  resolve_inputs (nodes pipeline ++ [second_prompt])
    (initialEdges ++ [mkEdge (lit "e4") (lit "p2") (lit "2") None None])
  = (Some (lit "an owl"), []).
Proof. reflexivity. Qed.

Lemma runGenerator_call_shape_witness :
  exists generatorNode prompt0 referenceImages,
    find (fun n => eqb (type n) (lit "generatorNode")) (nodes pipeline)
    = Some generatorNode
    /\ snd (runGenerator (nodes pipeline) (edges pipeline) (nodes pipeline))
       = [CallGenerateImage (lit "a red fox") [] (Some (lit "1K"))
            (Some (lit "1:1"))]
    /\ CallGenerateImage (lit "a red fox") [] (Some (lit "1K"))
         (Some (lit "1:1"))
       = CallGenerateImage prompt0 referenceImages
           (resolution (data generatorNode))
           (aspectRatio (data generatorNode))
    /\ prompt0 <> []
    /\ (List.length referenceImages <= 1)%nat
    /\ referenceImages
       = firstn 1 (flat_map (image_source (nodes pipeline))
                     (filter (fun e => eqb (target e) (id generatorNode))
                             (edges pipeline)))
    /\ fst (runGenerator (nodes pipeline) (edges pipeline) (nodes pipeline))
       = updateNodeData (id generatorNode)
           {| prompt := None; images := None; loading := Some true;
              resolution := None; aspectRatio := None; error := Some None;
              outputImage := None; image := None |} (nodes pipeline).
Proof.
  apply (runGenerator_call_shape (nodes pipeline) (edges pipeline)
           (nodes pipeline)).
  left. reflexivity.
Defined.

Lemma generator_success_reaches_outputs_witness :
  exists node',
    nth_error (nodes pipeline_run) 3 = Some node'
    /\ type node' = lit "outputNode"
    /\ image (data node') = Some (Some (lit "data:image/png;base64,Rk9Y"))
    /\ resolution (data node') = Some (lit "1K")
    /\ aspectRatio (data node') = Some (lit "1:1").
Proof.
  destruct (generator_success_reaches_outputs (nodes pipeline) (edges pipeline)
              (mkGraph (fst (runGenerator (nodes pipeline) (edges pipeline)
                               (nodes pipeline)))
                 (edges pipeline))
              (lit "data:image/png;base64,Rk9Y")
              (mkNode (lit "2") (lit "generatorNode") (400, 250)%Z
                 (mkNodeData None None (Some false) (Some (lit "1K"))
                    (Some (lit "1:1")) (Some None) None None))
              3
              (mkNode (lit "3") (lit "outputNode") (750, 100)%Z
                 (mkNodeData None None None None None None None (Some None)))
              eq_refl eq_refl)
    as (node' & Hn & _ & Hty & Hhit & _).
  exists node'. split; [exact Hn|]. split; [exact Hty|].
  apply Hhit.
  exists (mkEdge (lit "e2-3") (lit "2") (lit "3")
            (Some (lit "gen-out-main")) (Some (lit "in"))),
    (mkNode (lit "3") (lit "outputNode") (750, 100)%Z
       (mkNodeData None None None None None None None (Some None))).
  repeat split. cbn. tauto.
Defined.

Lemma generator_failure_is_local_witness :
  let g' := runGenerator_resolved (nodes pipeline) (edges pipeline)
              (Throw (lit "quota exceeded")) pipeline in
  edges g' = edges pipeline
  /\ List.length (nodes g') = List.length (nodes pipeline)
  /\ nth_error (nodes g') 3 = nth_error (nodes pipeline) 3
  /\ map (fun n => error (data n)) (nodes g')
     = [None; None; Some (Some (lit "quota exceeded")); None].
Proof.
  cbv zeta.
  destruct (generator_failure_is_local (nodes pipeline) (edges pipeline)
              pipeline (lit "quota exceeded")
              (mkNode (lit "2") (lit "generatorNode") (400, 250)%Z
                 (mkNodeData None None (Some false) (Some (lit "1K"))
                    (Some (lit "1:1")) (Some None) None None))
              3
              (mkNode (lit "3") (lit "outputNode") (750, 100)%Z
                 (mkNodeData None None None None None None None (Some None)))
              eq_refl eq_refl)
    as (H1 & H2 & H3 & _).
  split; [exact H1|]. split; [exact H2|]. split.
  - apply H3. discriminate.
  - reflexivity.
Defined.

Lemma refiner_created_once_witness :
  List.length (filter is_refiner (nodes pipeline_run)) = 1%nat
  /\ (List.length
        (filter is_refiner
           (nodes (fst (run_generator
                          (Return (lit "data:image/png;base64,T1dM"))
                          pipeline_run)))) <= 1)%nat.
Proof.
  split; [reflexivity|].
  apply (proj1 (proj2 (refiner_created_once
                         (Return (lit "data:image/png;base64,T1dM"))
                         pipeline_run))).
  cbn. lia.
Defined.

(** Two runs in a row leave one refiner and one edge to it. *)
Example two_runs_one_refiner :
  let g2 := fst (run_generator (Return (lit "data:image/png;base64,T1dM"))
                   pipeline_run) in
  map id (nodes g2)
  = [lit "1"; lit "img-1"; lit "2"; lit "3"; lit "refine-1"]
  /\ map edge_id (edges g2)
     = [lit "e1-2"; lit "eImg-2"; lit "e2-3"; lit "e3-refine"].
Proof. split; reflexivity. Qed.

Lemma refine_checks_fail_locally_witness :
  let result := runRefineLogic (nodes pipeline_early) (edges pipeline_early)
                  (lit "refine-1") (nodes pipeline_early) in
  snd result = []
  /\ exists node',
       nth_error (fst result) 4 = Some node'
       /\ error (data node')
          = Some (Some (lit "No image data from source. Run generator first."))
       /\ loading (data node') = Some false.
Proof.
  cbv zeta.
  refine (proj2 (refine_checks_fail_locally (nodes pipeline_early)
                   (edges pipeline_early) (lit "refine-1")
                   (nodes pipeline_early) 4 _ eq_refl)
            _ (lit "make it blue") _ _ eq_refl eq_refl _ eq_refl eq_refl
            eq_refl eq_refl eq_refl).
  discriminate.
Defined.

Lemma refine_call_shape_witness :
  snd (runRefineLogic (nodes pipeline_refining) (edges pipeline_refining)
         (lit "refine-1") (nodes pipeline_refining))
  = [CallGenerateImage (lit "make it blue")
       [lit "data:image/png;base64,Rk9Y"] (Some (lit "1K"))
       (Some (lit "1:1"))].
Proof.
  destruct (refine_call_shape (nodes pipeline_refining)
              (edges pipeline_refining) (lit "refine-1")
              (nodes pipeline_refining)
              (CallGenerateImage (lit "make it blue")
                 [lit "data:image/png;base64,Rk9Y"] (Some (lit "1K"))
                 (Some (lit "1:1")))
              (or_introl eq_refl))
    as (r & p0 & e & src & img & _ & _ & _ & _ & _ & _ & _ & _ & H & _).
  exact H.
Defined.

End PipelineScenarios.
